(** * Private sub-network reconciliation of a cluster VPC

    A shallow embedding of the package [aws] file that plans /27 candidate
    blocks inside a VPC CIDR block ([buildSubnetAddress],
    [generateAvailableSubnets], [incrementIP]) and creates the missing
    private subnets per availability zone ([GetPrivateSubnetIDS],
    [createPrivateSubnet], [tagPrivateSubnet], [GetVPCSubnets]), with the
    look-ups of the cluster VPC ([getClusterVpc], [GetCidr]) and the
    security group of the cluster ([configureSecurityGroup]); and of the
    test of package [common] that polls the status of the installation
    stages ([TestIntegreatlyStagesStatus]).

    Conventions of the embedding:
    - a Go [byte] is a [Z] in [0, 256); a [net.IP] or [net.IPMask] is the
      list of its bytes, and the empty list is Go's [nil];
    - Go's [int] and [uint] are the 64-bit ones; wrap-around is written out;
    - a Go [error] value is an [option error], [None] being [nil];
    - a slice that is only ever built by [append] from [nil] is a list, and
      [[]] is the [nil] slice;
    - a function that may loop forever takes fuel and answers [OutOfFuel]
      when it runs out; an index out of range or a nil dereference is
      [Panic];
    - addresses are IPv4, as the CIDR block of an [ec2.Vpc] is: the byte
      operations of package [net] are embedded for both the 4-byte and the
      16-byte form of an address, its parser and printer for the dotted
      notation only. *)

From Stdlib Require Import ZArith List String Ascii Bool Lia Sorted.
Import ListNotations.
Open Scope Z_scope.

(** ** Outcomes of possibly diverging or panicking code *)

Inductive Outcome (A : Type) : Type :=
| Done (a : A)
| Panic
| OutOfFuel.
Arguments Done {A} a.
Arguments Panic {A}.
Arguments OutOfFuel {A}.

(** ** Go's [net] package, as far as the code uses it *)

Module Net.

Definition IP := list Z.
Definition IPMask := list Z.

Record IPNet : Type := mkIPNet { net_IP : IP; net_Mask : IPMask }.

Definition IPv4len : nat := 4.
Definition IPv6len : nat := 16.

Definition v4InV6Prefix : list Z := [0; 0; 0; 0; 0; 0; 0; 0; 0; 0; 255; 255].

(** [net.IPv4(a, b, c, d)]: the 16-byte form of an IPv4 address. *)
Definition IPv4 (a b c d : Z) : IP := v4InV6Prefix ++ [a; b; c; d].

Fixpoint bytesEqual (x y : list Z) : bool :=
  match x, y with
  | [], [] => true
  | a :: x', b :: y' => (a =? b) && bytesEqual x' y'
  | _, _ => false
  end.

Definition isZeros (p : list Z) : bool := forallb (fun b => b =? 0) p.
Definition allFF (p : list Z) : bool := forallb (fun b => b =? 255) p.

(** [ip.To4()]: the 4-byte form, or [nil] when [ip] is not an IPv4 address. *)
Definition To4 (ip : IP) : IP :=
  if Nat.eqb (List.length ip) IPv4len then ip
  else if Nat.eqb (List.length ip) IPv6len && isZeros (firstn 10 ip)
          && (nth 10 ip 0 =? 255) && (nth 11 ip 0 =? 255)
       then firstn 4 (skipn 12 ip)
       else [].

Fixpoint andBytes (ip mask : list Z) : list Z :=
  match ip, mask with
  | a :: ip', m :: mask' => Z.land a m :: andBytes ip' mask'
  | _, _ => []
  end.

(** [ip.Mask(mask)]. *)
Definition Mask (ip : IP) (mask : IPMask) : IP :=
  let mask := if Nat.eqb (List.length mask) IPv6len && Nat.eqb (List.length ip) IPv4len
                 && allFF (firstn 12 mask)
              then skipn 12 mask else mask in
  let ip := if Nat.eqb (List.length mask) IPv4len && Nat.eqb (List.length ip) IPv6len
               && bytesEqual (firstn 12 ip) v4InV6Prefix
            then skipn 12 ip else ip in
  if Nat.eqb (List.length ip) (List.length mask) then andBytes ip mask else [].

(** [ip.Equal(x)]. *)
Definition Equal (ip x : IP) : bool :=
  if Nat.eqb (List.length ip) (List.length x) then bytesEqual ip x
  else if Nat.eqb (List.length ip) IPv4len && Nat.eqb (List.length x) IPv6len
  then bytesEqual (firstn 12 x) v4InV6Prefix && bytesEqual ip (skipn 12 x)
  else if Nat.eqb (List.length ip) IPv6len && Nat.eqb (List.length x) IPv4len
  then bytesEqual (firstn 12 ip) v4InV6Prefix && bytesEqual (skipn 12 ip) x
  else false.

(** [networkNumberAndMask(n)]; [([], [])] is the pair of nils. *)
Definition networkNumberAndMask (n : IPNet) : IP * IPMask :=
  let ip4 := To4 (net_IP n) in
  let ip := match ip4 with [] => net_IP n | _ => ip4 end in
  match ip4 with
  | [] => if Nat.eqb (List.length ip) IPv6len then
            (if Nat.eqb (List.length (net_Mask n)) IPv4len then ([], [])
             else if Nat.eqb (List.length (net_Mask n)) IPv6len then (ip, net_Mask n)
             else ([], []))
          else ([], [])
  | _ => if Nat.eqb (List.length (net_Mask n)) IPv4len then
           (if Nat.eqb (List.length ip) IPv4len then (ip, net_Mask n) else ([], []))
         else if Nat.eqb (List.length (net_Mask n)) IPv6len then
           (ip, if Nat.eqb (List.length ip) IPv4len then skipn 12 (net_Mask n) else net_Mask n)
         else ([], [])
  end.

(** The comparison loop of [Contains]: true unless some position differs
    under the mask. *)
Fixpoint sameUnderMask (nn m ip : list Z) : bool :=
  match nn, m, ip with
  | a :: nn', k :: m', b :: ip' =>
      if negb (Z.land a k =? Z.land b k) then false else sameUnderMask nn' m' ip'
  | _, _, _ => true
  end.

(** [n.Contains(ip)].  The loop indexes [nn], [m] and [ip] up to [len(ip)];
    [nn] has that length by the test before it, and [m] has it for every
    network the code builds (shorter masks would panic in Go, and
    [sameUnderMask] stops there instead). *)
Definition Contains (n : IPNet) (ip : IP) : bool :=
  let '(nn, m) := networkNumberAndMask n in
  let ip := match To4 ip with [] => ip | x => x end in
  if negb (Nat.eqb (List.length ip) (List.length nn)) then false
  else sameUnderMask nn m ip.

(** The loop of [CIDRMask] over the [l] bytes of the mask, [n] being the
    count of one bits still to place. *)
Fixpoint cidrMaskBytes (l : nat) (n : Z) : list Z :=
  match l with
  | O => []
  | S l' =>
      if 8 <=? n then 255 :: cidrMaskBytes l' (n - 8)
      else Z.lxor 255 (Z.shiftr 255 n) :: cidrMaskBytes l' 0
  end.

(** [net.CIDRMask(ones, bits)]. *)
Definition CIDRMask (ones bits : Z) : IPMask :=
  if negb (bits =? 32) && negb (bits =? 128) then []
  else if (ones <? 0) || (bits <? ones) then []
  else cidrMaskBytes (Z.to_nat (bits / 8)) ones.

(** The inner loop of [simpleMaskLength] on one byte: count the leading one
    bits of [v], shifting it left inside 8 bits.  A byte is zero after eight
    shifts, so eight rounds are all the loop can make. *)
Fixpoint leadingOnes (rounds : nat) (n v : Z) : Z * Z :=
  match rounds with
  | O => (n, v)
  | S r => if negb (Z.land v 128 =? 0)
           then leadingOnes r (n + 1) (Z.land (Z.shiftl v 1) 255)
           else (n, v)
  end.

Fixpoint simpleMaskLengthFrom (n : Z) (mask : list Z) : Z :=
  match mask with
  | [] => n
  | v :: rest =>
      if v =? 255 then simpleMaskLengthFrom (n + 8) rest
      else let '(n', v') := leadingOnes 8 n v in
           if negb (v' =? 0) then -1
           else if isZeros rest then n' else -1
  end.

Definition simpleMaskLength (mask : IPMask) : Z := simpleMaskLengthFrom 0 mask.

(** [m.Size()]: the count of leading ones and the width of the mask. *)
Definition Size (m : IPMask) : Z * Z :=
  let ones := simpleMaskLength m in
  if ones =? -1 then (0, 0) else (ones, Z.of_nat (List.length m) * 8).

(** *** Decimal text *)

Definition big : Z := 16777215.

Definition isDigit (c : ascii) : bool :=
  let n := Z.of_N (N_of_ascii c) in (48 <=? n) && (n <=? 57).

Definition digitVal (c : ascii) : Z := Z.of_N (N_of_ascii c) - 48.

Fixpoint dtoiFrom (s : string) (n : Z) (i : nat) : Z * nat * bool :=
  match s with
  | String c s' =>
      if isDigit c then
        let n' := n * 10 + digitVal c in
        if big <=? n' then (big, i, false) else dtoiFrom s' n' (S i)
      else if Nat.eqb i 0 then (0, O, false) else (n, i, true)
  | EmptyString => if Nat.eqb i 0 then (0, O, false) else (n, i, true)
  end.

(** [dtoi(s)]: the decimal number at the start of [s], how many bytes it
    takes, and whether there is one. *)
Definition dtoi (s : string) : Z * nat * bool := dtoiFrom s 0 O.

Fixpoint dropStr (n : nat) (s : string) : string :=
  match n, s with
  | S n', String _ s' => dropStr n' s'
  | _, _ => s
  end.

(** The loop of [parseIPv4] over its four fields: [k] fields are left and
    [p] holds the ones read. *)
Fixpoint parseIPv4Fields (k : nat) (s : string) (p : list Z) : option (list Z) :=
  match k with
  | O => match s with EmptyString => Some p | _ => None end
  | S k' =>
      match s with
      | EmptyString => None
      | String c0 s0 =>
          let after_dot :=
            match p with
            | [] => Some s
            | _ => if Ascii.eqb c0 "."%char then Some s0 else None
            end in
          match after_dot with
          | None => None
          | Some s1 =>
              let '(n, c, ok) := dtoi s1 in
              if negb ok || (255 <? n) then None
              else if Nat.ltb 1 c
                      && match s1 with String d _ => Ascii.eqb d "0"%char | _ => false end
              then None
              else parseIPv4Fields k' (dropStr c s1) (p ++ [n])
          end
      end
  end.

(** [parseIPv4(s)]: four decimal fields 0..255 without leading zeros. *)
Definition parseIPv4 (s : string) : IP :=
  match parseIPv4Fields 4 s [] with
  | Some [a; b; c; d] => IPv4 a b c d
  | _ => []
  end.

(** Split at the first ['/'], as [IndexByteString] and the two slices do. *)
Fixpoint cutSlash (s : string) : option (string * string) :=
  match s with
  | EmptyString => None
  | String c s' =>
      if Ascii.eqb c "/"%char then Some (EmptyString, s')
      else match cutSlash s' with
           | Some (a, m) => Some (String c a, m)
           | None => None
           end
  end.

(** [net.ParseCIDR(s)] for the IPv4 notation ["a.b.c.d/n"]; [None] is the
    [ParseError].  The CIDR block of an [ec2.Vpc] is the VPC's IPv4 block,
    and the IPv6 branch of the parser ([parseIPv6]) is not embedded: text
    that [parseIPv4] rejects is a parse error here.  Go's [parseIPv6]
    rejects every text without a colon, so the definition is [net.ParseCIDR]
    on such text, and on every text it accepts; on text with a colon that it
    rejects it says nothing of the code.  A property that concludes from a
    failed parse therefore assumes a text without a colon. *)
Definition ParseCIDR (s : string) : option (IP * IPNet) :=
  match cutSlash s with
  | None => None
  | Some (addr, mask) =>
      let ip := parseIPv4 addr in
      let '(n, i, ok) := dtoi mask in
      match ip with
      | [] => None
      | _ =>
          if negb ok || negb (Nat.eqb i (String.length mask)) || (n <? 0) || (32 <? n)
          then None
          else let m := CIDRMask n 32 in
               Some (ip, mkIPNet (Mask ip m) m)
      end
  end.

(** [uitoa]: Go fills a 20-byte buffer from its end, one digit a round. *)
Fixpoint uitoaFrom (rounds : nat) (val : Z) (acc : string) : string :=
  match rounds with
  | O => acc
  | S r =>
      if 10 <=? val
      then uitoaFrom r (val / 10) (String (ascii_of_N (Z.to_N (48 + val mod 10))) acc)
      else String (ascii_of_N (Z.to_N (48 + val))) acc
  end.

Definition uitoa (val : Z) : string :=
  if val =? 0 then "0"%string else uitoaFrom 20 val EmptyString.

(** [ip.String()] for a nil IP and for an IPv4 address; the IPv6 notation is
    not embedded and reads ["?"] here (the code never prints one: see
    [ParseCIDR_IPv4]). *)
Definition IPString (ip : IP) : string :=
  match ip with
  | [] => "<nil>"%string
  | _ =>
      match To4 ip with
      | [a; b; c; d] =>
          (uitoa a ++ "." ++ uitoa b ++ "." ++ uitoa c ++ "." ++ uitoa d)%string
      | _ => "?"%string
      end
  end.

End Net.

(** ** Errors: Go's [error] values and [github.com/pkg/errors] *)

Module Errors.

Inductive error : Type :=
| AwsError (code message : string)      (* a value implementing [awserr.Error] *)
| ParseError (typ text : string)        (* [*net.ParseError] *)
| ErrWaitTimeout                         (* [wait.ErrWaitTimeout] *)
| New (message : string)                 (* [errorUtil.New], or any other plain error *)
| Wrapped (cause : error) (message : string).

(** [errorUtil.Wrap(err, message)]: [nil] when [err] is [nil]. *)
Definition Wrap (err : option error) (message : string) : option error :=
  match err with
  | None => None
  | Some e => Some (Wrapped e message)
  end.

(** [err.(awserr.Error)] followed by [Code()]: the code of an AWS error, and
    nothing for [nil] or for an error of another type (a wrapped AWS error is
    of another type). *)
Definition awsCode (err : option error) : option string :=
  match err with
  | Some (AwsError code _) => Some code
  | _ => None
  end.

End Errors.

(** ** Package [aws]: the address planner *)

Module Aws.
Import Net Errors.

(** The fields of [ec2.Vpc] the code reads.  The SDK fills them for every VPC
    it returns, so they are strings and not pointers. *)
Record Vpc : Type := mkVpc { VpcId : string; CidrBlock : string }.

Definition defaultAWSPrivateSubnetTagKey : string := "kubernetes.io/role/internal-elb".
Definition defaultSubnetMask : Z := 27.

(** Go's 64-bit [uint] and [int]. *)
Definition uintWrap (x : Z) : Z := x mod 2 ^ 64.
Definition uintOfInt (i : Z) : Z := i mod 2 ^ 64.
Definition maxInt : Z := 2 ^ 63 - 1.
Definition minInt : Z := - 2 ^ 63.
(** [i++] on an [int]. *)
Definition intIncr (i : Z) : Z := if i =? maxInt then minInt else i + 1.

(** [incrementIP(ip, inc)]; [None] is the index-out-of-range panic on an
    [ip] whose [To4] is nil. *)
Definition incrementIP (ip : IP) (inc : Z) : option IP :=
  match To4 ip with
  | [b0; b1; b2; b3] =>
      let joinedBytes :=
        uintWrap (uintWrap (uintWrap (uintWrap (Z.shiftl b0 24) + uintWrap (Z.shiftl b1 16))
                            + uintWrap (Z.shiftl b2 8)) + b3) in
      let joinedBytes := uintWrap (joinedBytes + uintOfInt inc) in
      let byte3 := Z.land joinedBytes 255 in
      let byte2 := Z.land (Z.shiftr joinedBytes 8) 255 in
      let byte1 := Z.land (Z.shiftr joinedBytes 16) 255 in
      let byte0 := Z.land (Z.shiftr joinedBytes 24) 255 in
      Some (IPv4 byte0 byte1 byte2 byte3)
  | _ => None
  end.

(** [containsNetwork(networks, toFind)]. *)
Fixpoint containsNetwork (networks : list IPNet) (toFind : IP) : bool :=
  match networks with
  | [] => false
  | n :: rest => if Equal (net_IP n) toFind then true else containsNetwork rest toFind
  end.

(** The [for] loop of [generateAvailableSubnets], from counter [i] with the
    networks found so far. *)
Fixpoint generateLoop (fuel : nat) (fromCIDR : IPNet) (toIPv4 : IP) (toMask : IPMask)
    (i : Z) (networks : list IPNet) : Outcome (list IPNet) :=
  match fuel with
  | O => OutOfFuel
  | S fuel' =>
      match incrementIP toIPv4 i with
      | None => Panic
      | Some nextFoundNetwork =>
          if Contains fromCIDR nextFoundNetwork then
            let nextFoundNetworkMasked := Mask nextFoundNetwork toMask in
            if containsNetwork networks nextFoundNetworkMasked
            then generateLoop fuel' fromCIDR toIPv4 toMask (intIncr i) networks
            else generateLoop fuel' fromCIDR toIPv4 toMask (intIncr i)
                   (networks ++ [mkIPNet nextFoundNetworkMasked toMask])
          else Done networks
      end
  end.

(** [generateAvailableSubnets(fromCIDR, toCIDR)]. *)
Definition generateAvailableSubnets (fuel : nat) (fromCIDR toCIDR : IPNet)
    : Outcome (list IPNet) :=
  let toIPv4 := To4 (net_IP toCIDR) in
  generateLoop fuel fromCIDR toIPv4 (net_Mask toCIDR) 0
    [mkIPNet toIPv4 (net_Mask toCIDR)].

(** [s[i] = v] on a slice already long enough. *)
Fixpoint setAt {A : Type} (i : nat) (v : A) (s : list A) : list A :=
  match s, i with
  | [], _ => []
  | _ :: s', O => v :: s'
  | a :: s', S i' => a :: setAt i' v s'
  end.

(** [s[i], s[j] = s[j], s[i]]; both indices are in range wherever the code
    swaps, and the slice is left alone otherwise. *)
Definition swapAt {A : Type} (i j : nat) (s : list A) : list A :=
  match nth_error s i, nth_error s j with
  | Some a, Some b => setAt j a (setAt i b s)
  | _, _ => s
  end.

(** The reversal loop at the end of [buildSubnetAddress]:
    [for i, j := 0, len-1; i < j; i, j = i+1, j-1].  The indices are integers,
    [j] being -1 for an empty slice; [rounds] bounds the iterations and the
    length of the slice is more than the loop can make. *)
Fixpoint reverseLoop {A : Type} (rounds : nat) (i j : Z) (s : list A) : list A :=
  match rounds with
  | O => s
  | S r =>
      if i <? j then reverseLoop r (i + 1) (j - 1) (swapAt (Z.to_nat i) (Z.to_nat j) s)
      else s
  end.

Definition reverseInPlace {A : Type} (s : list A) : list A :=
  reverseLoop (List.length s) 0 (Z.of_nat (List.length s) - 1) s.

(** [buildSubnetAddress(vpc, logger)]: the candidate blocks and the error. *)
Definition buildSubnetAddress (fuel : nat) (vpc : Vpc)
    : Outcome (list IPNet * option error) :=
  if String.eqb (CidrBlock vpc) "" then
    Done ([], Some (New "vpc cidr block can't be empty"))
  else
    match ParseCIDR (CidrBlock vpc) with
    | None =>
        Done ([], Wrap (Some (ParseError "CIDR address" (CidrBlock vpc)))
                    ("failed to parse vpc cidr block " ++ CidrBlock vpc))
    | Some (_, awsCIDR) =>
        let maskSize := fst (Size (net_Mask awsCIDR)) in
        if defaultSubnetMask <=? maskSize then
          Done ([], Some (New ("vpc cidr block " ++ CidrBlock vpc
                               ++ " cannot contain generated subnet mask /"
                               ++ uitoa defaultSubnetMask)))
        else
          let croCIDRStr := (IPString (net_IP awsCIDR) ++ "/" ++ uitoa defaultSubnetMask)%string in
          match ParseCIDR croCIDRStr with
          | None =>
              Done ([], Wrap (Some (ParseError "CIDR address" croCIDRStr))
                          ("failed to parse cro cidr block " ++ croCIDRStr))
          | Some (_, croCIDR) =>
              match generateAvailableSubnets fuel awsCIDR croCIDR with
              | Done networks => Done (reverseInPlace networks, None)
              | Panic => Panic
              | OutOfFuel => OutOfFuel
              end
          end
    end.

(** ** Package [aws]: the provider and the reconciliation *)

Record Tag : Type := mkTag { Key : string; Value : string }.

(** The fields of [ec2.Subnet] and [ec2.AvailabilityZone] the code reads. *)
Record Subnet : Type := mkSubnet {
  SubnetId : string;
  Subnet_VpcId : string;
  Subnet_AvailabilityZone : string;
  Tags : list Tag
}.

Record AvailabilityZone : Type := mkAZ { ZoneName : string; State : string }.

Record CreateSubnetInput : Type := mkCreateSubnetInput {
  Input_AvailabilityZone : string;
  Input_CidrBlock : string;
  Input_VpcId : string
}.

(** The requests of [ec2iface.EC2API] a run can leave in its trace.  The file
    issues the first five; [DeleteSubnetReq] is the request a rollback of a
    created subnet would be. *)
Inductive Request : Type :=
| DescribeSubnetsReq
| DescribeAvailabilityZonesReq
| DescribeVpcsReq (vpcIds : list string)
| CreateSubnetReq (input : CreateSubnetInput)
| CreateTagsReq (resources : list string) (tags : list Tag)
| DeleteSubnetReq (subnetId : string).

(** The collaborators, over a state [S] of their own: the EC2 service, and
    the two look-ups of package [resources] through the cluster client.  A
    call answers either its output or an error, as the SDK does. *)
Record Provider (S : Type) : Type := mkProvider {
  DescribeSubnets : S -> (list Subnet + error) * S;
  DescribeAvailabilityZones : S -> (list AvailabilityZone + error) * S;
  DescribeVpcs : list string -> S -> (list Vpc + error) * S;
  CreateSubnet : CreateSubnetInput -> S -> (Subnet + error) * S;
  CreateTags : list string -> list Tag -> S -> option error * S;
  GetClusterID : S -> (string + error) * S;
  GetUserInfraTags : S -> (list Tag + error) * S
}.
Arguments DescribeSubnets {S} _ _.
Arguments DescribeAvailabilityZones {S} _ _.
Arguments DescribeVpcs {S} _ _ _.
Arguments CreateSubnet {S} _ _ _.
Arguments CreateTags {S} _ _ _ _.
Arguments GetClusterID {S} _ _.
Arguments GetUserInfraTags {S} _ _.

(** Constants and helpers of the package and of package [resources] that are
    declared outside this file, and the number of further polls that fit in
    the five minutes of [wait.PollImmediate] after the immediate one. *)
Record Config : Type := mkConfig {
  organizationTag : string;
  TagDisplayName : string;
  defaultSubnetNameTagValue : string;
  BuildManagedTag : Tag;
  MergeTags : list Tag -> list Tag -> list Tag;
  clusterOwnedTagKeyPrefix : string;
  pollRetries : nat
}.

(** The world a run threads: the collaborators' state and the EC2 requests
    issued so far, oldest first. *)
Record World (S : Type) : Type := mkWorld { ext : S; trace : list Request }.
Arguments mkWorld {S} _ _.
Arguments ext {S} _.
Arguments trace {S} _.

Definition M (S A : Type) : Type := World S -> Outcome A * World S.

Definition ret {S A : Type} (a : A) : M S A := fun w => (Done a, w).

Definition bind {S A B : Type} (m : M S A) (k : A -> M S B) : M S B :=
  fun w =>
    match m w with
    | (Done a, w') => k a w'
    | (Panic, w') => (Panic, w')
    | (OutOfFuel, w') => (OutOfFuel, w')
    end.

Definition panic {S A : Type} : M S A := fun w => (Panic, w).

(** A pure computation that may panic or run out of fuel, inside a run. *)
Definition lift {S A : Type} (o : Outcome A) : M S A := fun w => (o, w).

Declare Scope run_scope.
Delimit Scope run_scope with run.
Notation "x <- m ;; k" := (bind m (fun x => k))
  (at level 61, m at next level, right associativity) : run_scope.
Notation "' pat <- m ;; k" := (bind m (fun x => match x with pat => k end))
  (at level 61, pat pattern, m at next level, right associativity) : run_scope.
Open Scope run_scope.

(** [n.String()] of an [IPNet]. *)
Definition hexDigit (n : Z) : ascii :=
  if n <? 10 then ascii_of_N (Z.to_N (48 + n)) else ascii_of_N (Z.to_N (87 + n)).

Fixpoint hexString (b : list Z) : string :=
  match b with
  | [] => EmptyString
  | x :: b' => String (hexDigit (Z.shiftr x 4)) (String (hexDigit (Z.land x 15)) (hexString b'))
  end.

Definition IPNetString (n : IPNet) : string :=
  let '(nn, m) := networkNumberAndMask n in
  match nn with
  | [] => "<nil>"%string
  | _ =>
      let l := simpleMaskLength m in
      if l =? -1 then (IPString nn ++ "/" ++ hexString m)%string
      else (IPString nn ++ "/" ++ uitoa l)%string
  end.

Section Reconciliation.

Context {S : Type}.
Variable cfg : Config.
Variable svc : Provider S.

Definition request {A : Type} (r : Request) (f : S -> A * S) : M S A :=
  fun w => let '(a, s') := f (ext w) in (Done a, mkWorld s' (trace w ++ [r])).

Definition lookup {A : Type} (f : S -> A * S) : M S A :=
  fun w => let '(a, s') := f (ext w) in (Done a, mkWorld s' (trace w)).

(** [getSubnets]: [wait.PollImmediate] around [DescribeSubnets].  The
    condition never reports an error of its own; a failed listing is polled
    again, and the poll times out once the retries are spent. *)
Fixpoint pollSubnets (retries : nat) : M S (list Subnet * option error) :=
  r <- request DescribeSubnetsReq (DescribeSubnets svc) ;;
  match r with
  | inl subs => ret (subs, None)
  | inr _ =>
      match retries with
      | O => ret ([], Some ErrWaitTimeout)
      | Datatypes.S n => pollSubnets n
      end
  end.

Definition getSubnets : M S (list Subnet * option error) :=
  pollSubnets (pollRetries cfg).

(** [getAZs]. *)
Definition getAZs : M S (list AvailabilityZone * option error) :=
  r <- request DescribeAvailabilityZonesReq (DescribeAvailabilityZones svc) ;;
  match r with
  | inr e => ret ([], Wrap (Some e) "error getting availability zones")
  | inl azs => ret (azs, None)
  end.

Definition getOSDClusterTagKey (clusterID : string) : string :=
  (clusterOwnedTagKeyPrefix cfg ++ clusterID)%string.

(** The two nested loops of [getVPCIDByClusterSubnets]: the VPC of the first
    subnet that carries the cluster tag with value owned or shared. *)
Fixpoint firstClusterVpc (clusterID : string) (subs : list Subnet) : option string :=
  match subs with
  | [] => None
  | sub :: rest =>
      if existsb (fun tag => (String.eqb (Value tag) "owned" || String.eqb (Value tag) "shared")
                             && String.eqb (Key tag) (getOSDClusterTagKey clusterID))
                 (Tags sub)
      then Some (Subnet_VpcId sub)
      else firstClusterVpc clusterID rest
  end.

Definition getVPCIDByClusterSubnets (clusterID : string) : M S (string * option error) :=
  r <- request DescribeSubnetsReq (DescribeSubnets svc) ;;
  match r with
  | inr e => ret (EmptyString, Some e)
  | inl subs =>
      match firstClusterVpc clusterID subs with
      | Some id => ret (id, None)
      | None =>
          ret (EmptyString,
               Some (New ("failed to get cluster vpc id, no vpc found with osd cluster tag: could not find cluster associated subnets with clusterID "
                          ++ clusterID)))
      end
  end.

(** [getClusterVpc]: a nil VPC comes with an error. *)
Definition getClusterVpc : M S (option Vpc * option error) :=
  r <- lookup (GetClusterID svc) ;;
  match r with
  | inr e => ret (None, Wrap (Some e) "error getting clusterID")
  | inl clusterID =>
      '(vpcId, err) <- getVPCIDByClusterSubnets clusterID ;;
      match err with
      | Some _ => ret (None, Wrap err "error getting vpc id from associated subnets")
      | None =>
          r <- request (DescribeVpcsReq [vpcId]) (DescribeVpcs svc [vpcId]) ;;
          match r with
          | inr e => ret (None, Wrap (Some e) ("error getting vpc with id " ++ vpcId))
          | inl [] => ret (None, Some (New "error, no vpc found"))
          | inl [vpc] => ret (Some vpc, None)
          | inl _ =>
              ret (None, Some (New "error, more than one vpc found associated with cluster subnets"))
          end
      end
  end.

(** [GetVPCSubnets(ec2Svc, logger, vpc)]. *)
Definition GetVPCSubnets (vpc : option Vpc) : M S (list Subnet * option error) :=
  '(subs, err) <- getSubnets ;;
  match err with
  | Some _ => ret ([], Wrap err "error getting subnets")
  | None =>
      match vpc with
      | None => ret ([], Wrap err "vpc is nil, need vpc to find associated subnets")
      | Some vpc =>
          let associatedSubs :=
            filter (fun sub => String.eqb (Subnet_VpcId sub) (VpcId vpc)) subs in
          match associatedSubs with
          | [] => ret ([], Some (New "error, unable to find subnets associated with cluster vpc"))
          | _ => ret (associatedSubs, None)
          end
      end
  end.

(** [getDefaultSubnetTags].  The user tags are merged in when
    [GetUserInfraTags] returns a non-nil slice; [[]] is the nil slice. *)
Definition getDefaultSubnetTags : M S (list Tag * option error) :=
  r <- lookup (GetClusterID svc) ;;
  match r with
  | inr e => ret ([], Wrap (Some e) "error getting clusterID")
  | inl clusterID =>
      let tags := [ mkTag defaultAWSPrivateSubnetTagKey "1";
                    mkTag (organizationTag cfg ++ "clusterID") clusterID;
                    mkTag (TagDisplayName cfg) (defaultSubnetNameTagValue cfg);
                    BuildManagedTag cfg ] in
      r <- lookup (GetUserInfraTags svc) ;;
      match r with
      | inr e => ret ([], Wrap (Some e) "Failed to get user infrastructure tags")
      | inl [] => ret (tags, None)
      | inl infraTags => ret (MergeTags cfg tags infraTags, None)
      end
  end.

(** [tagPrivateSubnet]. *)
Definition tagPrivateSubnet (sub : Subnet) : M S (option error) :=
  '(tags, err) <- getDefaultSubnetTags ;;
  match err with
  | Some _ => ret err
  | None =>
      err <- request (CreateTagsReq [SubnetId sub] tags) (CreateTags svc [SubnetId sub] tags) ;;
      match err with
      | Some _ => ret (Wrap err "failed to tag subnet")
      | None => ret None
      end
  end.

(** The [for] loop of [createPrivateSubnet] over the candidate blocks, and
    the [return subnet, nil] after it. *)
Fixpoint createLoop (vpc : Vpc) (zone : string) (subs : list IPNet)
    : M S (option Subnet * option error) :=
  match subs with
  | [] => ret (None, None)
  | ip :: rest =>
      let input := mkCreateSubnetInput zone (IPNetString ip) (VpcId vpc) in
      r <- request (CreateSubnetReq input) (CreateSubnet svc input) ;;
      let err := match r with inr e => Some e | inl _ => None end in
      match awsCode err with
      | Some code =>
          if String.eqb code "InvalidSubnet.Conflict" then createLoop vpc zone rest
          else ret (None, Wrap err "error creating new subnet")
      | None =>
          match r with
          | inr _ => ret (None, Wrap err "error creating new subnet")
          | inl created =>
              newErr <- tagPrivateSubnet created ;;
              match newErr with
              | Some _ => ret (None, newErr)
              | None => ret (Some created, None)
              end
          end
      end
  end.

(** [createPrivateSubnet]; a nil [vpc] panics at [*vpc.VpcId]. *)
Definition createPrivateSubnet (fuel : nat) (vpc : option Vpc) (zone : string)
    : M S (option Subnet * option error) :=
  match vpc with
  | None => panic
  | Some vpc =>
      '(subs, err) <- lift (buildSubnetAddress fuel vpc) ;;
      match err with
      | Some _ => ret (None, Wrap err "failed to build subnets")
      | None => createLoop vpc zone subs
      end
  end.

(** [privateSubnetExists(privSubs, zone)]; a nil entry of [privSubs] panics
    at [*subnet.AvailabilityZone]. *)
Fixpoint privateSubnetExists (privSubs : list (option Subnet)) (zone : AvailabilityZone)
    : Outcome bool :=
  match privSubs with
  | [] => Done false
  | None :: _ => Panic
  | Some subnet :: rest =>
      if String.eqb (Subnet_AvailabilityZone subnet) (ZoneName zone)
         && String.eqb (State zone) "available"
      then Done true
      else privateSubnetExists rest zone
  end.

(** The filter of [GetPrivateSubnetIDS] on the private-subnet tag key: a
    subnet is appended once for each of its tags with that key. *)
Definition privateSubnets (subs : list Subnet) : list (option Subnet) :=
  flat_map (fun sub =>
    flat_map (fun tags =>
      if String.eqb (Key tags) defaultAWSPrivateSubnetTagKey then [Some sub] else [])
      (Tags sub)) subs.

(** The loop of [GetPrivateSubnetIDS] over the availability zones; an error
    of [createPrivateSubnet] ends the function. *)
Fixpoint reconcileZones (fuel : nat) (foundVPC : option Vpc)
    (azs : list AvailabilityZone) (privSubs : list (option Subnet))
    : M S (list (option Subnet) * option error) :=
  match azs with
  | [] => ret (privSubs, None)
  | az :: rest =>
      covered <- lift (privateSubnetExists privSubs az) ;;
      if negb covered then
        '(subnet, err) <- createPrivateSubnet fuel foundVPC (ZoneName az) ;;
        match err with
        | Some _ => ret ([], Wrap err "failed to created private subnet")
        | None => reconcileZones fuel foundVPC rest (privSubs ++ [subnet])
        end
      else reconcileZones fuel foundVPC rest privSubs
  end.

(** The last loop of [GetPrivateSubnetIDS]; a nil entry panics at
    [sub.SubnetId]. *)
Fixpoint subnetIDs (privSubs : list (option Subnet)) : Outcome (list string) :=
  match privSubs with
  | [] => Done []
  | None :: _ => Panic
  | Some sub :: rest =>
      match subnetIDs rest with
      | Done ids => Done (SubnetId sub :: ids)
      | Panic => Panic
      | OutOfFuel => OutOfFuel
      end
  end.

(** [GetPrivateSubnetIDS]. *)
Definition GetPrivateSubnetIDS (fuel : nat) : M S (list string * option error) :=
  '(foundVPC, err) <- getClusterVpc ;;
  match err with
  | Some _ => ret ([], Wrap err "error getting vpcs")
  | None =>
      '(subs, err) <- GetVPCSubnets foundVPC ;;
      match err with
      | Some _ => ret ([], Wrap err "error getting vpc subnets")
      | None =>
          '(azs, err) <- getAZs ;;
          match err with
          | Some _ => ret ([], Wrap err "error getting availability zones")
          | None =>
              '(privSubs, err) <- reconcileZones fuel foundVPC azs (privateSubnets subs) ;;
              match err with
              | Some _ => ret ([], err)
              | None =>
                  subIDs <- lift (subnetIDs privSubs) ;;
                  match subIDs with
                  | [] => ret ([], Some (New "failed to get list of private subnet ids"))
                  | _ => ret (subIDs, None)
                  end
              end
          end
      end
  end.

(** [GetCidr]: the identifier and the CIDR block of the cluster VPC. *)
Definition GetCidr : M S (string * string * option error) :=
  '(foundVPC, err) <- getClusterVpc ;;
  match err with
  | Some _ => ret (EmptyString, EmptyString, Wrap err "error getting vpcs")
  | None =>
      match foundVPC with
      | None => ret (EmptyString, EmptyString, Some (New "error, unable to find a vpc"))
      | Some vpc => ret (VpcId vpc, CidrBlock vpc, None)
      end
  end.

End Reconciliation.

(** ** Package [aws]: the security group of the cluster *)

Definition defaultSecurityGroupPostfix : string := "security-group".

(** The fields of [ec2.SecurityGroup] the code reads.  [P] is the type
    [ec2.IpPermission]: the code builds one value of it and compares it with
    [reflect.DeepEqual], both taken as parameters below. *)
Record SecurityGroup (P : Type) : Type := mkSecurityGroup {
  GroupId : string;
  GroupName : string;
  IpPermissions : list P
}.
Arguments mkSecurityGroup {P} _ _ _.
Arguments GroupId {P} _.
Arguments GroupName {P} _.
Arguments IpPermissions {P} _.

(** The requests a run of [configureSecurityGroup] can leave in its trace:
    those of the VPC look-up, and the three on security groups. *)
Inductive GroupRequest (P : Type) : Type :=
| VpcReq (r : Request)
| DescribeSecurityGroupsReq
| CreateSecurityGroupReq (description groupName vpcId : string)
| AuthorizeSecurityGroupIngressReq (groupId : string) (ipPermissions : list P).
Arguments VpcReq {P} r.
Arguments DescribeSecurityGroupsReq {P}.
Arguments CreateSecurityGroupReq {P} _ _ _.
Arguments AuthorizeSecurityGroupIngressReq {P} _ _.

(** The further collaborators: three calls of the EC2 service, and
    [resources.BuildInfraName] with its postfix and length arguments. *)
Record GroupProvider (S P : Type) : Type := mkGroupProvider {
  DescribeSecurityGroups : S -> (list (SecurityGroup P) + error) * S;
  CreateSecurityGroup : string -> string -> string -> S -> option error * S;
  AuthorizeSecurityGroupIngress : string -> list P -> S -> option error * S;
  BuildInfraName : string -> Z -> S -> (string + error) * S
}.
Arguments DescribeSecurityGroups {S P} _ _.
Arguments CreateSecurityGroup {S P} _ _ _ _ _.
Arguments AuthorizeSecurityGroupIngress {S P} _ _ _ _.
Arguments BuildInfraName {S P} _ _ _ _.

Record GroupWorld (S P : Type) : Type :=
  mkGroupWorld { group_ext : S; group_trace : list (GroupRequest P) }.
Arguments mkGroupWorld {S P} _ _.
Arguments group_ext {S P} _.
Arguments group_trace {S P} _.

Definition G (S P A : Type) : Type := GroupWorld S P -> Outcome A * GroupWorld S P.

Definition gret {S P A : Type} (a : A) : G S P A := fun w => (Done a, w).

Definition gbind {S P A B : Type} (m : G S P A) (k : A -> G S P B) : G S P B :=
  fun w =>
    match m w with
    | (Done a, w') => k a w'
    | (Panic, w') => (Panic, w')
    | (OutOfFuel, w') => (OutOfFuel, w')
    end.

Notation "x <~ m ;; k" := (gbind m (fun x => k))
  (at level 61, m at next level, right associativity) : run_scope.
Notation "' pat <~ m ;; k" := (gbind m (fun x => match x with pat => k end))
  (at level 61, pat pattern, m at next level, right associativity) : run_scope.

Section SecurityGroups.

Context {S P : Type}.
Variable cfg : Config.
Variable svc : Provider S.
Variable groups : GroupProvider S P.
(** [reflect.DeepEqual] on two [*ec2.IpPermission]. *)
Variable DeepEqual : P -> P -> bool.
(** The literal [&ec2.IpPermission{IpProtocol: "-1", IpRanges: {{CidrIp: cidr}}}]. *)
Variable ipPermissionFor : string -> P.
(** The constant [defaultAwsIdentifierLength] of the package. *)
Variable defaultAwsIdentifierLength : Z.

Definition groupRequest {A : Type} (r : GroupRequest P) (f : S -> A * S) : G S P A :=
  fun w => let '(a, s') := f (group_ext w) in
           (Done a, mkGroupWorld s' (group_trace w ++ [r])).

Definition groupLookup {A : Type} (f : S -> A * S) : G S P A :=
  fun w => let '(a, s') := f (group_ext w) in (Done a, mkGroupWorld s' (group_trace w)).

(** A run of the VPC look-ups inside a run on security groups: its requests
    go to the trace in their order. *)
Definition withVpc {A : Type} (m : M S A) : G S P A :=
  fun w => let '(o, w') := m (mkWorld (group_ext w) []) in
           (o, mkGroupWorld (ext w') (group_trace w ++ map VpcReq (trace w'))).

(** The loop of [getSecurityGroup]: the first group with the name. *)
Fixpoint findGroup (secName : string) (secGroups : list (SecurityGroup P))
    : option (SecurityGroup P) :=
  match secGroups with
  | [] => None
  | sec :: rest =>
      if String.eqb (GroupName sec) secName then Some sec else findGroup secName rest
  end.

(** [getSecurityGroup(ec2Svc, secName)]. *)
Definition getSecurityGroup (secName : string)
    : G S P (option (SecurityGroup P) * option error) :=
  r <~ groupRequest DescribeSecurityGroupsReq (DescribeSecurityGroups groups) ;;
  match r with
  | inr e => gret (None, Wrap (Some e) "failed to return information about security groups")
  | inl secGroups => gret (findGroup secName secGroups, None)
  end.

(** [configureSecurityGroup]: the error it returns. *)
Definition configureSecurityGroup : G S P (option error) :=
  r <~ groupLookup (GetClusterID svc) ;;
  match r with
  | inr e => gret (Wrap (Some e) "error getting cluster id")
  | inl clusterID =>
      r <~ groupLookup (BuildInfraName groups defaultSecurityGroupPostfix
                                       defaultAwsIdentifierLength) ;;
      match r with
      | inr e => gret (Wrap (Some e) "error building subnet group name")
      | inl secName =>
          '(vpcID, cidr, err) <~ withVpc (GetCidr cfg svc) ;;
          match err with
          | Some _ => gret (Wrap err "error finding cidr block")
          | None =>
              '(foundSecGroup, err) <~ getSecurityGroup secName ;;
              match err with
              | Some _ => gret (Wrap err "error get security group")
              | None =>
                  match foundSecGroup with
                  | None =>
                      let description := ("security group for cluster " ++ clusterID)%string in
                      err <~ groupRequest (CreateSecurityGroupReq description secName vpcID)
                               (CreateSecurityGroup groups description secName vpcID) ;;
                      match err with
                      | Some _ => gret (Wrap err "error creating security group")
                      | None => gret None
                      end
                  | Some found =>
                      let ipPermission := ipPermissionFor cidr in
                      if existsb (fun perm => DeepEqual perm ipPermission) (IpPermissions found)
                      then gret None
                      else
                        err <~ groupRequest
                                 (AuthorizeSecurityGroupIngressReq (GroupId found) [ipPermission])
                                 (AuthorizeSecurityGroupIngress groups (GroupId found)
                                                                [ipPermission]) ;;
                        match err with
                        | Some _ => gret (Wrap err "error authorizing security group ingress")
                        | None => gret None
                        end
                  end
              end
          end
      end
  end.

End SecurityGroups.

End Aws.

(** ** Package [common]: the status of the installation stages

    The test [TestIntegreatlyStagesStatus] polls the RHMI resource and checks
    the phase of every expected stage and product.  A Go map read by key is
    an association list read by [lookup] (the first entry of a key); the
    order in which [range] visits the map of expected stages is a parameter.
    An [error] is its message; what the test reports through [t] is the list
    of its events. *)

Module Common.

Definition StatusPhase := string.

(** The fields the test reads of [RHMIProductStatus], [RHMIStageStatus] and
    [RHMI]. *)
Record RHMIProductStatus : Type := mkProduct { Product_Phase : StatusPhase }.

Record RHMIStageStatus : Type := mkStage {
  Stage_Name : string;
  Stage_Phase : StatusPhase;
  Products : list (string * RHMIProductStatus)
}.

Record RHMI : Type := mkRHMI {
  Spec_Type : string;
  Status_Stages : list (string * RHMIStageStatus)
}.

Fixpoint lookup {V : Type} (key : string) (m : list (string * V)) : option V :=
  match m with
  | [] => None
  | (k, v) :: rest => if String.eqb k key then Some v else lookup key rest
  end.

Inductive TestEvent : Type :=
| Errorf (message : string)     (* [t.Errorf], [t.Error]: the test fails *)
| Logf (message : string).      (* [t.Logf] *)

Definition managedApiExpectedStageProducts : list (string * list string) :=
  [("installation"%string,
    ["rhsso"; "cloud-resources"; "observability"; "rhssouser"; "3scale"; "marin3r";
     "grafana"]%string)].

Definition mtManagedApiExpectedStageProducts : list (string * list string) :=
  [("bootstrap"%string, []);
   ("installation"%string,
    ["rhsso"; "cloud-resources"; "observability"; "3scale"; "marin3r"; "grafana"]%string)].

(** [checkStatus]: the empty string for a completed phase, the phase itself
    otherwise. *)
Definition checkStatus (status : StatusPhase) : string :=
  if String.eqb status "completed" then EmptyString else status.

Definition checkStageStatus (stage : RHMIStageStatus) : string :=
  checkStatus (Stage_Phase stage).

Definition checkProductStatus (product : RHMIProductStatus) : string :=
  checkStatus (Product_Phase product).

Definition retryStatus (status : string) : bool := String.eqb status "in progress".

(** The inner loop of the poll function over the products of a stage:
    [done] as the loop leaves it, and the events in their order. *)
Fixpoint checkProducts (stage : RHMIStageStatus) (stageName : string)
    (productNames : list string) (done : bool) : bool * list TestEvent :=
  match productNames with
  | [] => (done, [])
  | productName :: rest =>
      match lookup productName (Products stage) with
      | None =>
          let '(d, evs) := checkProducts stage stageName rest true in
          (d, Errorf ("Product " ++ productName ++ " not found in stage " ++ stageName) :: evs)
      | Some product =>
          let status := checkProductStatus product in
          if String.eqb status "" then checkProducts stage stageName rest done
          else if retryStatus status then
            let '(d, evs) := checkProducts stage stageName rest false in
            (d, Logf ("Status for product " ++ productName ++ " in stage " ++ stageName
                      ++ " in progress. Retrying...") :: evs)
          else
            let '(d, evs) := checkProducts stage stageName rest true in
            (d, Errorf ("Error: Product " ++ productName
                        ++ " status failed. It's current status is " ++ status) :: evs)
      end
  end.

(** The outer loop over the expected stages, in the order [range] visits
    them. *)
Fixpoint checkStages (stages : list (string * RHMIStageStatus))
    (expected : list (string * list string)) (done : bool) : bool * list TestEvent :=
  match expected with
  | [] => (done, [])
  | (stageName, productNames) :: rest =>
      match lookup stageName stages with
      | None =>
          let '(d, evs) := checkStages stages rest true in
          (d, Errorf ("Error checking stage " ++ stageName ++ ". Not found") :: evs)
      | Some stage =>
          let status := checkStageStatus stage in
          let '(d1, evs1) :=
            if String.eqb status "" then (done, [])
            else if retryStatus status then
              (false, [Logf ("Status for stage " ++ stageName ++ " in progress. Retrying...")])
            else
              (true, [Errorf ("Error: Stage " ++ Stage_Name stage
                              ++ " failed. It's current status is " ++ status)]) in
          let '(d2, evs2) := checkProducts stage stageName productNames d1 in
          let '(d, evs) := checkStages stages rest d2 in
          (d, evs1 ++ evs2 ++ evs)
      end
  end.

Section Polling.

Context {S : Type}.
(** [GetRHMI(ctx.Client, true)] on the state of the cluster. *)
Variable GetRHMI : S -> (RHMI + string) * S.
(** [integreatlyv1alpha1.IsRHOAMMultitenant]. *)
Variable IsRHOAMMultitenant : string -> bool.
(** The order in which [range] visits a map, which Go leaves open. *)
Variable rangeOrder : S -> list (string * list string) -> list (string * list string).

(** [getExpectedStageProducts]. *)
Definition getExpectedStageProducts (installType : string) : list (string * list string) :=
  if IsRHOAMMultitenant installType then mtManagedApiExpectedStageProducts
  else managedApiExpectedStageProducts.

(** The function polled: whether polling is done, the error, the events,
    and the state after it. *)
Definition pollRound (s : S) : bool * option string * list TestEvent * S :=
  let '(r, s') := GetRHMI s in
  match r with
  | inr err => (false, Some ("error getting RHMI CR: " ++ err)%string, [], s')
  | inl rhmi =>
      let expectedStageProducts := getExpectedStageProducts (Spec_Type rhmi) in
      let '(done, evs) :=
        checkStages (Status_Stages rhmi) (rangeOrder s' expectedStageProducts) true in
      (done, None, evs, s')
  end.

(** [TestIntegreatlyStagesStatus]: [wait.PollImmediateInfinite] polls until
    the function is done or fails, and a failure is reported with [t.Error].
    The events of all rounds, in order. *)
Fixpoint TestIntegreatlyStagesStatus (fuel : nat) (s : S) : Outcome (list TestEvent) :=
  match fuel with
  | O => OutOfFuel
  | Datatypes.S fuel' =>
      let '(done, err, evs, s') := pollRound s in
      match err with
      | Some e => Done (evs ++ [Errorf e])
      | None =>
          if done then Done evs
          else match TestIntegreatlyStagesStatus fuel' s' with
               | Done more => Done (evs ++ more)
               | Panic => Panic
               | OutOfFuel => OutOfFuel
               end
      end
  end.

End Polling.

End Common.

(** ** Vocabulary of the properties *)

Module Vocabulary.
Import Net Errors Aws.

(** The packed 32-bit value of the four bytes of an IPv4 address, and the
    four bytes of a value. *)
Definition ipValue (b : list Z) : Z :=
  match b with
  | [b0; b1; b2; b3] => b0 * 2 ^ 24 + b1 * 2 ^ 16 + b2 * 2 ^ 8 + b3
  | _ => 0
  end.

Definition ipOfValue (v : Z) : list Z :=
  [v / 2 ^ 24 mod 256; v / 2 ^ 16 mod 256; v / 2 ^ 8 mod 256; v mod 256].

Definition isByte (b : Z) : Prop := 0 <= b < 256.

(** The four bytes of an IPv4 address in 4-byte form. *)
Definition isIPv4Bytes (b : list Z) : Prop :=
  exists b0 b1 b2 b3, b = [b0; b1; b2; b3] /\ isByte b0 /\ isByte b1 /\ isByte b2 /\ isByte b3.

Definition isCreateSubnet (r : Request) : bool :=
  match r with CreateSubnetReq _ => true | _ => false end.

Definition isDeleteSubnet (r : Request) : bool :=
  match r with DeleteSubnetReq _ => true | _ => false end.

(** A creation request that targets the zone [zone]. *)
Definition targetsZone (zone : string) (r : Request) : bool :=
  match r with
  | CreateSubnetReq input => String.eqb (Input_AvailabilityZone input) zone
  | _ => false
  end.

(** The subnet carries the private-subnet marker tag. *)
Definition hasPrivateTag (sub : Subnet) : bool :=
  existsb (fun t => String.eqb (Key t) defaultAWSPrivateSubnetTagKey) (Tags sub).

(** The world [w'] comes after [w]: its trace is the trace of [w] followed by
    requests that all satisfy [P]. *)
Definition extends {S : Type} (w w' : World S) (P : Request -> Prop) : Prop :=
  exists added, trace w' = trace w ++ added /\ Forall P added.

Definition isDescribe (r : Request) : Prop :=
  match r with
  | DescribeSubnetsReq | DescribeAvailabilityZonesReq | DescribeVpcsReq _ => True
  | _ => False
  end.

Definition isCreateOrTag (r : Request) : Prop :=
  match r with
  | CreateSubnetReq _ | CreateTagsReq _ _ => True
  | _ => False
  end.

(** The 256 bytes. *)
Definition allBytes : list Z := map Z.of_nat (seq 0 256).

(** The k-th /27 block counted from the address of value [base], and the
    first [n] of them in ascending order. *)
Definition block27 (base : Z) (k : nat) : IPNet :=
  mkIPNet (ipOfValue (base + 32 * Z.of_nat k)) (CIDRMask 27 32).

Definition blocksFrom (base : Z) (n : nat) : list IPNet := map (block27 base) (seq 0 n).

(** Text made of decimal digits; text without a slash. *)
Fixpoint allDigits (s : string) : bool :=
  match s with
  | EmptyString => true
  | String c s' => isDigit c && allDigits s'
  end.

Fixpoint noSlash (s : string) : bool :=
  match s with
  | EmptyString => true
  | String c s' => negb (Ascii.eqb c "/") && noSlash s'
  end.

(** The value of a string of digits read after [n], or -1 once a prefix
    reaches [big]. *)
Fixpoint decFrom (n : Z) (s : string) : Z :=
  match s with
  | EmptyString => n
  | String c s' =>
      let n' := n * 10 + digitVal c in
      if big <=? n' then -1 else decFrom n' s'
  end.

Definition startsWithZero (s : string) : bool :=
  match s with String d _ => Ascii.eqb d "0" | _ => false end.

(** The text does not go on with a digit. *)
Definition noDigitAhead (s : string) : Prop :=
  match s with String c _ => isDigit c = false | EmptyString => True end.

(** The decimal text of a byte: one to three digits, no slash, no leading
    zero on more than one digit, and it reads back as the byte. *)
Definition goodByteText (b : Z) : bool :=
  allDigits (uitoa b) && noSlash (uitoa b) && (decFrom 0 (uitoa b) =? b)
  && Nat.ltb 0 (String.length (uitoa b))
  && negb (Nat.ltb 1 (String.length (uitoa b)) && startsWithZero (uitoa b)).

(** The base addresses go strictly down along the list. *)
Definition descending (nets : list IPNet) : Prop :=
  StronglySorted (fun a b => ipValue (net_IP b) < ipValue (net_IP a)) nets.

(** The run gives no result, whatever fuel it is given. *)
Definition diverges {A : Type} (run : nat -> Outcome A) : Prop :=
  forall fuel, run fuel = OutOfFuel.

(** The four tags [getDefaultSubnetTags] starts from. *)
Definition defaultSubnetTags (cfg : Config) (clusterID : string) : list Tag :=
  [ mkTag defaultAWSPrivateSubnetTagKey "1";
    mkTag (organizationTag cfg ++ "clusterID") clusterID;
    mkTag (TagDisplayName cfg) (defaultSubnetNameTagValue cfg);
    BuildManagedTag cfg ].

(** The subnet carries the tag that marks it as owned by or shared with the
    cluster. *)
Definition hasClusterTag (cfg : Config) (clusterID : string) (sub : Subnet) : Prop :=
  exists tag, In tag (Tags sub) /\
    Key tag = (clusterOwnedTagKeyPrefix cfg ++ clusterID)%string /\
    (Value tag = "owned"%string \/ Value tag = "shared"%string).

(** The inputs of the creation requests of a trace, in order. *)
Definition creationRequests (t : list Request) : list CreateSubnetInput :=
  flat_map (fun r => match r with CreateSubnetReq input => [input] | _ => [] end) t.

(** The candidate blocks the planner returns for the VPC; none when it fails
    or does not return. *)
Definition plannedBlocks (fuel : nat) (vpc : Vpc) : list IPNet :=
  match buildSubnetAddress fuel vpc with
  | Done (nets, _) => nets
  | _ => []
  end.

(** The creation request for the candidate [n]. *)
Definition inputFor (vpc : Vpc) (zone : string) (n : IPNet) : CreateSubnetInput :=
  mkCreateSubnetInput zone (IPNetString n) (VpcId vpc).

(** A request that changes nothing: a look-up for the VPC, or the listing of
    the security groups. *)
Definition isGroupRead {P : Type} (r : GroupRequest P) : Prop :=
  match r with
  | VpcReq q => isDescribe q
  | DescribeSecurityGroupsReq => True
  | _ => False
  end.

(** Text without a colon: the text the IPv4 branch of [net.ParseCIDR]
    decides alone, its IPv6 branch rejecting every text that has no colon. *)
Fixpoint noColon (s : string) : bool :=
  match s with
  | EmptyString => true
  | String c s' => negb (Ascii.eqb c ":") && noColon s'
  end.


End Vocabulary.

(** ** Example collaborators

    Stateless providers and a configuration, for running the code on concrete
    inputs. *)

Module Examples.
Import Net Errors Aws Vocabulary.

Definition exampleConfig : Config :=
  mkConfig "integreatly.org/" "Name" "Cloud Resource Subnet"
           (mkTag "red-hat-managed" "true")
           (fun tags infra => tags ++ infra)
           "kubernetes.io/cluster/" 2%nat.

(** A provider that lists [subs], [azs] and [vpcs], answers every creation
    request with [create] and every tagging request with [tagErr]. *)
Definition stubProvider (subs : list Subnet) (azs : list AvailabilityZone)
    (vpcs : list Vpc) (create : CreateSubnetInput -> Subnet + error)
    (tagErr : option error) : Provider unit :=
  mkProvider unit
    (fun s => (inl subs, s))
    (fun s => (inl azs, s))
    (fun _ s => (inl vpcs, s))
    (fun input s => (create input, s))
    (fun _ _ s => (tagErr, s))
    (fun s => (inl "cluster-1"%string, s))
    (fun s => (inl [], s)).

Definition conflict : error :=
  AwsError "InvalidSubnet.Conflict" "conflicts with another subnet".

Definition alwaysConflict (_ : CreateSubnetInput) : Subnet + error := inr conflict.

(** The subnet the provider makes of a creation request. *)
Definition created (input : CreateSubnetInput) : Subnet :=
  mkSubnet ("subnet-" ++ Input_CidrBlock input) (Input_VpcId input)
           (Input_AvailabilityZone input) [].

Definition alwaysCreate (input : CreateSubnetInput) : Subnet + error :=
  inl (created input).

Definition vpc26 : Vpc := mkVpc "vpc-1" "10.0.0.0/26".

Definition clusterSubnet : Subnet :=
  mkSubnet "subnet-a" "vpc-1" "eu-west-1a"
           [mkTag "kubernetes.io/cluster/cluster-1" "owned"].

Definition privateSubnetA : Subnet :=
  mkSubnet "subnet-priv-a" "vpc-1" "eu-west-1a"
           [mkTag "kubernetes.io/cluster/cluster-1" "owned";
            mkTag defaultAWSPrivateSubnetTagKey "1"].

Definition zoneA : AvailabilityZone := mkAZ "eu-west-1a" "available".
Definition zoneB : AvailabilityZone := mkAZ "eu-west-1b" "impaired".

Definition start : World unit := mkWorld tt [].

(** VPCs with a /24 block, with the block of all addresses, and with the
    block 10.0.0.0/16. *)
Definition vpc24 : Vpc := mkVpc "vpc-1" "10.0.0.0/24".
Definition vpcAll : Vpc := mkVpc "vpc-0" "0.0.0.0/0".
Definition vpc16 (id : string) : Vpc := mkVpc id "10.0.0.0/16".

(** The two /27 blocks of 10.0.0.0/26. *)
Definition net32 : IPNet := mkIPNet [10; 0; 0; 32] [255; 255; 255; 224].
Definition net0 : IPNet := mkIPNet [10; 0; 0; 0] [255; 255; 255; 224].

(** A provider of security groups that lists [listed], accepts every change
    and names the group [name]; permissions are CIDR texts. *)
Definition stubGroups (listed : list (SecurityGroup string)) (name : string)
    : GroupProvider unit string :=
  mkGroupProvider unit string
    (fun s => (inl listed, s))
    (fun _ _ _ s => (None, s))
    (fun _ _ s => (None, s))
    (fun _ _ s => (inl name, s)).

Definition groupStart : GroupWorld unit string := mkGroupWorld tt [].

(** The cluster of the examples: one VPC, one cluster subnet, and the group
    named by the infrastructure name. *)
Definition groupCluster : Provider unit :=
  stubProvider [clusterSubnet] [zoneA] [vpc26] alwaysCreate None.

End Examples.

(** ** Vocabulary and examples of the status check *)

Module StatusVocabulary.
Import Common.

(** The phases the poll function examines, in its order: for each expected
    stage the phase of the stage and then of each of its expected products;
    nothing stands for a stage or product the RHMI does not have, and the
    products of a missing stage are not examined. *)
Definition examinedProducts (stage : RHMIStageStatus) (productNames : list string)
    : list (option StatusPhase) :=
  map (fun productName => option_map Product_Phase (lookup productName (Products stage)))
      productNames.

Fixpoint examined (stages : list (string * RHMIStageStatus))
    (expected : list (string * list string)) : list (option StatusPhase) :=
  match expected with
  | [] => []
  | (stageName, productNames) :: rest =>
      match lookup stageName stages with
      | None => None :: examined stages rest
      | Some stage =>
          Some (Stage_Phase stage) :: examinedProducts stage productNames
          ++ examined stages rest
      end
  end.

(** A phase that passes (completed, or empty), one that asks for another
    round, and one that fails the test (any other, or a missing entry). *)
Definition isCompleted (o : option StatusPhase) : bool :=
  match o with
  | Some phase => String.eqb phase "completed" || String.eqb phase ""
  | None => false
  end.

Definition isInProgress (o : option StatusPhase) : bool :=
  match o with
  | Some phase => String.eqb phase "in progress"
  | None => false
  end.

Definition isFailed (o : option StatusPhase) : bool :=
  negb (isCompleted o) && negb (isInProgress o).

Definition isErrorf (e : TestEvent) : bool :=
  match e with Errorf _ => true | Logf _ => false end.

(** What an examined phase writes to [done] and reports: nothing, [false]
    with a log line, or [true] with an error. *)
Definition verdicts (o : option StatusPhase) : list bool :=
  if isCompleted o then [] else if isInProgress o then [false] else [true].

End StatusVocabulary.

Module StatusExamples.
Import Common.

Definition completedProduct : RHMIProductStatus := mkProduct "completed"%string.

(** An installation of the managed API with every product completed, and
    one whose [grafana] is still in progress. *)
Definition installationStage (grafanaPhase : StatusPhase) : RHMIStageStatus :=
  mkStage "installation" grafanaPhase
    [("rhsso"%string, completedProduct); ("cloud-resources"%string, completedProduct);
     ("observability"%string, completedProduct); ("rhssouser"%string, completedProduct);
     ("3scale"%string, completedProduct); ("marin3r"%string, completedProduct);
     ("grafana"%string, mkProduct grafanaPhase)].

Definition rhmiWith (grafanaPhase : StatusPhase) : RHMI :=
  mkRHMI "managed-api" [("installation"%string, installationStage grafanaPhase)].

Definition readRHMI (rhmi : RHMI) (s : unit) : (RHMI + string) * unit := (inl rhmi, s).

Definition isMultitenant (installType : string) : bool :=
  String.eqb installType "multitenant-managed-api".

Definition tableOrder (_ : unit) (m : list (string * list string)) := m.

End StatusExamples.

(** * Properties *)

(** ** The address planner *)

Module PlannerFacts.
Import Net Errors Aws Vocabulary Examples.

(** *** Bytes and packed values *)

(** A boolean property checked on the 256 bytes holds of every byte. *)
Lemma byte_forall (f : Z -> bool) :
  forallb f allBytes = true -> forall b, isByte b -> f b = true.
Proof.
  intros H b [Hlo Hhi]. rewrite forallb_forall in H. apply H.
  unfold allBytes. apply in_map_iff. exists (Z.to_nat b). split; [lia|].
  apply in_seq. lia.
Qed.

Lemma land_255 b : isByte b -> Z.land b 255 = b.
Proof.
  intros H. change 255 with (Z.ones 8). rewrite Z.land_ones by lia.
  apply Z.mod_small. exact H.
Qed.

Lemma ipValue_range b0 b1 b2 b3 :
  isByte b0 -> isByte b1 -> isByte b2 -> isByte b3 ->
  0 <= ipValue [b0; b1; b2; b3] < 2 ^ 32.
Proof. unfold isByte, ipValue. intros. lia. Qed.

Lemma ipOfValue_ipValue b0 b1 b2 b3 :
  isByte b0 -> isByte b1 -> isByte b2 -> isByte b3 ->
  ipOfValue (ipValue [b0; b1; b2; b3]) = [b0; b1; b2; b3].
Proof.
  unfold isByte, ipValue, ipOfValue. intros.
  repeat f_equal; Z.to_euclidean_division_equations; lia.
Qed.

Lemma ipValue_ipOfValue v : 0 <= v < 2 ^ 32 -> ipValue (ipOfValue v) = v.
Proof.
  unfold ipValue, ipOfValue. intros. Z.to_euclidean_division_equations; lia.
Qed.

Lemma ipOfValue_bytes v : isIPv4Bytes (ipOfValue v).
Proof.
  unfold ipOfValue. do 4 eexists. split; [reflexivity|].
  unfold isByte. repeat split; apply Z.mod_pos_bound; lia.
Qed.

Lemma ipOfValue_inj v v' :
  0 <= v < 2 ^ 32 -> 0 <= v' < 2 ^ 32 -> ipOfValue v = ipOfValue v' -> v = v'.
Proof.
  intros H H' E. rewrite <- (ipValue_ipOfValue v H), <- (ipValue_ipOfValue v' H'), E.
  reflexivity.
Qed.

Lemma To4_4 b0 b1 b2 b3 : To4 [b0; b1; b2; b3] = [b0; b1; b2; b3].
Proof. reflexivity. Qed.

Lemma To4_IPv4 b0 b1 b2 b3 : To4 (IPv4 b0 b1 b2 b3) = [b0; b1; b2; b3].
Proof. reflexivity. Qed.

(** *** incrementIP on packed values *)

(** The four shifted bytes add up to the packed value, no [uint] wrapping. *)
Lemma joined_value b0 b1 b2 b3 :
  isByte b0 -> isByte b1 -> isByte b2 -> isByte b3 ->
  uintWrap (uintWrap (uintWrap (uintWrap (Z.shiftl b0 24) + uintWrap (Z.shiftl b1 16))
                      + uintWrap (Z.shiftl b2 8)) + b3) = ipValue [b0; b1; b2; b3].
Proof.
  unfold isByte, uintWrap, ipValue. intros.
  rewrite !Z.shiftl_mul_pow2 by lia.
  rewrite (Z.mod_small (b0 * 2 ^ 24)) by lia.
  rewrite (Z.mod_small (b1 * 2 ^ 16)) by lia.
  rewrite (Z.mod_small (b2 * 2 ^ 8)) by lia.
  rewrite (Z.mod_small (b0 * 2 ^ 24 + b1 * 2 ^ 16)) by lia.
  rewrite (Z.mod_small (b0 * 2 ^ 24 + b1 * 2 ^ 16 + b2 * 2 ^ 8)) by lia.
  apply Z.mod_small. lia.
Qed.

(** A byte of a value is a byte of its low 32 bits. *)
Lemma byte_of_low32 x c m :
  0 < c -> 2 ^ 32 = c * (256 * m) ->
  (x mod 2 ^ 32) / c mod 256 = x / c mod 256.
Proof.
  intros Hc E. set (r := x mod 2 ^ 32).
  rewrite (Z.div_mod x (2 ^ 32)) at 1 by lia. fold r. rewrite E.
  replace (c * (256 * m) * (x / (c * (256 * m))) + r)
    with (r + (m * (x / (c * (256 * m))) * 256) * c) by ring.
  rewrite Z.div_add by lia. rewrite Z.mod_add by lia. reflexivity.
Qed.

Lemma wrapped_bytes v inc :
  let j := uintWrap (v + uintOfInt inc) in
  [Z.land (Z.shiftr j 24) 255; Z.land (Z.shiftr j 16) 255; Z.land (Z.shiftr j 8) 255; Z.land j 255]
  = ipOfValue ((v + inc) mod 2 ^ 32).
Proof.
  cbv zeta. unfold uintWrap, uintOfInt, ipOfValue.
  rewrite Zplus_mod_idemp_r.
  change 255 with (Z.ones 8). rewrite !Z.land_ones, !Z.shiftr_div_pow2 by lia.
  assert (E : (v + inc) mod 2 ^ 32 = ((v + inc) mod 2 ^ 64) mod 2 ^ 32).
  { change (2 ^ 64) with (2 ^ 32 * 2 ^ 32).
    rewrite Z.rem_mul_r by lia. rewrite Z.add_comm, Z.mul_comm, Z.mod_add by lia.
    rewrite Z.mod_mod by lia. reflexivity. }
  rewrite E. set (x := (v + inc) mod 2 ^ 64).
  change (2 ^ 8) with 256.
  rewrite (byte_of_low32 x (2 ^ 24) 1), (byte_of_low32 x (2 ^ 16) (2 ^ 8)),
          (byte_of_low32 x 256 (2 ^ 16)) by (try reflexivity; lia).
  f_equal. f_equal. f_equal. f_equal.
  rewrite <- (Z.div_1_r (x mod 2 ^ 32)), <- (Z.div_1_r x) at 1.
  symmetry. apply (byte_of_low32 x 1 (2 ^ 24)); [lia | reflexivity].
Qed.

Lemma incrementIP_value ip inc b0 b1 b2 b3 :
  To4 ip = [b0; b1; b2; b3] ->
  isByte b0 -> isByte b1 -> isByte b2 -> isByte b3 ->
  incrementIP ip inc =
  Some (v4InV6Prefix ++ ipOfValue ((ipValue [b0; b1; b2; b3] + inc) mod 2 ^ 32)).
Proof.
  intros H H0 H1 H2 H3. unfold incrementIP. rewrite H.
  rewrite (joined_value _ _ _ _ H0 H1 H2 H3).
  unfold IPv4. f_equal. f_equal. apply wrapped_bytes.
Qed.


(** *** Masks and containment on packed values *)

(** Masking a byte with the top [8 - k] bits set clears its low [k] bits. *)
Lemma land_mask_byte a k :
  isByte a -> 0 <= k <= 8 -> Z.land a (256 - 2 ^ k) = 2 ^ k * (a / 2 ^ k).
Proof.
  intros Ha Hk.
  assert (X : forallb (fun k => Z.land a (256 - 2 ^ k) =? 2 ^ k * (a / 2 ^ k))
                      [0; 1; 2; 3; 4; 5; 6; 7; 8] = true).
  { revert a Ha. apply byte_forall. vm_compute. reflexivity. }
  rewrite forallb_forall in X. apply Z.eqb_eq. apply X.
  assert (k = 0 \/ k = 1 \/ k = 2 \/ k = 3 \/ k = 4 \/ k = 5 \/ k = 6 \/ k = 7 \/ k = 8) by lia.
  simpl. intuition.
Qed.

(** Case analysis on the 33 prefix lengths. *)
Lemma prefix_cases (P : Z -> Prop) :
  P 0 -> P 1 -> P 2 -> P 3 -> P 4 -> P 5 -> P 6 -> P 7 -> P 8 -> P 9 -> P 10 ->
  P 11 -> P 12 -> P 13 -> P 14 -> P 15 -> P 16 -> P 17 -> P 18 -> P 19 -> P 20 ->
  P 21 -> P 22 -> P 23 -> P 24 -> P 25 -> P 26 -> P 27 -> P 28 -> P 29 -> P 30 ->
  P 31 -> P 32 -> forall p, 0 <= p <= 32 -> P p.
Proof.
  intros. 
  assert (H' : exists n, p = Z.of_nat n /\ (n <= 32)%nat) by (exists (Z.to_nat p); lia).
  destruct H' as [n [-> Hn]].
  do 33 (destruct n as [|n]; [assumption|]). lia.
Qed.

(** Byte-wise masking with a /p mask keeps the network part of the packed
    value. *)
Lemma andBytes_CIDRMask p b0 b1 b2 b3 :
  0 <= p <= 32 -> isByte b0 -> isByte b1 -> isByte b2 -> isByte b3 ->
  andBytes [b0; b1; b2; b3] (CIDRMask p 32)
  = ipOfValue (2 ^ (32 - p) * (ipValue [b0; b1; b2; b3] / 2 ^ (32 - p))).
Proof.
  intros Hp H0 H1 H2 H3. revert p Hp.
  apply prefix_cases;
  (match goal with |- andBytes _ (CIDRMask ?p _) = _ =>
     let m := eval vm_compute in (CIDRMask p 32) in change (CIDRMask p 32) with m;
     let d := eval vm_compute in (2 ^ (32 - p)) in change (2 ^ (32 - p)) with d
   end;
   cbn [andBytes];
   repeat match goal with
   | |- context [Z.land ?a 255] => rewrite (land_255 a) by assumption
   | |- context [Z.land ?a 0] => rewrite (Z.land_0_r a)
   | |- context [Z.land ?a 128] =>
       change (Z.land a 128) with (Z.land a (256 - 2 ^ 7));
       rewrite (land_mask_byte a 7) by (assumption || lia); change (2 ^ 7) with 128
   | |- context [Z.land ?a 192] =>
       change (Z.land a 192) with (Z.land a (256 - 2 ^ 6));
       rewrite (land_mask_byte a 6) by (assumption || lia); change (2 ^ 6) with 64
   | |- context [Z.land ?a 224] =>
       change (Z.land a 224) with (Z.land a (256 - 2 ^ 5));
       rewrite (land_mask_byte a 5) by (assumption || lia); change (2 ^ 5) with 32
   | |- context [Z.land ?a 240] =>
       change (Z.land a 240) with (Z.land a (256 - 2 ^ 4));
       rewrite (land_mask_byte a 4) by (assumption || lia); change (2 ^ 4) with 16
   | |- context [Z.land ?a 248] =>
       change (Z.land a 248) with (Z.land a (256 - 2 ^ 3));
       rewrite (land_mask_byte a 3) by (assumption || lia); change (2 ^ 3) with 8
   | |- context [Z.land ?a 252] =>
       change (Z.land a 252) with (Z.land a (256 - 2 ^ 2));
       rewrite (land_mask_byte a 2) by (assumption || lia); change (2 ^ 2) with 4
   | |- context [Z.land ?a 254] =>
       change (Z.land a 254) with (Z.land a (256 - 2 ^ 1));
       rewrite (land_mask_byte a 1) by (assumption || lia); change (2 ^ 1) with 2
   end;
   match goal with |- ?l = ipOfValue ?v =>
     transitivity (ipOfValue (ipValue l));
     [ symmetry; apply ipOfValue_ipValue; unfold isByte in *;
       Z.to_euclidean_division_equations; lia
     | f_equal; unfold ipValue, isByte in *; Z.to_euclidean_division_equations; lia ]
   end).
Qed.

Lemma bytesEqual_eq x y : bytesEqual x y = true <-> x = y.
Proof.
  revert y. induction x as [|a x IH]; destruct y as [|b y]; simpl;
    try (split; [discriminate | congruence]).
  - tauto.
  - rewrite andb_true_iff, Z.eqb_eq, IH. split; [intros [-> ->]; reflexivity|].
    intros E. injection E as -> ->. tauto.
Qed.

Lemma sameUnderMask_andBytes nn m ip :
  List.length nn = List.length m -> List.length ip = List.length m ->
  sameUnderMask nn m ip = bytesEqual (andBytes nn m) (andBytes ip m).
Proof.
  revert m ip. induction nn as [|a nn IH]; intros [|k m] [|b ip]; simpl;
    try discriminate; try reflexivity.
  intros Hn Hi. destruct (Z.land a k =? Z.land b k); simpl; [|reflexivity].
  apply IH; congruence.
Qed.

Lemma CIDRMask_length p : 0 <= p <= 32 -> List.length (CIDRMask p 32) = 4%nat.
Proof. revert p. apply prefix_cases; reflexivity. Qed.

Lemma Size_CIDRMask p : 0 <= p <= 32 -> Size (CIDRMask p 32) = (p, 32).
Proof. revert p. apply prefix_cases; reflexivity. Qed.

Lemma Mask_4bytes p b0 b1 b2 b3 :
  0 <= p <= 32 ->
  Mask [b0; b1; b2; b3] (CIDRMask p 32) = andBytes [b0; b1; b2; b3] (CIDRMask p 32).
Proof. revert p. apply prefix_cases; reflexivity. Qed.

Lemma Mask_IPv4 p b0 b1 b2 b3 :
  0 <= p <= 32 ->
  Mask (IPv4 b0 b1 b2 b3) (CIDRMask p 32) = andBytes [b0; b1; b2; b3] (CIDRMask p 32).
Proof. revert p. apply prefix_cases; reflexivity. Qed.

Lemma Contains_sameUnderMask p n0 n1 n2 n3 x0 x1 x2 x3 :
  0 <= p <= 32 ->
  Contains (mkIPNet [n0; n1; n2; n3] (CIDRMask p 32)) (IPv4 x0 x1 x2 x3)
  = sameUnderMask [n0; n1; n2; n3] (CIDRMask p 32) [x0; x1; x2; x3].
Proof. revert p. apply prefix_cases; reflexivity. Qed.

Lemma Contains_4bytes_sameUnderMask p n0 n1 n2 n3 x0 x1 x2 x3 :
  0 <= p <= 32 ->
  Contains (mkIPNet [n0; n1; n2; n3] (CIDRMask p 32)) [x0; x1; x2; x3]
  = sameUnderMask [n0; n1; n2; n3] (CIDRMask p 32) [x0; x1; x2; x3].
Proof. revert p. apply prefix_cases; reflexivity. Qed.


(** The network of an address under a /p mask, on packed values. *)
Lemma masked_value_range D v : 0 < D -> 0 <= v < 2 ^ 32 -> 0 <= D * (v / D) < 2 ^ 32.
Proof.
  intros HD Hv. pose proof (Z.mul_div_le v D HD).
  assert (0 <= v / D) by (apply Z.div_pos; lia). nia.
Qed.

Lemma sameUnderMask_value p nb xb :
  0 <= p <= 32 -> isIPv4Bytes nb -> isIPv4Bytes xb ->
  sameUnderMask nb (CIDRMask p 32) xb = true <->
  ipValue xb / 2 ^ (32 - p) = ipValue nb / 2 ^ (32 - p).
Proof.
  intros Hp (n0 & n1 & n2 & n3 & -> & Hn0 & Hn1 & Hn2 & Hn3)
            (x0 & x1 & x2 & x3 & -> & Hx0 & Hx1 & Hx2 & Hx3).
  rewrite sameUnderMask_andBytes by (rewrite CIDRMask_length by assumption; reflexivity).
  rewrite bytesEqual_eq, !andBytes_CIDRMask by assumption.
  assert (HD : 0 < 2 ^ (32 - p)) by (apply Z.pow_pos_nonneg; lia).
  pose proof (ipValue_range _ _ _ _ Hn0 Hn1 Hn2 Hn3) as Rn.
  pose proof (ipValue_range _ _ _ _ Hx0 Hx1 Hx2 Hx3) as Rx.
  split.
  - intros E. apply ipOfValue_inj in E; try (apply masked_value_range; assumption).
    apply Z.mul_reg_l in E; lia.
  - intros E. rewrite E. reflexivity.
Qed.

Lemma Contains_value p nb xb :
  0 <= p <= 32 -> isIPv4Bytes nb -> isIPv4Bytes xb ->
  Contains (mkIPNet nb (CIDRMask p 32)) (v4InV6Prefix ++ xb) = true <->
  ipValue xb / 2 ^ (32 - p) = ipValue nb / 2 ^ (32 - p).
Proof.
  intros Hp Hn Hx. rewrite <- (sameUnderMask_value p nb xb Hp Hn Hx).
  destruct Hn as (n0 & n1 & n2 & n3 & -> & _). destruct Hx as (x0 & x1 & x2 & x3 & -> & _).
  change (v4InV6Prefix ++ [x0; x1; x2; x3]) with (IPv4 x0 x1 x2 x3).
  rewrite Contains_sameUnderMask by assumption. reflexivity.
Qed.

Lemma Contains_4bytes_value p nb xb :
  0 <= p <= 32 -> isIPv4Bytes nb -> isIPv4Bytes xb ->
  Contains (mkIPNet nb (CIDRMask p 32)) xb = true <->
  ipValue xb / 2 ^ (32 - p) = ipValue nb / 2 ^ (32 - p).
Proof.
  intros Hp Hn Hx. rewrite <- (sameUnderMask_value p nb xb Hp Hn Hx).
  destruct Hn as (n0 & n1 & n2 & n3 & -> & _). destruct Hx as (x0 & x1 & x2 & x3 & -> & _).
  rewrite Contains_4bytes_sameUnderMask by assumption. reflexivity.
Qed.

Lemma Mask_value p xb :
  0 <= p <= 32 -> isIPv4Bytes xb ->
  Mask (v4InV6Prefix ++ xb) (CIDRMask p 32)
  = ipOfValue (2 ^ (32 - p) * (ipValue xb / 2 ^ (32 - p))).
Proof.
  intros Hp (x0 & x1 & x2 & x3 & -> & Hx0 & Hx1 & Hx2 & Hx3).
  change (v4InV6Prefix ++ [x0; x1; x2; x3]) with (IPv4 x0 x1 x2 x3).
  rewrite Mask_IPv4 by assumption. apply andBytes_CIDRMask; assumption.
Qed.

Lemma Equal_ipOfValue v v' :
  0 <= v < 2 ^ 32 -> 0 <= v' < 2 ^ 32 ->
  Equal (ipOfValue v) (ipOfValue v') = true <-> v = v'.
Proof.
  intros H H'. unfold Equal. cbn [List.length ipOfValue Nat.eqb].
  rewrite bytesEqual_eq. split; [apply ipOfValue_inj; assumption | congruence].
Qed.

(** *** The generation loop *)

Lemma blocksFrom_S base n : blocksFrom base (S n) = blocksFrom base n ++ [block27 base n].
Proof. unfold blocksFrom. rewrite seq_S, map_app. reflexivity. Qed.

Lemma containsNetwork_blocksFrom base n j :
  0 <= base -> base + 32 * Z.of_nat n <= 2 ^ 32 ->
  0 <= j -> base + 32 * j < 2 ^ 32 ->
  containsNetwork (blocksFrom base n) (ipOfValue (base + 32 * j)) = true <-> j < Z.of_nat n.
Proof.
  intros Hb Hn Hj Hr. induction n as [|n IH].
  - simpl. split; [discriminate | lia].
  - rewrite blocksFrom_S.
    assert (A : forall l x, containsNetwork (l ++ [block27 base n]) x
                = containsNetwork l x || Equal (ipOfValue (base + 32 * Z.of_nat n)) x).
    { induction l as [|a l IHl]; intros x; simpl.
      - destruct (Equal _ x); reflexivity.
      - destruct (Equal (net_IP a) x); [reflexivity | apply IHl]. }
    rewrite A, orb_true_iff, IH by lia.
    rewrite Equal_ipOfValue by lia. lia.
Qed.

(** The loop on a VPC block of prefix length [p] from 1 to 26 whose network
    address has the packed value [V0]: [D] is the number of addresses of the
    block. *)
Section GenerateLoop.

Variables (p V0 : Z).
Hypothesis Hp : 1 <= p <= 26.
Hypothesis HV0 : 0 <= V0 < 2 ^ 32.
Hypothesis Haligned : V0 mod 2 ^ (32 - p) = 0.

Let D := 2 ^ (32 - p).
Let aws := mkIPNet (ipOfValue V0) (CIDRMask p 32).

Lemma D_facts : D = 32 * 2 ^ (27 - p) /\ 2 <= 2 ^ (27 - p) /\ 2 * D <= 2 ^ 32 /\ V0 + D <= 2 ^ 32.
Proof.
  unfold D in *.
  assert (E : 2 ^ (32 - p) = 32 * 2 ^ (27 - p)).
  { replace (32 - p) with (5 + (27 - p)) by lia. rewrite Z.pow_add_r by lia. reflexivity. }
  assert (E2 : 2 ^ 32 = 2 ^ (32 - p) * 2 ^ p).
  { rewrite <- Z.pow_add_r by lia. f_equal. lia. }
  assert (2 <= 2 ^ (27 - p)).
  { change 2 with (2 ^ 1) at 1. apply Z.pow_le_mono_r; lia. }
  assert (2 <= 2 ^ p).
  { change 2 with (2 ^ 1) at 1. apply Z.pow_le_mono_r; lia. }
  assert (0 < 2 ^ (32 - p)) by (apply Z.pow_pos_nonneg; lia).
  split; [exact E|]. split; [assumption|]. split; [nia|].
  apply Z.mod_divide in Haligned; [|lia]. destruct Haligned as [q Hq].
  assert (q < 2 ^ p) by nia. nia.
Qed.

Lemma incrementIP_base i :
  incrementIP (ipOfValue V0) i = Some (v4InV6Prefix ++ ipOfValue ((V0 + i) mod 2 ^ 32)).
Proof.
  destruct (ipOfValue_bytes V0) as (b0 & b1 & b2 & b3 & E & H0 & H1 & H2 & H3).
  rewrite (incrementIP_value _ i b0 b1 b2 b3) by (rewrite ?E; auto).
  rewrite <- E, ipValue_ipOfValue by assumption. reflexivity.
Qed.

Lemma Contains_aws v :
  0 <= v < 2 ^ 32 ->
  Contains aws (v4InV6Prefix ++ ipOfValue v) = true <-> v / D = V0 / D.
Proof.
  intros Hv. unfold aws. rewrite Contains_value by (try apply ipOfValue_bytes; lia).
  rewrite !ipValue_ipOfValue by assumption. reflexivity.
Qed.

Lemma Mask27_value v :
  0 <= v < 2 ^ 32 ->
  Mask (v4InV6Prefix ++ ipOfValue v) (CIDRMask 27 32) = ipOfValue (32 * (v / 32)).
Proof.
  intros Hv. rewrite Mask_value by (try apply ipOfValue_bytes; lia).
  rewrite ipValue_ipOfValue by assumption. reflexivity.
Qed.

(** One round at a counter inside the block: the address is contained, and
    its /27 network is appended unless it is already there. *)
Lemma generateLoop_inside fuel i networks :
  0 <= i < D ->
  generateLoop (S fuel) aws (ipOfValue V0) (CIDRMask 27 32) i networks =
  if containsNetwork networks (ipOfValue (V0 + 32 * (i / 32)))
  then generateLoop fuel aws (ipOfValue V0) (CIDRMask 27 32) (i + 1) networks
  else generateLoop fuel aws (ipOfValue V0) (CIDRMask 27 32) (i + 1)
         (networks ++ [mkIPNet (ipOfValue (V0 + 32 * (i / 32))) (CIDRMask 27 32)]).
Proof.
  intros Hi. destruct D_facts as (DE & HE & H2D & HVD).
  cbn [generateLoop]. rewrite incrementIP_base.
  rewrite (Z.mod_small (V0 + i)) by lia.
  assert (C : Contains aws (v4InV6Prefix ++ ipOfValue (V0 + i)) = true).
  { apply Contains_aws; [lia|].
    apply Z.mod_divide in Haligned; [|unfold D in *; lia]. destruct Haligned as [q Hq].
    fold D in Hq. rewrite Hq.
    rewrite Z.div_mul by lia. rewrite Z.add_comm, Z.div_add by lia.
    rewrite Z.div_small by lia. reflexivity. }
  rewrite C, Mask27_value by lia.
  assert (M : 32 * ((V0 + i) / 32) = V0 + 32 * (i / 32)).
  { apply Z.mod_divide in Haligned; [|unfold D in *; lia]. destruct Haligned as [q Hq].
    fold D in Hq. rewrite Hq, DE.
    replace (q * (32 * 2 ^ (27 - p)) + i) with (i + (q * 2 ^ (27 - p)) * 32) by ring.
    rewrite Z.div_add by lia. ring. }
  rewrite M.
  assert (I : intIncr i = i + 1).
  { unfold intIncr, maxInt. destruct (i =? 2 ^ 63 - 1) eqn:Q; [|reflexivity].
    apply Z.eqb_eq in Q. lia. }
  rewrite I. reflexivity.
Qed.

(** At counter [D] the address is outside the block (or wrapped to 0, which
    is outside as well) and the loop ends. *)
Lemma generateLoop_exit fuel networks :
  generateLoop (S fuel) aws (ipOfValue V0) (CIDRMask 27 32) D networks = Done networks.
Proof.
  destruct D_facts as (DE & HE & H2D & HVD).
  cbn [generateLoop]. rewrite incrementIP_base.
  assert (R : 0 <= (V0 + D) mod 2 ^ 32 < 2 ^ 32) by (apply Z.mod_pos_bound; lia).
  destruct (Contains aws (v4InV6Prefix ++ ipOfValue ((V0 + D) mod 2 ^ 32))) eqn:C;
    [|reflexivity].
  exfalso. apply Contains_aws in C; [|exact R].
  apply Z.mod_divide in Haligned; [|unfold D in *; lia]. destruct Haligned as [q Hq].
  fold D in Hq.
  assert (Hq0 : 0 <= q) by nia.
  rewrite Hq in C at 2. rewrite Z.div_mul in C by lia.
  destruct (Z.eq_dec (V0 + D) (2 ^ 32)) as [Ew|Nw].
  - rewrite Ew, Z.mod_same in C by lia. rewrite Z.div_0_l in C by lia. nia.
  - rewrite Z.mod_small in C by lia.
    rewrite Hq in C. replace (q * D + D) with ((q + 1) * D) in C by ring.
    rewrite Z.div_mul in C by lia. lia.
Qed.

(** Invariant: before round [i] the networks are the /27 blocks up to the
    one of address [i - 1]. *)
Lemma generateLoop_from m : forall i fuel,
  1 <= i <= D -> Z.of_nat m = D - i -> (m < fuel)%nat ->
  generateLoop fuel aws (ipOfValue V0) (CIDRMask 27 32) i
               (blocksFrom V0 (Z.to_nat ((i - 1) / 32 + 1)))
  = Done (blocksFrom V0 (Z.to_nat (D / 32))).
Proof.
  destruct D_facts as (DE & HE & H2D & HVD).
  induction m as [|m IH]; intros i fuel Hi Hm Hf;
    (destruct fuel as [|fuel]; [lia|]).
  - assert (i = D) by lia. subst i. rewrite generateLoop_exit.
    f_equal. f_equal. f_equal. rewrite DE.
    rewrite (Z.mul_comm 32), Z.div_mul by lia.
    replace (2 ^ (27 - p) * 32 - 1) with (31 + (2 ^ (27 - p) - 1) * 32) by ring.
    rewrite Z.div_add by lia. change (31 / 32) with 0. lia.
  - rewrite generateLoop_inside by lia.
    assert (Hq : 0 <= (i - 1) / 32) by (apply Z.div_pos; lia).
    assert (Hi32 : 0 <= i / 32) by (apply Z.div_pos; lia).
    assert (Hle : 32 * (i / 32) <= i) by (apply Z.mul_div_le; lia).
    set (n := Z.to_nat ((i - 1) / 32 + 1)).
    assert (Hn : Z.of_nat n = (i - 1) / 32 + 1) by (unfold n; lia).
    assert (Hn32 : 32 * ((i - 1) / 32) <= i - 1) by (apply Z.mul_div_le; lia).
    destruct (containsNetwork (blocksFrom V0 n) (ipOfValue (V0 + 32 * (i / 32)))) eqn:C.
    + apply containsNetwork_blocksFrom in C; try lia.
      assert (En : n = Z.to_nat ((i + 1 - 1) / 32 + 1)).
      { replace (i + 1 - 1) with i by ring.
        assert (i / 32 = (i - 1) / 32) by (Z.to_euclidean_division_equations; lia).
        lia. }
      rewrite En. apply IH; lia.
    + assert (N : ~ i / 32 < Z.of_nat n).
      { intros X. apply (containsNetwork_blocksFrom V0 n (i / 32)) in X; try lia.
        congruence. }
      assert (E : i / 32 = Z.of_nat n) by (Z.to_euclidean_division_equations; lia).
      rewrite E. change (mkIPNet (ipOfValue (V0 + 32 * Z.of_nat n)) (CIDRMask 27 32))
        with (block27 V0 n).
      rewrite <- blocksFrom_S.
      assert (En : S n = Z.to_nat ((i + 1 - 1) / 32 + 1)).
      { replace (i + 1 - 1) with i by ring. lia. }
      rewrite En. apply IH; lia.
Qed.

(** With fuel for the [D + 1] rounds the loop returns the [2 ^ (27 - p)]
    blocks in ascending order. *)
Lemma generateLoop_total fuel :
  D < Z.of_nat fuel ->
  generateLoop fuel aws (ipOfValue V0) (CIDRMask 27 32) 0 [block27 V0 0]
  = Done (blocksFrom V0 (Z.to_nat (2 ^ (27 - p)))).
Proof.
  intros Hf. destruct D_facts as (DE & HE & H2D & HVD).
  destruct fuel as [|fuel]; [lia|].
  rewrite generateLoop_inside by lia.
  change (0 / 32) with 0. rewrite Z.mul_0_r, Z.add_0_r.
  assert (C : containsNetwork [block27 V0 0] (ipOfValue V0) = true).
  { simpl. rewrite Z.add_0_r.
    rewrite (proj2 (Equal_ipOfValue V0 V0 HV0 HV0) eq_refl). reflexivity. }
  rewrite C.
  replace (2 ^ (27 - p)) with (D / 32) by (rewrite DE, Z.mul_comm, Z.div_mul; lia).
  apply (generateLoop_from (Z.to_nat (D - 1)) (0 + 1) fuel); lia.
Qed.

End GenerateLoop.

(** A /0 block contains every IPv4 address, so the loop never ends. *)
Lemma generateLoop_diverges nb toMask :
  isIPv4Bytes nb ->
  forall fuel i networks,
    generateLoop fuel (mkIPNet nb (CIDRMask 0 32)) nb toMask i networks = OutOfFuel.
Proof.
  intros Hnb. induction fuel as [|fuel IH]; intros i networks; [reflexivity|].
  cbn [generateLoop].
  destruct Hnb as (b0 & b1 & b2 & b3 & E & H0 & H1 & H2 & H3).
  rewrite (incrementIP_value nb i b0 b1 b2 b3) by (subst nb; auto).
  set (v := (ipValue [b0; b1; b2; b3] + i) mod 2 ^ 32).
  assert (Hv : 0 <= v < 2 ^ 32) by (apply Z.mod_pos_bound; lia).
  assert (C : Contains (mkIPNet nb (CIDRMask 0 32)) (v4InV6Prefix ++ ipOfValue v) = true).
  { apply Contains_value; [lia | subst nb; do 4 eexists; eauto | apply ipOfValue_bytes |].
    rewrite ipValue_ipOfValue by assumption. subst nb.
    pose proof (ipValue_range _ _ _ _ H0 H1 H2 H3).
    change (2 ^ (32 - 0)) with (2 ^ 32). rewrite !Z.div_small by lia. reflexivity. }
  rewrite C. destruct (containsNetwork networks _); apply IH.
Qed.

(** *** The reversal loop *)

Lemma setAt_app {A : Type} (pre l : list A) k v :
  setAt (List.length pre + k) v (pre ++ l) = pre ++ setAt k v l.
Proof.
  induction pre as [|a pre IH]; simpl; [reflexivity|]. f_equal. exact IH.
Qed.

Lemma setAt_here {A : Type} (pre l : list A) x v :
  setAt (List.length pre) v (pre ++ x :: l) = pre ++ v :: l.
Proof.
  rewrite <- (Nat.add_0_r (List.length pre)), setAt_app. reflexivity.
Qed.

Lemma nth_error_here {A : Type} (pre l : list A) x :
  nth_error (pre ++ x :: l) (List.length pre) = Some x.
Proof. rewrite nth_error_app2, Nat.sub_diag by lia. reflexivity. Qed.

Lemma swapAt_ends {A : Type} (pre mid post : list A) x y :
  swapAt (List.length pre) (List.length pre + S (List.length mid))
         (pre ++ x :: mid ++ y :: post)
  = pre ++ y :: mid ++ x :: post.
Proof.
  unfold swapAt. rewrite nth_error_here.
  replace (pre ++ x :: mid ++ y :: post) with ((pre ++ x :: mid) ++ y :: post)
    by (rewrite <- app_assoc; reflexivity).
  replace (List.length pre + S (List.length mid))%nat with (List.length (pre ++ x :: mid))
    by (rewrite length_app; simpl; lia).
  rewrite nth_error_here.
  replace ((pre ++ x :: mid) ++ y :: post) with (pre ++ x :: mid ++ y :: post)
    by (rewrite <- app_assoc; reflexivity).
  rewrite setAt_here.
  replace (pre ++ y :: mid ++ y :: post) with ((pre ++ y :: mid) ++ y :: post)
    by (rewrite <- app_assoc; reflexivity).
  replace (List.length (pre ++ x :: mid)) with (List.length (pre ++ y :: mid))
    by (rewrite !length_app; reflexivity).
  rewrite setAt_here, <- app_assoc. reflexivity.
Qed.

Lemma reverseLoop_rev {A : Type} (r : nat) : forall (mid pre post : list A),
  (List.length mid <= 2 * r + 1)%nat ->
  reverseLoop r (Z.of_nat (List.length pre))
              (Z.of_nat (List.length pre + List.length mid) - 1) (pre ++ mid ++ post)
  = pre ++ rev mid ++ post.
Proof.
  induction r as [|r IH]; intros mid pre post Hl.
  - destruct mid as [|x [|y mid]]; simpl in *; try reflexivity; lia.
  - cbn [reverseLoop].
    destruct mid as [|x mid].
    { destruct (Z.ltb_spec (Z.of_nat (List.length pre))
                           (Z.of_nat (List.length pre + List.length (@nil A)) - 1));
        [simpl in *; lia | reflexivity]. }
    destruct (rev mid) as [|y dim] eqn:R.
    + apply (f_equal (@rev A)) in R. rewrite rev_involutive in R. subst mid.
      cbn [rev app] in *.
      destruct (Z.ltb_spec (Z.of_nat (List.length pre))
                           (Z.of_nat (List.length pre + List.length [x]) - 1));
        [cbn [List.length] in *; lia | reflexivity].
    + apply (f_equal (@rev A)) in R. rewrite rev_involutive in R. simpl in R.
      subst mid. set (mid' := rev dim) in *.
      assert (Hlen : List.length (x :: mid' ++ [y]) = S (S (List.length mid')))
        by (simpl; rewrite length_app; simpl; lia).
      rewrite Hlen in *.
      destruct (Z.ltb_spec (Z.of_nat (List.length pre))
                           (Z.of_nat (List.length pre + S (S (List.length mid'))) - 1));
        [|lia].
      replace (Z.to_nat (Z.of_nat (List.length pre))) with (List.length pre) by lia.
      replace (Z.to_nat (Z.of_nat (List.length pre + S (S (List.length mid'))) - 1))
        with (List.length pre + S (List.length mid'))%nat by lia.
      replace (pre ++ (x :: mid' ++ [y]) ++ post) with (pre ++ x :: mid' ++ y :: post)
        by (simpl; rewrite <- app_assoc; reflexivity).
      rewrite swapAt_ends.
      replace (pre ++ y :: mid' ++ x :: post) with ((pre ++ [y]) ++ mid' ++ (x :: post))
        by (rewrite <- app_assoc; reflexivity).
      replace (Z.of_nat (List.length pre) + 1) with (Z.of_nat (List.length (pre ++ [y])))
        by (rewrite length_app; simpl; lia).
      replace (Z.of_nat (List.length pre + S (S (List.length mid'))) - 1 - 1)
        with (Z.of_nat (List.length (pre ++ [y]) + List.length mid') - 1)
        by (rewrite length_app; simpl; lia).
      rewrite IH by lia.
      simpl. rewrite rev_app_distr. simpl. rewrite <- !app_assoc. reflexivity.
Qed.

Lemma reverseInPlace_rev {A : Type} (s : list A) : reverseInPlace s = rev s.
Proof.
  unfold reverseInPlace.
  pose proof (reverseLoop_rev (List.length s) s [] []) as H.
  simpl in H. rewrite !app_nil_r in H. apply H. lia.
Qed.

(** *** What ParseCIDR returns *)

Lemma dtoiFrom_nonneg s : forall n i, 0 <= n -> 0 <= fst (fst (dtoiFrom s n i)).
Proof.
  induction s as [|c s IH]; intros n i Hn; simpl.
  - destruct (Nat.eqb i 0); simpl; lia.
  - destruct (isDigit c) eqn:Dg.
    + destruct (big <=? n * 10 + digitVal c); [simpl; unfold big; lia|].
      apply IH. unfold isDigit in Dg. apply andb_true_iff in Dg. destruct Dg as [Dg _].
      apply Z.leb_le in Dg. unfold digitVal. lia.
    + destruct (Nat.eqb i 0); simpl; lia.
Qed.

Lemma parseIPv4Fields_bytes k : forall s p q,
  Forall isByte p -> parseIPv4Fields k s p = Some q ->
  Forall isByte q /\ List.length q = (List.length p + k)%nat.
Proof.
  induction k as [|k IH]; intros s p q Hp H; simpl in H.
  - destruct s; [|discriminate]. injection H as <-. split; [assumption | lia].
  - destruct s as [|c0 s0]; [discriminate|].
    destruct (match p with [] => Some (String c0 s0)
                         | _ => if Ascii.eqb c0 "." then Some s0 else None end)
      as [s1|]; [|discriminate].
    pose proof (dtoiFrom_nonneg s1 0 O (Z.le_refl 0)) as Hnn. fold (dtoi s1) in Hnn.
    destruct (dtoi s1) as [[n c] ok]. simpl in Hnn.
    destruct (negb ok || (255 <? n)) eqn:Q; [discriminate|].
    apply orb_false_iff in Q. destruct Q as [_ Q]. apply Z.ltb_ge in Q.
    destruct (Nat.ltb 1 c && _); [discriminate|].
    apply IH in H.
    + destruct H as [Hq Hl]. split; [exact Hq|]. rewrite Hl, length_app. simpl. lia.
    + apply Forall_app. split; [exact Hp|]. repeat constructor; unfold isByte; lia.
Qed.

Lemma parseIPv4_bytes s :
  parseIPv4 s = [] \/
  exists b0 b1 b2 b3, parseIPv4 s = IPv4 b0 b1 b2 b3 /\
                      isByte b0 /\ isByte b1 /\ isByte b2 /\ isByte b3.
Proof.
  unfold parseIPv4. destruct (parseIPv4Fields 4 s []) as [q|] eqn:E; [|now left].
  apply parseIPv4Fields_bytes in E; [|constructor]. destruct E as [Hq Hl].
  destruct q as [|b0 [|b1 [|b2 [|b3 [|b4 q]]]]]; try discriminate.
  right. exists b0, b1, b2, b3. split; [reflexivity|].
  inversion Hq as [|? ? B0 Hq1]; inversion Hq1 as [|? ? B1 Hq2];
    inversion Hq2 as [|? ? B2 Hq3]; inversion Hq3 as [|? ? B3 _]. auto.
Qed.

(** A parsed block is an IPv4 address of four bytes and its network under a
    /p mask, with p from 0 to 32. *)
Lemma ParseCIDR_IPv4 s ip n :
  ParseCIDR s = Some (ip, n) ->
  exists b p, isIPv4Bytes b /\ 0 <= p <= 32 /\
    ip = v4InV6Prefix ++ b /\
    n = mkIPNet (ipOfValue (2 ^ (32 - p) * (ipValue b / 2 ^ (32 - p)))) (CIDRMask p 32).
Proof.
  unfold ParseCIDR. destruct (cutSlash s) as [[addr mask]|]; [|discriminate].
  pose proof (dtoiFrom_nonneg mask 0 O (Z.le_refl 0)) as Hnn. fold (dtoi mask) in Hnn.
  destruct (dtoi mask) as [[p i] ok]. simpl in Hnn.
  destruct (parseIPv4_bytes addr) as [E|(b0 & b1 & b2 & b3 & E & H0 & H1 & H2 & H3)];
    rewrite E; [discriminate|].
  cbn [IPv4 app v4InV6Prefix].
  destruct (negb ok || negb (Nat.eqb i (String.length mask)) || (p <? 0) || (32 <? p)) eqn:Q;
    [discriminate|].
  apply orb_false_iff in Q. destruct Q as [Q Q32]. apply Z.ltb_ge in Q32.
  intros H. injection H as <- <-.
  exists [b0; b1; b2; b3], p.
  split; [do 4 eexists; eauto|]. split; [lia|]. split; [reflexivity|].
  f_equal. change ([0; 0; 0; 0; 0; 0; 0; 0; 0; 0; 255; 255; b0; b1; b2; b3])
    with (v4InV6Prefix ++ [b0; b1; b2; b3]).
  apply Mask_value; [lia | do 4 eexists; eauto].
Qed.

(** *** Printing an address and parsing it back *)

Lemma append_assoc (a b c : string) : ((a ++ b) ++ c = a ++ (b ++ c))%string.
Proof. induction a as [|x a IH]; simpl; [reflexivity | now rewrite IH]. Qed.

Lemma append_nil_r (a : string) : (a ++ "" = a)%string.
Proof. induction a as [|x a IH]; simpl; [reflexivity | now rewrite IH]. Qed.

Lemma dtoiFrom_digits d : forall n i rest,
  allDigits d = true -> decFrom n d <> -1 -> noDigitAhead rest ->
  (0 < i + String.length d)%nat ->
  dtoiFrom (d ++ rest) n i = (decFrom n d, (i + String.length d)%nat, true).
Proof.
  induction d as [|c d IH]; intros n i rest Hd Hv Hr Hl; simpl in *.
  - rewrite Nat.add_0_r in *.
    assert (Nat.eqb i 0 = false) as E by (apply Nat.eqb_neq; lia).
    destruct rest as [|c r]; simpl; [now rewrite E|].
    simpl in Hr. rewrite Hr, E. reflexivity.
  - apply andb_true_iff in Hd. destruct Hd as [Hc Hd]. rewrite Hc.
    destruct (big <=? n * 10 + digitVal c); [congruence|].
    rewrite IH by (auto; lia). f_equal. f_equal. lia.
Qed.

Lemma dropStr_app d rest : dropStr (String.length d) (d ++ rest) = rest.
Proof. induction d as [|c d IH]; simpl; [destruct rest; reflexivity | exact IH]. Qed.

Lemma cutSlash_app d rest :
  noSlash d = true ->
  cutSlash (d ++ rest) =
  match cutSlash rest with Some (a, m) => Some ((d ++ a)%string, m) | None => None end.
Proof.
  induction d as [|c d IH]; intros H; simpl in *.
  - destruct (cutSlash rest) as [[a m]|]; reflexivity.
  - apply andb_true_iff in H. destruct H as [Hc Hd].
    destruct (Ascii.eqb c "/"); [discriminate|]. rewrite IH by assumption.
    destruct (cutSlash rest) as [[a m]|]; reflexivity.
Qed.

Lemma uitoa_byte b : isByte b -> goodByteText b = true.
Proof. revert b. apply byte_forall. vm_compute. reflexivity. Qed.

Lemma startsWithZero_app d rest :
  (0 < String.length d)%nat -> startsWithZero (d ++ rest) = startsWithZero d.
Proof. destruct d; simpl; [lia | reflexivity]. Qed.

Lemma parseIPv4Fields_field k b rest p :
  isByte b -> noDigitAhead rest ->
  parseIPv4Fields (S k)
    (match p with [] => uitoa b ++ rest | _ => String "." (uitoa b ++ rest) end)%string p
  = parseIPv4Fields k rest (p ++ [b]).
Proof.
  intros Hb Hr. pose proof (uitoa_byte b Hb) as G. unfold goodByteText in G.
  repeat (apply andb_true_iff in G; destruct G as [G ?]).
  apply Z.eqb_eq in H1. apply Nat.ltb_lt in H0. apply negb_true_iff in H.
  assert (Hdtoi : dtoi (uitoa b ++ rest) = (b, String.length (uitoa b), true)).
  { unfold dtoi. rewrite dtoiFrom_digits; auto; [now rewrite H1 | rewrite H1].
    destruct Hb. lia. }
  assert (Hb255 : (255 <? b) = false) by (apply Z.ltb_ge; destruct Hb; lia).
  assert (Hstep : forall s, s = (uitoa b ++ rest)%string ->
            (let '(n, c, ok) := dtoi s in
             if negb ok || (255 <? n) then None
             else if Nat.ltb 1 c && startsWithZero s then None
             else parseIPv4Fields k (dropStr c s) (p ++ [n]))
            = parseIPv4Fields k rest (p ++ [b])).
  { intros s ->. rewrite Hdtoi. cbn [negb orb]. rewrite Hb255.
    rewrite startsWithZero_app, H by assumption. rewrite dropStr_app. reflexivity. }
  destruct (uitoa b) as [|c0 u] eqn:U; [simpl in H0; lia|].
  destruct p as [|x p].
  - cbn [parseIPv4Fields append]. exact (Hstep _ eq_refl).
  - cbn [parseIPv4Fields]. change (Ascii.eqb "." ".") with true. cbv iota.
    exact (Hstep _ eq_refl).
Qed.

Lemma parseIPv4_IPString b0 b1 b2 b3 :
  isByte b0 -> isByte b1 -> isByte b2 -> isByte b3 ->
  parseIPv4 (IPString [b0; b1; b2; b3]) = IPv4 b0 b1 b2 b3.
Proof.
  intros H0 H1 H2 H3. unfold parseIPv4, IPString. rewrite To4_4.
  change (uitoa b0 ++ "." ++ uitoa b1 ++ "." ++ uitoa b2 ++ "." ++ uitoa b3)%string
    with (uitoa b0 ++ String "." (uitoa b1 ++ String "." (uitoa b2 ++ String "." (uitoa b3))))%string.
  rewrite <- (append_nil_r (uitoa b3)).
  rewrite (parseIPv4Fields_field 3 b0 _ []) by (simpl; auto).
  rewrite (parseIPv4Fields_field 2 b1 _ [b0]) by (simpl; auto).
  rewrite (parseIPv4Fields_field 1 b2 _ [b0; b1]) by (simpl; auto).
  rewrite (parseIPv4Fields_field 0 b3 _ [b0; b1; b2]) by (simpl; auto).
  reflexivity.
Qed.

Lemma cutSlash_IPString b0 b1 b2 b3 m :
  isByte b0 -> isByte b1 -> isByte b2 -> isByte b3 ->
  cutSlash (IPString [b0; b1; b2; b3] ++ "/" ++ m) = Some (IPString [b0; b1; b2; b3], m).
Proof.
  intros H0 H1 H2 H3. unfold IPString. rewrite To4_4.
  assert (N : forall b, isByte b -> noSlash (uitoa b) = true).
  { intros b Hb. pose proof (uitoa_byte b Hb) as G. unfold goodByteText in G.
    repeat (apply andb_true_iff in G; destruct G as [G ?]). assumption. }
  rewrite !append_assoc.
  rewrite (cutSlash_app (uitoa b0)) by auto. cbn [append cutSlash].
  change (Ascii.eqb "." "/") with false. cbv iota.
  rewrite (cutSlash_app (uitoa b1)) by auto. cbn [append cutSlash].
  change (Ascii.eqb "." "/") with false. cbv iota.
  rewrite (cutSlash_app (uitoa b2)) by auto. cbn [append cutSlash].
  change (Ascii.eqb "." "/") with false. cbv iota.
  rewrite (cutSlash_app (uitoa b3)) by auto. cbn [append cutSlash].
  change (Ascii.eqb "/" "/") with true. cbv iota.
  rewrite append_nil_r. reflexivity.
Qed.

(** The /27 block the planner builds from the VPC's network address parses,
    and is that address under the /27 mask. *)
Lemma ParseCIDR_croCIDR b0 b1 b2 b3 :
  isByte b0 -> isByte b1 -> isByte b2 -> isByte b3 ->
  ParseCIDR (IPString [b0; b1; b2; b3] ++ "/" ++ uitoa defaultSubnetMask)
  = Some (IPv4 b0 b1 b2 b3,
          mkIPNet (Mask (IPv4 b0 b1 b2 b3) (CIDRMask 27 32)) (CIDRMask 27 32)).
Proof.
  intros H0 H1 H2 H3. unfold ParseCIDR.
  rewrite cutSlash_IPString by assumption.
  rewrite parseIPv4_IPString by assumption. reflexivity.
Qed.

(** *** The planner as a whole *)

Lemma generateLoop_more_fuel fuel : forall k aws ip4 mask i networks r,
  generateLoop fuel aws ip4 mask i networks = Done r ->
  generateLoop (fuel + k) aws ip4 mask i networks = Done r.
Proof.
  induction fuel as [|fuel IH]; intros k aws ip4 mask i networks r H; [discriminate|].
  cbn [generateLoop Nat.add] in *.
  destruct (incrementIP ip4 i) as [next|]; [|discriminate].
  destruct (Contains aws next); [|exact H].
  destruct (containsNetwork networks _); apply IH; exact H.
Qed.

Lemma pow2_split p : 0 <= p <= 27 -> 2 ^ (32 - p) = 32 * 2 ^ (27 - p).
Proof.
  intros Hp. replace (32 - p) with (5 + (27 - p)) by lia.
  rewrite Z.pow_add_r by lia. reflexivity.
Qed.

(** The network address of a block of prefix length at most 27 is a
    multiple of 32. *)
Lemma network_aligned32 p v :
  0 <= p <= 27 ->
  32 * (2 ^ (32 - p) * (v / 2 ^ (32 - p)) / 32) = 2 ^ (32 - p) * (v / 2 ^ (32 - p)).
Proof.
  intros Hp. rewrite (pow2_split p Hp).
  set (E := 2 ^ (27 - p)). set (q := v / (32 * E)).
  replace (32 * E * q) with ((E * q) * 32) by ring. rewrite Z.div_mul by lia. ring.
Qed.

(** The run of [buildSubnetAddress] on a block that parses, with prefix
    length below 27: the loop from the block's network address, reversed. *)
Lemma buildSubnetAddress_parsed fuel vpc ip b p :
  isIPv4Bytes b -> 0 <= p < 27 ->
  ParseCIDR (CidrBlock vpc)
  = Some (ip, mkIPNet (ipOfValue (2 ^ (32 - p) * (ipValue b / 2 ^ (32 - p)))) (CIDRMask p 32)) ->
  let V0 := 2 ^ (32 - p) * (ipValue b / 2 ^ (32 - p)) in
  buildSubnetAddress fuel vpc =
  match generateLoop fuel (mkIPNet (ipOfValue V0) (CIDRMask p 32)) (ipOfValue V0)
                     (CIDRMask 27 32) 0 [block27 V0 0] with
  | Done networks => Done (rev networks, None)
  | Panic => Panic
  | OutOfFuel => OutOfFuel
  end.
Proof.
  intros Hb Hp HP V0. unfold buildSubnetAddress.
  destruct (String.eqb (CidrBlock vpc) "") eqn:Q.
  { apply String.eqb_eq in Q. rewrite Q in HP. discriminate. }
  rewrite HP. cbn [net_Mask net_IP]. rewrite Size_CIDRMask by lia. cbn [fst].
  assert (L : (defaultSubnetMask <=? p) = false) by (apply Z.leb_gt; unfold defaultSubnetMask; lia).
  rewrite L. fold V0.
  destruct (ipOfValue_bytes V0) as (v0 & v1 & v2 & v3 & E & H0 & H1 & H2 & H3).
  rewrite E, ParseCIDR_croCIDR by assumption.
  unfold generateAvailableSubnets. cbn [net_IP net_Mask].
  change (IPv4 v0 v1 v2 v3) with (v4InV6Prefix ++ [v0; v1; v2; v3]).
  rewrite <- E.
  assert (R : 0 <= ipValue b < 2 ^ 32).
  { destruct Hb as (b0 & b1 & b2 & b3 & -> & ? & ? & ? & ?). now apply ipValue_range. }
  assert (HD : 0 < 2 ^ (32 - p)) by (apply Z.pow_pos_nonneg; lia).
  assert (RV : 0 <= V0 < 2 ^ 32) by (apply masked_value_range; assumption).
  rewrite !Mask27_value by assumption.
  assert (A32 : 32 * (V0 / 32) = V0) by (unfold V0; apply network_aligned32; lia).
  rewrite !A32. change (To4 (ipOfValue V0)) with (ipOfValue V0).
  unfold block27. change (Z.of_nat 0) with 0. rewrite Z.mul_0_r, Z.add_0_r.
  destruct (generateLoop _ _ _ _ _ _); try reflexivity.
  rewrite reverseInPlace_rev. reflexivity.
Qed.

Lemma network_facts b p :
  isIPv4Bytes b -> 0 <= p <= 32 ->
  let V0 := 2 ^ (32 - p) * (ipValue b / 2 ^ (32 - p)) in
  0 <= V0 < 2 ^ 32 /\ V0 mod 2 ^ (32 - p) = 0.
Proof.
  intros Hb Hp V0.
  assert (R : 0 <= ipValue b < 2 ^ 32).
  { destruct Hb as (b0 & b1 & b2 & b3 & -> & ? & ? & ? & ?). now apply ipValue_range. }
  assert (HD : 0 < 2 ^ (32 - p)) by (apply Z.pow_pos_nonneg; lia).
  split; [apply masked_value_range; assumption|].
  unfold V0. rewrite Z.mul_comm. apply Z.mod_mul. lia.
Qed.

(** With prefix length 1 to 26 and fuel for every address of the block, the
    planner returns the /27 blocks of the VPC block, highest first. *)
Lemma buildSubnetAddress_blocks fuel vpc ip b p :
  isIPv4Bytes b -> 1 <= p < 27 -> 2 ^ (32 - p) < Z.of_nat fuel ->
  ParseCIDR (CidrBlock vpc)
  = Some (ip, mkIPNet (ipOfValue (2 ^ (32 - p) * (ipValue b / 2 ^ (32 - p)))) (CIDRMask p 32)) ->
  buildSubnetAddress fuel vpc =
  Done (rev (blocksFrom (2 ^ (32 - p) * (ipValue b / 2 ^ (32 - p)))
                         (Z.to_nat (2 ^ (27 - p)))), None).
Proof.
  intros Hb Hp Hf HP.
  rewrite (buildSubnetAddress_parsed fuel vpc ip b p Hb ltac:(lia) HP). cbv zeta.
  destruct (network_facts b p Hb ltac:(lia)) as [RV AL].
  rewrite (generateLoop_total p _ ltac:(lia) RV AL fuel Hf). reflexivity.
Qed.

(** With prefix length 0 the planner does not return, whatever the fuel. *)
Lemma buildSubnetAddress_prefix0 fuel vpc ip b :
  isIPv4Bytes b ->
  ParseCIDR (CidrBlock vpc)
  = Some (ip, mkIPNet (ipOfValue (2 ^ (32 - 0) * (ipValue b / 2 ^ (32 - 0)))) (CIDRMask 0 32)) ->
  buildSubnetAddress fuel vpc = OutOfFuel.
Proof.
  intros Hb HP.
  rewrite (buildSubnetAddress_parsed fuel vpc ip b 0 Hb ltac:(lia) HP). cbv zeta.
  rewrite generateLoop_diverges by apply ipOfValue_bytes. reflexivity.
Qed.

(** Whenever the planner returns candidates, the block parses with a prefix
    length from 1 to 26 and the candidates are its /27 blocks, highest
    first. *)
Lemma buildSubnetAddress_inv fuel vpc nets :
  buildSubnetAddress fuel vpc = Done (nets, None) ->
  exists ip b p,
    isIPv4Bytes b /\ 1 <= p < 27 /\
    ParseCIDR (CidrBlock vpc)
    = Some (ip, mkIPNet (ipOfValue (2 ^ (32 - p) * (ipValue b / 2 ^ (32 - p)))) (CIDRMask p 32))
    /\ nets = rev (blocksFrom (2 ^ (32 - p) * (ipValue b / 2 ^ (32 - p)))
                              (Z.to_nat (2 ^ (27 - p)))).
Proof.
  intros H.
  destruct (ParseCIDR (CidrBlock vpc)) as [[ip aws]|] eqn:HP.
  - destruct (ParseCIDR_IPv4 _ _ _ HP) as (b & p & Hb & Hp & -> & ->).
    destruct (Z.le_gt_cases 27 p) as [Hge|Hlt].
    { unfold buildSubnetAddress in H. rewrite HP in H.
      destruct (String.eqb (CidrBlock vpc) ""); [discriminate|].
      cbn [net_Mask] in H. rewrite Size_CIDRMask in H by assumption. cbn [fst] in H.
      assert (L : (defaultSubnetMask <=? p) = true) by (apply Z.leb_le; exact Hge).
      rewrite L in H. discriminate. }
    destruct (Z.eq_dec p 0) as [->|Hp0].
    { rewrite (buildSubnetAddress_prefix0 fuel vpc (v4InV6Prefix ++ b) b Hb HP) in H. discriminate. }
    exists (v4InV6Prefix ++ b), b, p. split; [exact Hb|]. split; [lia|]. split; [reflexivity|].
    pose proof (buildSubnetAddress_parsed fuel vpc _ b p Hb ltac:(lia) HP) as HB.
    cbv zeta in HB. rewrite HB in H.
    destruct (network_facts b p Hb ltac:(lia)) as [RV AL].
    destruct (generateLoop fuel _ _ _ _ _) as [g| |] eqn:G; try discriminate.
    apply (generateLoop_more_fuel fuel (S (Z.to_nat (2 ^ (32 - p))))) in G.
    rewrite (generateLoop_total p _ ltac:(lia) RV AL) in G by lia.
    injection G as <-. injection H as <-. reflexivity.
  - unfold buildSubnetAddress in H. rewrite HP in H.
    destruct (String.eqb (CidrBlock vpc) ""); discriminate.
Qed.

Lemma buildSubnetAddress_blocks_general fuel vpc ip b p nets :
  isIPv4Bytes b -> 0 <= p <= 32 ->
  ParseCIDR (CidrBlock vpc)
  = Some (ip, mkIPNet (ipOfValue (2 ^ (32 - p) * (ipValue b / 2 ^ (32 - p)))) (CIDRMask p 32)) ->
  buildSubnetAddress fuel vpc = Done (nets, None) ->
  nets = rev (blocksFrom (2 ^ (32 - p) * (ipValue b / 2 ^ (32 - p)))
                         (Z.to_nat (2 ^ (27 - p)))).
Proof.
  intros Hb Hp HP H.
  destruct (buildSubnetAddress_inv fuel vpc nets H) as (ip' & b' & p' & Hb' & Hp' & HP' & ->).
  rewrite HP in HP'.
  assert (EN : mkIPNet (ipOfValue (2 ^ (32 - p) * (ipValue b / 2 ^ (32 - p)))) (CIDRMask p 32)
               = mkIPNet (ipOfValue (2 ^ (32 - p') * (ipValue b' / 2 ^ (32 - p'))))
                         (CIDRMask p' 32)) by congruence.
  pose proof (f_equal (fun n => Size (net_Mask n)) EN) as EM.
  pose proof (f_equal net_IP EN) as EV. cbn [net_IP net_Mask] in EM, EV.
  rewrite !Size_CIDRMask in EM by lia.
  assert (p = p') by congruence. subst p'.
  apply ipOfValue_inj in EV; try (apply network_facts; assumption).
  rewrite EV. reflexivity.
Qed.

(** *** The claims on the planner *)

Lemma In_blocksFrom base n x :
  In x (blocksFrom base n) <-> exists k, (k < n)%nat /\ x = block27 base k.
Proof.
  unfold blocksFrom. rewrite in_map_iff. split.
  - intros [k [<- Hk]]. apply in_seq in Hk. exists k. split; [lia | reflexivity].
  - intros [k [Hk ->]]. exists k. split; [reflexivity | apply in_seq; lia].
Qed.

Lemma rev_blocksFrom_S base n :
  rev (blocksFrom base (S n)) = block27 base n :: rev (blocksFrom base n).
Proof. rewrite blocksFrom_S, rev_app_distr. reflexivity. Qed.

Lemma block27_value base k :
  0 <= base -> base + 32 * Z.of_nat k < 2 ^ 32 ->
  ipValue (net_IP (block27 base k)) = base + 32 * Z.of_nat k.
Proof. intros. unfold block27. cbn [net_IP]. apply ipValue_ipOfValue. lia. Qed.

Lemma rev_blocksFrom_descending base n :
  0 <= base -> base + 32 * Z.of_nat n <= 2 ^ 32 ->
  descending (rev (blocksFrom base n)).
Proof.
  intros Hb. unfold descending. induction n as [|n IH]; intros Hn.
  - constructor.
  - rewrite rev_blocksFrom_S. constructor; [apply IH; lia|].
    apply Forall_forall. intros x Hx. apply in_rev, In_blocksFrom in Hx.
    destruct Hx as [k [Hk ->]]. rewrite !block27_value by lia. lia.
Qed.

Lemma Contains_To4 n x :
  isIPv4Bytes (To4 x) -> Contains n x = Contains n (To4 x).
Proof.
  intros (x0 & x1 & x2 & x3 & E & _). unfold Contains.
  destruct (networkNumberAndMask n) as [nn m]. rewrite E. reflexivity.
Qed.

(** An address lies in the k-th /27 block from [base] iff its value lies in
    the 32 addresses of that block. *)
Lemma Contains_block27 base k x :
  0 <= base -> base mod 32 = 0 -> base + 32 * Z.of_nat k < 2 ^ 32 ->
  isIPv4Bytes (To4 x) ->
  Contains (block27 base k) x = true <->
  base + 32 * Z.of_nat k <= ipValue (To4 x) < base + 32 * Z.of_nat k + 32.
Proof.
  intros Hb Ha Hk Hx. rewrite Contains_To4 by assumption. unfold block27.
  rewrite Contains_4bytes_value by (try apply ipOfValue_bytes; try assumption; lia).
  rewrite ipValue_ipOfValue by lia. change (2 ^ (32 - 27)) with 32.
  apply Z.mod_divide in Ha; [|lia]. destruct Ha as [q ->].
  replace (q * 32 + 32 * Z.of_nat k) with ((q + Z.of_nat k) * 32) by ring.
  rewrite Z.div_mul by lia. split; intros H.
  - Z.to_euclidean_division_equations; lia.
  - Z.to_euclidean_division_equations; lia.
Qed.

(** C10: for every IPv4 address, in 4-byte or 16-byte form, and every
    non-negative increment of type int, incrementIP returns the IPv4 address
    whose packed value is the packed value of the input plus the increment,
    modulo 2^32. *)
Theorem incrementIP_adds_modulo_2_32 (ip : IP) (inc : Z) :
  isIPv4Bytes (To4 ip) -> 0 <= inc <= maxInt ->
  exists r, incrementIP ip inc = Some r /\
            isIPv4Bytes (To4 r) /\
            ipValue (To4 r) = (ipValue (To4 ip) + inc) mod 2 ^ 32.
Proof.
  intros (b0 & b1 & b2 & b3 & E & H0 & H1 & H2 & H3) Hinc.
  exists (v4InV6Prefix ++ ipOfValue ((ipValue (To4 ip) + inc) mod 2 ^ 32)).
  split; [rewrite E; apply incrementIP_value; assumption|].
  change (To4 (v4InV6Prefix ++ ipOfValue ((ipValue (To4 ip) + inc) mod 2 ^ 32)))
    with (ipOfValue ((ipValue (To4 ip) + inc) mod 2 ^ 32)).
  split; [apply ipOfValue_bytes|].
  apply ipValue_ipOfValue. apply Z.mod_pos_bound. lia.
Qed.

Lemma incrementIP_adds_modulo_2_32_witness :
  exists r, incrementIP [10; 0; 0; 255] 257 = Some r /\
            isIPv4Bytes (To4 r) /\
            ipValue (To4 r) = (ipValue (To4 [10; 0; 0; 255]) + 257) mod 2 ^ 32.
Proof.
  apply (incrementIP_adds_modulo_2_32 [10; 0; 0; 255] 257).
  - exists 10, 0, 0, 255. unfold isByte. repeat split; (reflexivity || lia).
  - unfold maxInt. lia.
Defined.

(** C3: for a VPC block that parses with prefix length below 27, every block
    the planner returns has the /27 mask, contains only addresses of the VPC
    block, no two returned blocks have the same base address, and two
    different returned blocks share no address; with prefix length 1 to 26
    and fuel for every address of the VPC block the planner does return. *)
Theorem buildSubnetAddress_blocks_inside_and_disjoint
    (fuel : nat) (vpc : Vpc) (ip : IP) (awsCIDR : IPNet) :
  ParseCIDR (CidrBlock vpc) = Some (ip, awsCIDR) ->
  fst (Size (net_Mask awsCIDR)) < 27 ->
  (1 <= fst (Size (net_Mask awsCIDR)) ->
   2 ^ (32 - fst (Size (net_Mask awsCIDR))) < Z.of_nat fuel ->
   exists nets, buildSubnetAddress fuel vpc = Done (nets, None))
  /\ (forall nets, buildSubnetAddress fuel vpc = Done (nets, None) ->
        (forall n, In n nets ->
           Size (net_Mask n) = (27, 32) /\
           forall x, isIPv4Bytes (To4 x) -> Contains n x = true -> Contains awsCIDR x = true)
        /\ NoDup (map net_IP nets)
        /\ (forall n1 n2 x, In n1 nets -> In n2 nets -> n1 <> n2 ->
              isIPv4Bytes (To4 x) -> Contains n1 x = true -> Contains n2 x = false)).
Proof.
  intros HP Hlt.
  destruct (ParseCIDR_IPv4 _ _ _ HP) as (b & p & Hb & Hp & -> & ->).
  cbn [net_Mask] in *. rewrite Size_CIDRMask in * by assumption. cbn [fst] in *.
  split.
  { intros H1 Hf. eexists. apply (buildSubnetAddress_blocks fuel vpc (v4InV6Prefix ++ b) b p); auto; lia. }
  intros nets H.
  rewrite (buildSubnetAddress_blocks_general fuel vpc (v4InV6Prefix ++ b) b p nets Hb Hp HP H).
  destruct (network_facts b p Hb Hp) as [RV AL].
  assert (Hp1 : 1 <= p).
  { destruct (Z.eq_dec p 0) as [->|]; [|lia].
    rewrite (buildSubnetAddress_prefix0 fuel vpc (v4InV6Prefix ++ b) b Hb HP) in H. discriminate. }
  set (V0 := 2 ^ (32 - p) * (ipValue b / 2 ^ (32 - p))) in *.
  destruct (D_facts p V0 ltac:(lia) RV AL) as (DE & HE & H2D & HVD).
  set (E := 2 ^ (27 - p)) in *.
  assert (A32 : V0 mod 32 = 0).
  { apply Z.mod_divide in AL; [|lia]. destruct AL as [q Hq]. rewrite Hq, DE.
    replace (q * (32 * E)) with (q * E * 32) by ring. apply Z.mod_mul. lia. }
  assert (InB : forall n, In n (rev (blocksFrom V0 (Z.to_nat E))) ->
            exists k, 0 <= Z.of_nat k < E /\ n = block27 V0 k).
  { intros n Hn. apply in_rev, In_blocksFrom in Hn. destruct Hn as [k [Hk ->]].
    exists k. split; [lia | reflexivity]. }
  split; [|split].
  - intros n Hn. destruct (InB n Hn) as [k [Hk ->]]. split; [reflexivity|].
    intros x Hx C. apply Contains_block27 in C; try assumption; try lia.
    rewrite Contains_To4 by assumption.
    apply Contains_4bytes_value; try assumption; try apply ipOfValue_bytes.
    rewrite ipValue_ipOfValue by assumption.
    apply Z.mod_divide in AL; [|lia]. destruct AL as [q Hq].
    rewrite Hq, Z.div_mul by lia.
    symmetry. apply (Z.div_unique _ _ q (ipValue (To4 x) - V0)); nia.
  - rewrite map_rev. apply NoDup_rev. unfold blocksFrom. rewrite map_map.
    apply NoDup_map_NoDup_ForallPairs; [|apply seq_NoDup].
    intros k1 k2 H1 H2 Eq. apply in_seq in H1, H2. cbn [block27 net_IP] in Eq.
    apply ipOfValue_inj in Eq; lia.
  - intros n1 n2 x H1 H2 Hne Hx C.
    destruct (InB n1 H1) as [k1 [Hk1 ->]]. destruct (InB n2 H2) as [k2 [Hk2 ->]].
    apply Contains_block27 in C; try assumption; try lia.
    destruct (Contains (block27 V0 k2) x) eqn:C2; [|reflexivity].
    apply Contains_block27 in C2; try assumption; try lia.
    assert (k1 = k2) by lia. congruence.
Qed.

Lemma buildSubnetAddress_blocks_inside_and_disjoint_witness :
  exists nets,
    buildSubnetAddress 300%nat vpc24 = Done (nets, None) /\
    (forall n, In n nets ->
       Size (net_Mask n) = (27, 32) /\
       forall x, isIPv4Bytes (To4 x) -> Contains n x = true ->
                 Contains (mkIPNet [10; 0; 0; 0] [255; 255; 255; 0]) x = true)
    /\ NoDup (map net_IP nets).
Proof.
  destruct (buildSubnetAddress_blocks_inside_and_disjoint 300%nat vpc24
              (IPv4 10 0 0 0) (mkIPNet [10; 0; 0; 0] [255; 255; 255; 0])
              eq_refl ltac:(vm_compute; reflexivity)) as [Hret Hprops].
  destruct (Hret ltac:(vm_compute; intro; discriminate) ltac:(vm_compute; reflexivity)) as [nets Hn].
  exists nets. split; [exact Hn|].
  destruct (Hprops nets Hn) as (P1 & P2 & _). split; assumption.
Defined.

(** C4, as the code has it: on a VPC block written without a colon (the
    IPv4 notation) the planner fails with an error exactly when the block is
    empty, does not parse, or has a prefix length of 27 or more; for every
    block that parses with a prefix length from 1 to 26 it returns, given
    fuel for every address of the block, a non-empty candidate sequence and
    no error.  Prefix length 0 is left out. *)
Theorem buildSubnetAddress_error_iff_and_nonempty :
  (forall (fuel : nat) (vpc : Vpc),
     noColon (CidrBlock vpc) = true ->
     ((exists nets e, buildSubnetAddress fuel vpc = Done (nets, Some e)) <->
      (CidrBlock vpc = ""%string \/
       ParseCIDR (CidrBlock vpc) = None \/
       exists ip awsCIDR, ParseCIDR (CidrBlock vpc) = Some (ip, awsCIDR) /\
                          27 <= fst (Size (net_Mask awsCIDR)))))
  /\ (forall (fuel : nat) (vpc : Vpc) (ip : IP) (awsCIDR : IPNet),
        ParseCIDR (CidrBlock vpc) = Some (ip, awsCIDR) ->
        1 <= fst (Size (net_Mask awsCIDR)) < 27 ->
        2 ^ (32 - fst (Size (net_Mask awsCIDR))) < Z.of_nat fuel ->
        exists n nets, buildSubnetAddress fuel vpc = Done (n :: nets, None)).
Proof.
  split.
  - intros fuel vpc _. split.
    + intros (nets & e & H).
      destruct (String.eqb (CidrBlock vpc) "") eqn:Q; [left; now apply String.eqb_eq|].
      right. destruct (ParseCIDR (CidrBlock vpc)) as [[ip aws]|] eqn:HP; [|now left].
      right. exists ip, aws. split; [reflexivity|].
      destruct (ParseCIDR_IPv4 _ _ _ HP) as (b & p & Hb & Hp & -> & ->).
      cbn [net_Mask]. rewrite Size_CIDRMask by assumption. cbn [fst].
      destruct (Z.le_gt_cases 27 p) as [Hge|Hlt]; [exact Hge|]. exfalso.
      rewrite (buildSubnetAddress_parsed fuel vpc _ b p Hb ltac:(lia) HP) in H.
      cbv zeta in H. destruct (generateLoop _ _ _ _ _ _); discriminate.
    + unfold buildSubnetAddress. intros [E|[E|(ip & aws & HP & Hge)]].
      * rewrite E. cbn. eauto.
      * rewrite E. destruct (String.eqb (CidrBlock vpc) ""); cbn; eauto.
      * rewrite HP. destruct (String.eqb (CidrBlock vpc) ""); [eauto|].
        apply Z.leb_le in Hge. unfold defaultSubnetMask. rewrite Hge. eauto.
  - intros fuel vpc ip aws HP Hp Hf.
    destruct (ParseCIDR_IPv4 _ _ _ HP) as (b & p & Hb & Hp' & -> & ->).
    cbn [net_Mask] in *. rewrite Size_CIDRMask in * by assumption. cbn [fst] in *.
    rewrite (buildSubnetAddress_blocks fuel vpc _ b p Hb Hp Hf HP).
    assert (HE : 1 <= 2 ^ (27 - p)).
    { change 1 with (2 ^ 0). apply Z.pow_le_mono_r; lia. }
    destruct (Z.to_nat (2 ^ (27 - p))) as [|N] eqn:EN; [lia|].
    rewrite rev_blocksFrom_S. eauto.
Qed.

Lemma buildSubnetAddress_error_iff_and_nonempty_witness :
  (exists nets e, buildSubnetAddress 300%nat (mkVpc "vpc-1" "10.0.0.0/28") = Done (nets, Some e))
  /\ exists n nets, buildSubnetAddress 300%nat vpc24 = Done (n :: nets, None).
Proof.
  split.
  - apply (proj1 buildSubnetAddress_error_iff_and_nonempty 300%nat
             (mkVpc "vpc-1" "10.0.0.0/28") eq_refl).
    right. right. exists (IPv4 10 0 0 0), (mkIPNet [10; 0; 0; 0] [255; 255; 255; 240]).
    split; [vm_compute; reflexivity | vm_compute; intro Q; discriminate Q].
  - apply (proj2 buildSubnetAddress_error_iff_and_nonempty 300%nat vpc24
             (IPv4 10 0 0 0) (mkIPNet [10; 0; 0; 0] [255; 255; 255; 0])).
    + reflexivity.
    + vm_compute. split; [intro; discriminate | reflexivity].
    + vm_compute. reflexivity.
Defined.

(** C4 fails on the block 0.0.0.0/0: it is not empty, it parses, its prefix
    length 0 is below 27, and the planner never returns on it: the loop of
    generateAvailableSubnets finds every address inside the block. *)
Lemma buildSubnetAddress_prefix0_never_returns :
  CidrBlock vpcAll <> ""%string
  /\ ParseCIDR (CidrBlock vpcAll)
     = Some (IPv4 0 0 0 0, mkIPNet [0; 0; 0; 0] [0; 0; 0; 0])
  /\ fst (Size [0; 0; 0; 0]) = 0
  /\ diverges (fun fuel => buildSubnetAddress fuel vpcAll).
Proof.
  split; [discriminate|]. split; [reflexivity|]. split; [reflexivity|].
  intros fuel. apply (buildSubnetAddress_prefix0 fuel vpcAll (IPv4 0 0 0 0) [0; 0; 0; 0]).
  - exists 0, 0, 0, 0. unfold isByte. repeat split; (reflexivity || lia).
  - reflexivity.
Qed.

(** C6: whatever the planner returns is the reverse of what
    generateAvailableSubnets generated, and its base addresses go strictly
    down, so the highest block comes first; for the VPC block 10.0.0.0/16 the
    first candidate is 10.0.255.224/27, every other candidate lies below it,
    and no /27 network address inside 10.0.0.0/16 lies above it. *)
Theorem buildSubnetAddress_reversed_highest_first :
  (forall (fuel : nat) (vpc : Vpc) (nets : list IPNet),
     buildSubnetAddress fuel vpc = Done (nets, None) ->
     (exists ip awsCIDR ip' croCIDR generated,
        ParseCIDR (CidrBlock vpc) = Some (ip, awsCIDR) /\
        ParseCIDR (IPString (net_IP awsCIDR) ++ "/" ++ uitoa defaultSubnetMask)
        = Some (ip', croCIDR) /\
        generateAvailableSubnets fuel awsCIDR croCIDR = Done generated /\
        nets = rev generated)
     /\ descending nets)
  /\ (forall (fuel : nat) (id : string),
        65536 < Z.of_nat fuel ->
        exists rest,
          buildSubnetAddress fuel (vpc16 id)
          = Done (mkIPNet [10; 0; 255; 224] (CIDRMask 27 32) :: rest, None)
          /\ Forall (fun n => ipValue (net_IP n) < ipValue [10; 0; 255; 224]) rest)
  /\ (forall x, isIPv4Bytes x -> ipValue x mod 32 = 0 ->
        Contains (mkIPNet [10; 0; 0; 0] (CIDRMask 16 32)) x = true ->
        ipValue x <= ipValue [10; 0; 255; 224]).
Proof.
  split; [|split].
  - intros fuel vpc nets H. split.
    + unfold buildSubnetAddress in H.
      destruct (String.eqb (CidrBlock vpc) ""); [discriminate|].
      destruct (ParseCIDR (CidrBlock vpc)) as [[ip aws]|] eqn:P1; [|discriminate].
      destruct (defaultSubnetMask <=? fst (Size (net_Mask aws))); [discriminate|].
      destruct (ParseCIDR (IPString (net_IP aws) ++ "/" ++ uitoa defaultSubnetMask))
        as [[ip' cro]|] eqn:P2; [|discriminate].
      destruct (generateAvailableSubnets fuel aws cro) as [g| |] eqn:G; try discriminate.
      injection H as <-. exists ip, aws, ip', cro, g.
      rewrite reverseInPlace_rev. repeat split; assumption.
    + destruct (buildSubnetAddress_inv fuel vpc nets H) as (ip & b & p & Hb & Hp & HP & ->).
      destruct (network_facts b p Hb ltac:(lia)) as [RV AL].
      destruct (D_facts p _ ltac:(lia) RV AL) as (DE & HE & H2D & HVD).
      apply rev_blocksFrom_descending; lia.
  - intros fuel id Hf.
    rewrite (buildSubnetAddress_blocks fuel (vpc16 id) (IPv4 10 0 0 0) [10; 0; 0; 0] 16);
      [ | exists 10, 0, 0, 0; unfold isByte; repeat split; (reflexivity || lia)
        | lia | exact Hf | reflexivity ].
    change (2 ^ (32 - 16) * (ipValue [10; 0; 0; 0] / 2 ^ (32 - 16))) with 167772160.
    change (Z.to_nat (2 ^ (27 - 16))) with (S (Z.to_nat 2047)).
    rewrite rev_blocksFrom_S.
    exists (rev (blocksFrom 167772160 (Z.to_nat 2047))). split; [reflexivity|].
    apply Forall_forall. intros n Hn. apply in_rev, In_blocksFrom in Hn.
    destruct Hn as [k [Hk ->]]. rewrite block27_value by lia.
    change (ipValue [10; 0; 255; 224]) with 167837664. lia.
  - intros x Hx Hm C.
    apply Contains_4bytes_value in C;
      [ | lia | exists 10, 0, 0, 0; unfold isByte; repeat split; (reflexivity || lia)
        | exact Hx ].
    change (ipValue [10; 0; 0; 0] / 2 ^ (32 - 16)) with 2560 in C.
    change (2 ^ (32 - 16)) with 65536 in C.
    change (ipValue [10; 0; 255; 224]) with 167837664.
    Z.to_euclidean_division_equations; lia.
Qed.

Lemma buildSubnetAddress_reversed_highest_first_witness :
  (exists ip awsCIDR ip' croCIDR generated,
     ParseCIDR (CidrBlock vpc24) = Some (ip, awsCIDR) /\
     ParseCIDR (IPString (net_IP awsCIDR) ++ "/" ++ uitoa defaultSubnetMask)
     = Some (ip', croCIDR) /\
     generateAvailableSubnets 300%nat awsCIDR croCIDR = Done generated /\
     rev (blocksFrom 167772160 8%nat) = rev generated)
  /\ descending (rev (blocksFrom 167772160 8%nat)).
Proof.
  apply (proj1 buildSubnetAddress_reversed_highest_first 300%nat vpc24
           (rev (blocksFrom 167772160 8%nat))).
  vm_compute. reflexivity.
Defined.

End PlannerFacts.

(** ** The reconciliation against an arbitrary provider *)

Module ReconcilerFacts.
Import Net Errors Aws Vocabulary Examples.

Section WithProvider.

Context {S : Type}.
Variable cfg : Config.
Variable svc : Provider S.

Lemma request_run {A : Type} (r : Request) (f : S -> A * S) (w : World S) a s' :
  f (ext w) = (a, s') ->
  request r f w = (Done a, mkWorld s' (trace w ++ [r])).
Proof. intros H. unfold request. rewrite H. reflexivity. Qed.

Lemma lookup_run {A : Type} (f : S -> A * S) (w : World S) a s' :
  f (ext w) = (a, s') ->
  lookup f w = (Done a, mkWorld s' (trace w)).
Proof. intros H. unfold lookup. rewrite H. reflexivity. Qed.

Lemma bind_run {A B : Type} (m : M S A) (k : A -> M S B) w a w' :
  m w = (Done a, w') -> bind m k w = k a w'.
Proof. intros H. unfold bind. rewrite H. reflexivity. Qed.

Lemma extends_refl (w : World S) P : extends w w P.
Proof. exists []. split; [now rewrite app_nil_r | constructor]. Qed.

Lemma extends_trans (w1 w2 w3 : World S) P :
  extends w1 w2 P -> extends w2 w3 P -> extends w1 w3 P.
Proof.
  intros [a [Ha Fa]] [b [Hb Fb]]. exists (a ++ b). split.
  - rewrite Hb, Ha, app_assoc. reflexivity.
  - apply Forall_app; split; assumption.
Qed.

Lemma extends_weaken (w w' : World S) (P Q : Request -> Prop) :
  (forall r, P r -> Q r) -> extends w w' P -> extends w w' Q.
Proof.
  intros PQ [a [Ha Fa]]. exists a. split; [assumption|].
  eapply Forall_impl; eauto.
Qed.

Lemma request_extends {A : Type} (r : Request) (f : S -> A * S) w (P : Request -> Prop) :
  P r -> extends w (snd (request r f w)) P.
Proof.
  intros Pr. unfold request. destruct (f (ext w)) as [a s']. simpl.
  exists [r]. split; [reflexivity | repeat constructor; assumption].
Qed.

Lemma lookup_extends {A : Type} (f : S -> A * S) w P :
  extends w (snd (lookup f w)) P.
Proof.
  unfold lookup. destruct (f (ext w)) as [a s']. simpl.
  exists []. split; [now rewrite app_nil_r | constructor].
Qed.

Lemma bind_extends {A B : Type} (m : M S A) (k : A -> M S B) w P :
  extends w (snd (m w)) P ->
  (forall a w', m w = (Done a, w') -> extends w' (snd (k a w')) P) ->
  extends w (snd (bind m k w)) P.
Proof.
  intros Hm Hk. unfold bind. destruct (m w) as [[a| |] w'] eqn:E; simpl in *.
  - eapply extends_trans; [exact Hm | apply Hk; reflexivity].
  - exact Hm.
  - exact Hm.
Qed.

Lemma pollSubnets_extends retries w :
  extends w (snd (pollSubnets svc retries w)) isDescribe.
Proof.
  revert w. induction retries as [|n IH]; intros w; simpl;
    (apply bind_extends; [apply request_extends; exact I|]);
    intros [subs|e] w' _; try apply extends_refl.
  apply IH.
Qed.

Lemma getClusterVpc_extends w :
  extends w (snd (getClusterVpc cfg svc w)) isDescribe.
Proof.
  unfold getClusterVpc.
  apply bind_extends; [apply lookup_extends|]. intros [id|e] w1 _; [|apply extends_refl].
  apply bind_extends.
  - unfold getVPCIDByClusterSubnets.
    apply bind_extends; [apply request_extends; exact I|].
    intros [subs|e] w2 _; [|apply extends_refl].
    destruct (firstClusterVpc cfg id subs); apply extends_refl.
  - intros [vpcId [e|]] w2 _; [apply extends_refl|].
    apply bind_extends; [apply request_extends; exact I|].
    intros [[|v [|v' l]]|e] w3 _; apply extends_refl.
Qed.

Lemma GetVPCSubnets_extends vpc w :
  extends w (snd (GetVPCSubnets cfg svc vpc w)) isDescribe.
Proof.
  unfold GetVPCSubnets, getSubnets.
  apply bind_extends; [apply pollSubnets_extends|].
  intros [subs [e|]] w1 _; [apply extends_refl|].
  destruct vpc as [v|]; [|apply extends_refl].
  destruct (filter _ subs); apply extends_refl.
Qed.

Lemma getAZs_extends w : extends w (snd (getAZs svc w)) isDescribe.
Proof.
  unfold getAZs. apply bind_extends; [apply request_extends; exact I|].
  intros [azs|e] w1 _; apply extends_refl.
Qed.

Lemma tagPrivateSubnet_extends sub w :
  extends w (snd (tagPrivateSubnet cfg svc sub w)) isCreateOrTag.
Proof.
  unfold tagPrivateSubnet, getDefaultSubnetTags.
  apply bind_extends.
  - apply bind_extends; [apply lookup_extends|].
    intros [id|e] w1 _; [|apply extends_refl].
    apply bind_extends; [apply lookup_extends|].
    intros [[|t l]|e] w2 _; apply extends_refl.
  - intros [tags [e|]] w1 _; [apply extends_refl|].
    apply bind_extends; [apply request_extends; exact I|].
    intros [e|] w2 _; apply extends_refl.
Qed.

Lemma createLoop_extends vpc zone subs w :
  extends w (snd (createLoop cfg svc vpc zone subs w)) isCreateOrTag.
Proof.
  revert w. induction subs as [|ip rest IH]; intros w; simpl; [apply extends_refl|].
  apply bind_extends; [apply request_extends; exact I|].
  intros r w1 _.
  destruct (awsCode _) as [code|].
  - destruct (String.eqb code _); [apply IH | apply extends_refl].
  - destruct r as [created|e]; [|apply extends_refl].
    apply bind_extends; [apply tagPrivateSubnet_extends|].
    intros [e|] w2 _; apply extends_refl.
Qed.

Lemma createPrivateSubnet_extends fuel vpc zone w :
  extends w (snd (createPrivateSubnet cfg svc fuel vpc zone w)) isCreateOrTag.
Proof.
  unfold createPrivateSubnet. destruct vpc as [v|]; [|apply extends_refl].
  apply bind_extends; [apply extends_refl|].
  intros [subs [e|]] w1 _; [apply extends_refl | apply createLoop_extends].
Qed.

Lemma reconcileZones_extends fuel vpc azs privSubs w :
  extends w (snd (reconcileZones cfg svc fuel vpc azs privSubs w)) isCreateOrTag.
Proof.
  revert privSubs w. induction azs as [|az rest IH]; intros privSubs w; simpl;
    [apply extends_refl|].
  apply bind_extends; [apply extends_refl|].
  intros covered w1 _. destruct covered; simpl; [apply IH|].
  apply bind_extends; [apply createPrivateSubnet_extends|].
  intros [subnet [e|]] w2 _; [apply extends_refl | apply IH].
Qed.

(** When the planner succeeds, [createPrivateSubnet] is its loop over the
    candidates. *)
Lemma createPrivateSubnet_runs_loop fuel vpc zone cands w :
  buildSubnetAddress fuel vpc = Done (cands, None) ->
  createPrivateSubnet cfg svc fuel (Some vpc) zone w = createLoop cfg svc vpc zone cands w.
Proof.
  intros H. unfold createPrivateSubnet, bind, lift. rewrite H. reflexivity.
Qed.

Lemma createLoop_cons vpc zone ip rest w r s' :
  CreateSubnet svc (mkCreateSubnetInput zone (IPNetString ip) (VpcId vpc)) (ext w) = (r, s') ->
  createLoop cfg svc vpc zone (ip :: rest) w =
  let w1 := mkWorld s' (trace w ++ [CreateSubnetReq (mkCreateSubnetInput zone (IPNetString ip) (VpcId vpc))]) in
  match awsCode (match r with inr e => Some e | inl _ => None end) with
  | Some code =>
      if String.eqb code "InvalidSubnet.Conflict" then createLoop cfg svc vpc zone rest w1
      else (Done (None, Wrap (match r with inr e => Some e | inl _ => None end)
                             "error creating new subnet"), w1)
  | None =>
      match r with
      | inr e => (Done (None, Some (Wrapped e "error creating new subnet")), w1)
      | inl created =>
          bind (tagPrivateSubnet cfg svc created)
               (fun newErr => match newErr with
                              | Some _ => ret (None, newErr)
                              | None => ret (Some created, None)
                              end) w1
      end
  end.
Proof.
  intros H. cbn [createLoop]. rewrite (bind_run _ _ _ _ _ (request_run _ _ _ _ _ H)).
  cbv zeta. destruct (awsCode _) as [code|].
  - destruct (String.eqb code _); reflexivity.
  - destruct r; reflexivity.
Qed.

(** If every creation request is answered with the address conflict, the loop
    tries every candidate and ends with a nil subnet and a nil error. *)
Lemma createLoop_all_conflict vpc zone :
  (forall input s, exists msg s',
      CreateSubnet svc input s = (inr (AwsError "InvalidSubnet.Conflict" msg), s')) ->
  forall cands w, exists w',
    createLoop cfg svc vpc zone cands w = (Done (None, None), w') /\
    trace w' = trace w ++
      map (fun ip => CreateSubnetReq (mkCreateSubnetInput zone (IPNetString ip) (VpcId vpc))) cands.
Proof.
  intros Hc. induction cands as [|ip rest IH]; intros w.
  - exists w. split; [reflexivity | now rewrite app_nil_r].
  - destruct (Hc (mkCreateSubnetInput zone (IPNetString ip) (VpcId vpc)) (ext w)) as [msg [s' E]].
    rewrite (createLoop_cons _ _ _ _ _ _ _ E). cbn.
    destruct (IH (mkWorld s' (trace w ++
               [CreateSubnetReq (mkCreateSubnetInput zone (IPNetString ip) (VpcId vpc))])))
      as [w' [R T]].
    exists w'. split; [exact R|]. rewrite T. cbn. rewrite <- app_assoc. reflexivity.
Qed.

(** C5: in the candidate loop of createPrivateSubnet, a creation attempt
    answered with the AWS error code InvalidSubnet.Conflict drops the
    candidate and goes on with the next one, the conflict itself reaching no
    caller; an attempt answered with any other error ends the loop at once
    with that error wrapped as "error creating new subnet".  The first part
    says that createPrivateSubnet is this loop over the planner's candidates. *)
Theorem createPrivateSubnet_conflict_continues_other_aborts
    (fuel : nat) (vpc : Vpc) (zone : string) (cands : list IPNet)
    (ip : IPNet) (rest : list IPNet) (w : World S) (e : error) (s' : S) :
  let input := mkCreateSubnetInput zone (IPNetString ip) (VpcId vpc) in
  let w1 := mkWorld s' (trace w ++ [CreateSubnetReq input]) in
  CreateSubnet svc input (ext w) = (inr e, s') ->
  (buildSubnetAddress fuel vpc = Done (cands, None) ->
   createPrivateSubnet cfg svc fuel (Some vpc) zone = createLoop cfg svc vpc zone cands)
  /\ (awsCode (Some e) = Some "InvalidSubnet.Conflict"%string ->
      createLoop cfg svc vpc zone (ip :: rest) w = createLoop cfg svc vpc zone rest w1)
  /\ (awsCode (Some e) <> Some "InvalidSubnet.Conflict"%string ->
      createLoop cfg svc vpc zone (ip :: rest) w =
      (Done (None, Some (Wrapped e "error creating new subnet")), w1)).
Proof.
  intros input w1 E. split; [|split].
  - intros H. unfold createPrivateSubnet, bind, lift. rewrite H. reflexivity.
  - intros Hc. rewrite (createLoop_cons _ _ _ _ _ _ _ E). cbv zeta.
    rewrite Hc. reflexivity.
  - intros Hc. rewrite (createLoop_cons _ _ _ _ _ _ _ E). cbv zeta.
    destruct (awsCode (Some e)) as [code|] eqn:A; [|reflexivity].
    destruct (String.eqb code "InvalidSubnet.Conflict") eqn:Q; [|reflexivity].
    apply String.eqb_eq in Q. subst code. congruence.
Qed.

(** C8: when the creation request succeeds and tagPrivateSubnet then fails,
    the loop of createPrivateSubnet returns that tagging error with a nil
    subnet and stops in the world the tagging left; and no run of
    createPrivateSubnet ever issues a subnet-deletion request, so the created
    subnet stays. *)
Theorem createPrivateSubnet_tagging_failure_keeps_subnet
    (vpc : Vpc) (zone : string) (ip : IPNet) (rest : list IPNet)
    (w w2 : World S) (created : Subnet) (s' : S) (e : error) :
  let input := mkCreateSubnetInput zone (IPNetString ip) (VpcId vpc) in
  let w1 := mkWorld s' (trace w ++ [CreateSubnetReq input]) in
  CreateSubnet svc input (ext w) = (inl created, s') ->
  tagPrivateSubnet cfg svc created w1 = (Done (Some e), w2) ->
  createLoop cfg svc vpc zone (ip :: rest) w = (Done (None, Some e), w2)
  /\ extends w w2 (fun r => isDeleteSubnet r = false)
  /\ (forall fuel v z w0,
        extends w0 (snd (createPrivateSubnet cfg svc fuel v z w0))
                (fun r => isDeleteSubnet r = false)).
Proof.
  intros input w1 E T.
  assert (R : createLoop cfg svc vpc zone (ip :: rest) w = (Done (None, Some e), w2)).
  { rewrite (createLoop_cons _ _ _ _ _ _ _ E). cbn. unfold bind.
    fold input. fold w1. rewrite T. reflexivity. }
  assert (ND : forall r, isCreateOrTag r -> isDeleteSubnet r = false)
    by (intros [| | | | |]; simpl; tauto).
  split; [exact R|]. split.
  - apply (extends_weaken _ _ _ _ ND).
    pose proof (createLoop_extends vpc zone (ip :: rest) w) as X.
    rewrite R in X. exact X.
  - intros fuel v z w0. apply (extends_weaken _ _ _ _ ND).
    apply createPrivateSubnet_extends.
Qed.

(** C9: called with a nil VPC after a successful subnet listing,
    GetVPCSubnets returns a nil list and a nil error: the guard wraps the nil
    error of the listing, and wrapping nil gives nil. *)
Theorem GetVPCSubnets_nil_vpc_returns_nil_nil
    (w w' : World S) (subs : list Subnet) :
  getSubnets cfg svc w = (Done (subs, None), w') ->
  GetVPCSubnets cfg svc None w = (Done ([], None), w').
Proof.
  intros H. unfold GetVPCSubnets. rewrite (bind_run _ _ _ _ _ H). reflexivity.
Qed.

Lemma bind_trace_prefix {A B : Type} (m : M S A) (k : A -> M S B) w r (P : Request -> Prop) :
  (exists more, trace (snd (m w)) = trace w ++ r :: more) ->
  (forall a w', extends w' (snd (k a w')) P) ->
  exists more, trace (snd (bind m k w)) = trace w ++ r :: more.
Proof.
  intros [more Hm] Hk. unfold bind. destruct (m w) as [[a| |] w'] eqn:E; simpl in *;
    try (exists more; exact Hm).
  destruct (Hk a w') as [added [Ha _]]. exists (more ++ added).
  rewrite Ha, Hm, <- app_assoc. reflexivity.
Qed.

(** The loop over a non-empty list of candidates starts with a creation
    request for the first of them. *)
Lemma createLoop_first_request vpc zone ip rest w :
  exists more,
    trace (snd (createLoop cfg svc vpc zone (ip :: rest) w)) =
    trace w ++ CreateSubnetReq (mkCreateSubnetInput zone (IPNetString ip) (VpcId vpc)) :: more.
Proof.
  cbn [createLoop]. apply bind_trace_prefix with (P := isCreateOrTag).
  - unfold request. destruct (CreateSubnet svc _ (ext w)) as [r s']. simpl.
    exists []. reflexivity.
  - intros r w'. destruct (awsCode _) as [code|].
    + destruct (String.eqb code _); [apply createLoop_extends | apply extends_refl].
    + destruct r as [created|e]; [|apply extends_refl].
      apply bind_extends; [apply tagPrivateSubnet_extends|].
      intros [e|] w2 _; apply extends_refl.
Qed.

(** *** Coverage of a zone *)

Lemma privateSubnetExists_unavailable privSubs az :
  State az <> "available"%string ->
  Forall (fun s => s <> None) privSubs ->
  privateSubnetExists privSubs az = Done false.
Proof.
  intros Hs. induction 1 as [|[sub|] l Hx Hl IH]; simpl; [reflexivity| |congruence].
  destruct (String.eqb (State az) "available") eqn:Q.
  - apply String.eqb_eq in Q. contradiction.
  - rewrite andb_false_r. exact IH.
Qed.

Lemma privateSubnetExists_true_iff privSubs az :
  Forall (fun s => s <> None) privSubs ->
  privateSubnetExists privSubs az = Done true <->
  State az = "available"%string /\
  exists sub, In (Some sub) privSubs /\ Subnet_AvailabilityZone sub = ZoneName az.
Proof.
  induction 1 as [|[sub|] l Hx Hl IH]; simpl.
  - split; [discriminate | intros [_ [sub [[] _]]]].
  - destruct (String.eqb (Subnet_AvailabilityZone sub) (ZoneName az)) eqn:Qa;
      destruct (String.eqb (State az) "available") eqn:Qs; simpl.
    + apply String.eqb_eq in Qa, Qs. split; [|reflexivity].
      intros _. split; [exact Qs|]. exists sub. split; [now left | exact Qa].
    + apply String.eqb_neq in Qs. rewrite IH. tauto.
    + apply String.eqb_neq in Qa. rewrite IH. split.
      * intros [Hs [x [Hi Hz]]]. split; [exact Hs|]. exists x. split; [now right | exact Hz].
      * intros [Hs [x [[Hi|Hi] Hz]]]; [congruence|]. split; [exact Hs|]. now exists x.
    + apply String.eqb_neq in Qs. rewrite IH. tauto.
  - congruence.
Qed.

Lemma privateSubnetExists_uncovered privSubs az :
  Forall (fun s => s <> None) privSubs ->
  (forall sub, In (Some sub) privSubs -> Subnet_AvailabilityZone sub <> ZoneName az) ->
  privateSubnetExists privSubs az = Done false.
Proof.
  induction 1 as [|[sub|] l Hx Hl IH]; intros Hz; simpl; [reflexivity| |congruence].
  assert (Q : String.eqb (Subnet_AvailabilityZone sub) (ZoneName az) = false).
  { apply String.eqb_neq. apply Hz. now left. }
  rewrite Q. cbn [andb]. apply IH. intros x Hi. apply Hz. now right.
Qed.

(** C2, as the code has it: the lifecycle state exempts no zone.  A zone in
    which no private subnet lies, whatever its state, also one that is not
    "available", counts as uncovered, and when the loop of
    GetPrivateSubnetIDS reaches it, with private subnets that are not nil
    and a planner that returns at least one candidate for the VPC block, the
    first request issued is a subnet-creation request for that very zone,
    with the planner's first candidate; a zone that is "available" and in
    which a private subnet lies is passed over with no request. *)
Theorem reconcileZones_targets_zone_without_private_subnet
    (fuel : nat) (vpc : Vpc) (az : AvailabilityZone) (rest : list AvailabilityZone)
    (privSubs : list (option Subnet)) (ip : IPNet) (cands : list IPNet) (w : World S) :
  Forall (fun s => s <> None) privSubs ->
  buildSubnetAddress fuel vpc = Done (ip :: cands, None) ->
  ((forall sub, In (Some sub) privSubs -> Subnet_AvailabilityZone sub <> ZoneName az) ->
   privateSubnetExists privSubs az = Done false /\
   exists more,
     trace (snd (reconcileZones cfg svc fuel (Some vpc) (az :: rest) privSubs w)) =
     trace w ++ CreateSubnetReq (mkCreateSubnetInput (ZoneName az) (IPNetString ip) (VpcId vpc))
             :: more)
  /\ (State az = "available"%string /\
      (exists sub, In (Some sub) privSubs /\ Subnet_AvailabilityZone sub = ZoneName az) ->
      reconcileZones cfg svc fuel (Some vpc) (az :: rest) privSubs w =
      reconcileZones cfg svc fuel (Some vpc) rest privSubs w).
Proof.
  intros Hn Hb. split.
  - intros Hz. pose proof (privateSubnetExists_uncovered _ _ Hn Hz) as Hf.
    split; [exact Hf|].
    cbn [reconcileZones]. unfold bind at 1, lift at 1. rewrite Hf. cbn [negb].
    apply bind_trace_prefix with (P := isCreateOrTag).
    + rewrite (createPrivateSubnet_runs_loop _ _ _ _ _ Hb).
      apply createLoop_first_request.
    + intros [subnet [e|]] w'; [apply extends_refl | apply reconcileZones_extends].
  - intros Hc. apply (privateSubnetExists_true_iff _ az Hn) in Hc.
    cbn [reconcileZones]. unfold bind at 1, lift at 1. rewrite Hc. reflexivity.
Qed.

(** *** A region that is already covered *)

Lemma In_privateSubnets subs o :
  In o (privateSubnets subs) <->
  exists sub, o = Some sub /\ In sub subs /\ hasPrivateTag sub = true.
Proof.
  unfold privateSubnets, hasPrivateTag. rewrite in_flat_map. split.
  - intros [sub [Hi Hf]]. apply in_flat_map in Hf. destruct Hf as [t [Ht Hx]].
    destruct (String.eqb (Key t) defaultAWSPrivateSubnetTagKey) eqn:Q; [|destruct Hx].
    destruct Hx as [Hx|[]]. exists sub. split; [congruence|]. split; [exact Hi|].
    apply existsb_exists. exists t. split; assumption.
  - intros [sub [-> [Hi Hf]]]. exists sub. split; [exact Hi|].
    apply existsb_exists in Hf. destruct Hf as [t [Ht Q]].
    apply in_flat_map. exists t. split; [exact Ht|]. rewrite Q. now left.
Qed.

Lemma privateSubnets_not_nil subs : Forall (fun s => s <> None) (privateSubnets subs).
Proof.
  apply Forall_forall. intros o Ho. apply In_privateSubnets in Ho.
  destruct Ho as [sub [-> _]]. discriminate.
Qed.

Lemma subnetIDs_not_nil l :
  Forall (fun s : option Subnet => s <> None) l ->
  exists ids, subnetIDs l = Done ids /\
    (forall id, In id ids <-> exists sub, In (Some sub) l /\ SubnetId sub = id) /\
    (l <> [] -> ids <> []).
Proof.
  induction 1 as [|[sub|] l Hx Hl [ids [E [Hi Hne]]]]; simpl.
  - exists []. split; [reflexivity|]. split; [|congruence].
    intros id; split; [intros [] | intros [sub [[] _]]].
  - rewrite E. exists (SubnetId sub :: ids). split; [reflexivity|]. split; [|discriminate].
    intros id. simpl. rewrite Hi. split.
    + intros [<-|[x [Hx' <-]]]; [exists sub; split; [now left | reflexivity]|].
      exists x. split; [now right | reflexivity].
    + intros [x [[Hx'|Hx'] <-]]; [left; congruence | right; now exists x].
  - congruence.
Qed.

Lemma reconcileZones_covered fuel vpc azs privSubs w :
  (forall az, In az azs -> privateSubnetExists privSubs az = Done true) ->
  reconcileZones cfg svc fuel vpc azs privSubs w = (Done (privSubs, None), w).
Proof.
  induction azs as [|az rest IH]; intros H; [reflexivity|].
  cbn [reconcileZones]. unfold bind at 1, lift at 1.
  rewrite (H az (or_introl eq_refl)). cbn [negb]. apply IH.
  intros az' Hi. apply H. now right.
Qed.

(** C7: when every availability zone of the region (there is at least one)
    is "available" and holds a subnet of the VPC that carries the
    private-subnet tag, GetPrivateSubnetIDS issues no subnet-creation
    request, only the look-ups, and returns without error exactly the
    identifiers of the VPC's subnets that carry the tag. *)
Theorem GetPrivateSubnetIDS_covered_creates_nothing
    (fuel : nat) (w w1 w2 w3 : World S) (vpc : Vpc)
    (subs : list Subnet) (azs : list AvailabilityZone) :
  getClusterVpc cfg svc w = (Done (Some vpc, None), w1) ->
  GetVPCSubnets cfg svc (Some vpc) w1 = (Done (subs, None), w2) ->
  getAZs svc w2 = (Done (azs, None), w3) ->
  azs <> [] ->
  (forall az, In az azs ->
     State az = "available"%string /\
     exists sub, In sub subs /\ hasPrivateTag sub = true /\
                 Subnet_AvailabilityZone sub = ZoneName az) ->
  exists ids,
    GetPrivateSubnetIDS cfg svc fuel w = (Done (ids, None), w3)
    /\ extends w w3 (fun r => isCreateSubnet r = false)
    /\ (forall id, In id ids <->
          exists sub, In sub subs /\ hasPrivateTag sub = true /\ SubnetId sub = id).
Proof.
  intros Hv Hs Ha Hne Hcov.
  pose proof (privateSubnets_not_nil subs) as Hnn.
  assert (Hall : forall az, In az azs ->
            privateSubnetExists (privateSubnets subs) az = Done true).
  { intros az Hi. apply (privateSubnetExists_true_iff _ az Hnn).
    destruct (Hcov az Hi) as [Hst [sub [Hin [Ht Hz]]]]. split; [exact Hst|].
    exists sub. split; [|exact Hz]. apply In_privateSubnets. now exists sub. }
  destruct (subnetIDs_not_nil _ Hnn) as [ids [Eids [Hids Hnil]]].
  assert (Hp : privateSubnets subs <> []).
  { destruct azs as [|az rest]; [congruence|].
    destruct (Hcov az (or_introl eq_refl)) as [_ [sub [Hin [Ht _]]]].
    intros C. assert (X : In (Some sub) (privateSubnets subs))
      by (apply In_privateSubnets; now exists sub).
    rewrite C in X. destruct X. }
  exists ids. split; [|split].
  - unfold GetPrivateSubnetIDS.
    rewrite (bind_run _ _ _ _ _ Hv). rewrite (bind_run _ _ _ _ _ Hs).
    rewrite (bind_run _ _ _ _ _ Ha).
    rewrite (bind_run _ _ _ _ _ (reconcileZones_covered fuel (Some vpc) azs _ w3 Hall)).
    unfold bind, lift. rewrite Eids.
    destruct ids as [|i l]; [exfalso; now apply (Hnil Hp) | reflexivity].
  - assert (D : forall r, isDescribe r -> isCreateSubnet r = false)
      by (intros [| | | | |]; simpl; tauto).
    apply (extends_weaken _ _ _ _ D).
    pose proof (getClusterVpc_extends w) as X1. rewrite Hv in X1.
    pose proof (GetVPCSubnets_extends (Some vpc) w1) as X2. rewrite Hs in X2.
    pose proof (getAZs_extends w2) as X3. rewrite Ha in X3.
    exact (extends_trans _ _ _ _ (extends_trans _ _ _ _ X1 X2) X3).
  - intros id. rewrite Hids. split.
    + intros [sub [Hi <-]]. apply In_privateSubnets in Hi.
      destruct Hi as [x [Hx [Hin Ht]]]. injection Hx as <-. now exists sub.
    + intros [sub [Hin [Ht <-]]]. exists sub. split; [|reflexivity].
      apply In_privateSubnets. now exists sub.
Qed.

End WithProvider.

(** *** Runs against the example providers *)

(** C1: with the VPC block 10.0.0.0/26 and a provider that answers every
    creation request with InvalidSubnet.Conflict, createPrivateSubnet tries
    the two candidates, creates nothing, and returns a nil subnet together
    with a nil error: no error reports the exhausted address space. *)
Theorem createPrivateSubnet_exhausted_returns_nil_nil :
  createPrivateSubnet exampleConfig (stubProvider [] [] [] alwaysConflict None)
                      100 (Some vpc26) "eu-west-1b" start
  = (Done (None, None),
     mkWorld tt
       [CreateSubnetReq (mkCreateSubnetInput "eu-west-1b" "10.0.0.32/27" "vpc-1");
        CreateSubnetReq (mkCreateSubnetInput "eu-west-1b" "10.0.0.0/27" "vpc-1")]).
Proof. vm_compute. reflexivity. Qed.

(** The caller then appends the nil subnet and panics on it. *)
Lemma GetPrivateSubnetIDS_panics_after_exhaustion :
  fst (GetPrivateSubnetIDS exampleConfig
         (stubProvider [privateSubnetA] [zoneA; mkAZ "eu-west-1b" "available"] [vpc26]
                       alwaysConflict None) 100 start) = Panic.
Proof. vm_compute. reflexivity. Qed.

(** C2 fails: the zone eu-west-1b is "impaired" and has no private subnet,
    and the run of GetPrivateSubnetIDS issues a subnet-creation request that
    targets it. *)
Lemma impaired_zone_gets_creation_request :
  State zoneB <> "available"%string
  /\ existsb (fun sub => String.eqb (Subnet_AvailabilityZone sub) (ZoneName zoneB))
             [privateSubnetA] = false
  /\ existsb (targetsZone (ZoneName zoneB))
       (trace (snd (GetPrivateSubnetIDS exampleConfig
                      (stubProvider [privateSubnetA] [zoneA; zoneB] [vpc26] alwaysCreate None)
                      100 start))) = true.
Proof. split; [discriminate|]. split; vm_compute; reflexivity. Qed.

Lemma reconcileZones_targets_zone_without_private_subnet_witness :
  State zoneB <> "available"%string
  /\ privateSubnetExists [Some privateSubnetA] zoneB = Done false
  /\ exists more,
       trace (snd (reconcileZones exampleConfig
                     (stubProvider [privateSubnetA] [zoneA; zoneB] [vpc26] alwaysCreate None)
                     100 (Some vpc26) [zoneB] [Some privateSubnetA] start))
       = trace start
         ++ CreateSubnetReq (mkCreateSubnetInput (ZoneName zoneB) (IPNetString net32)
                                                 (VpcId vpc26)) :: more.
Proof.
  split; [discriminate|].
  refine (proj1 (reconcileZones_targets_zone_without_private_subnet exampleConfig
            (stubProvider [privateSubnetA] [zoneA; zoneB] [vpc26] alwaysCreate None)
            100 vpc26 zoneB [] [Some privateSubnetA] net32 [net0] start _ _) _).
  - repeat constructor. discriminate.
  - vm_compute. reflexivity.
  - intros sub [H|[]]. injection H as <-. discriminate.
Defined.

(** The guard on an empty result: for a region that lists no availability
    zone and a VPC without a tagged subnet no creation request is issued,
    and the function returns an error and not an empty list of
    identifiers. *)
Lemma GetPrivateSubnetIDS_no_zone_is_error :
  let svc := stubProvider [clusterSubnet] [] [vpc26] alwaysCreate None in
  fst (getAZs svc start) = Done ([], None)
  /\ Forall (fun az => State az = "available"%string /\
               exists sub, In sub [clusterSubnet] /\ hasPrivateTag sub = true /\
                           Subnet_AvailabilityZone sub = ZoneName az) []
  /\ existsb isCreateSubnet
       (trace (snd (GetPrivateSubnetIDS exampleConfig svc 100 start))) = false
  /\ fst (GetPrivateSubnetIDS exampleConfig svc 100 start)
     = Done ([], Some (New "failed to get list of private subnet ids")).
Proof.
  cbv zeta. split; [reflexivity|]. split; [constructor|]. split; vm_compute; reflexivity.
Qed.

Lemma GetPrivateSubnetIDS_covered_witness :
  exists ids,
    GetPrivateSubnetIDS exampleConfig
      (stubProvider [privateSubnetA] [zoneA] [vpc26] alwaysCreate None) 100 start
    = (Done (ids, None),
       mkWorld tt [DescribeSubnetsReq; DescribeVpcsReq ["vpc-1"%string];
                   DescribeSubnetsReq; DescribeAvailabilityZonesReq])
    /\ extends start
         (mkWorld tt [DescribeSubnetsReq; DescribeVpcsReq ["vpc-1"%string];
                      DescribeSubnetsReq; DescribeAvailabilityZonesReq])
         (fun r => isCreateSubnet r = false)
    /\ (forall id, In id ids <->
          exists sub, In sub [privateSubnetA] /\ hasPrivateTag sub = true /\ SubnetId sub = id).
Proof.
  refine (GetPrivateSubnetIDS_covered_creates_nothing exampleConfig
            (stubProvider [privateSubnetA] [zoneA] [vpc26] alwaysCreate None)
            100 start
            (mkWorld tt [DescribeSubnetsReq; DescribeVpcsReq ["vpc-1"%string]])
            (mkWorld tt [DescribeSubnetsReq; DescribeVpcsReq ["vpc-1"%string];
                         DescribeSubnetsReq])
            _ vpc26 [privateSubnetA] [zoneA] _ _ _ _ _).
  - reflexivity.
  - reflexivity.
  - reflexivity.
  - discriminate.
  - intros az [<-|[]]. split; [reflexivity|].
    exists privateSubnetA. split; [now left|]. split; reflexivity.
Defined.

Lemma createPrivateSubnet_conflict_continues_other_aborts_witness :
  (createLoop exampleConfig (stubProvider [] [] [] alwaysConflict None)
              vpc26 "eu-west-1b" [net32; net0] start
   = createLoop exampleConfig (stubProvider [] [] [] alwaysConflict None)
                vpc26 "eu-west-1b" [net0]
                (mkWorld tt [CreateSubnetReq
                               (mkCreateSubnetInput "eu-west-1b" (IPNetString net32) "vpc-1")]))
  /\ (createLoop exampleConfig
                 (stubProvider [] [] [] (fun _ => inr (New "request limit exceeded")) None)
                 vpc26 "eu-west-1b" [net32; net0] start
      = (Done (None, Some (Wrapped (New "request limit exceeded") "error creating new subnet")),
         mkWorld tt [CreateSubnetReq
                       (mkCreateSubnetInput "eu-west-1b" (IPNetString net32) "vpc-1")])).
Proof.
  split.
  - refine (proj1 (proj2 (createPrivateSubnet_conflict_continues_other_aborts exampleConfig
              (stubProvider [] [] [] alwaysConflict None)
              100 vpc26 "eu-west-1b" [net32; net0] net32 [net0] start conflict tt _)) _);
      reflexivity.
  - refine (proj2 (proj2 (createPrivateSubnet_conflict_continues_other_aborts exampleConfig
              (stubProvider [] [] [] (fun _ => inr (New "request limit exceeded")) None)
              100 vpc26 "eu-west-1b" [net32; net0] net32 [net0] start
              (New "request limit exceeded") tt _)) _);
      [reflexivity | discriminate].
Defined.

Lemma createPrivateSubnet_tagging_failure_witness :
  let svc := stubProvider [] [] [] alwaysCreate (Some (New "tagging denied")) in
  let input := mkCreateSubnetInput "eu-west-1b" (IPNetString net32) "vpc-1" in
  let w1 := mkWorld tt [CreateSubnetReq input] in
  let w2 := snd (tagPrivateSubnet exampleConfig svc (created input) w1) in
  createLoop exampleConfig svc vpc26 "eu-west-1b" [net32; net0] start
  = (Done (None, Some (Wrapped (New "tagging denied") "failed to tag subnet")), w2)
  /\ extends start w2 (fun r => isDeleteSubnet r = false).
Proof.
  cbv zeta.
  pose proof (createPrivateSubnet_tagging_failure_keeps_subnet exampleConfig
                (stubProvider [] [] [] alwaysCreate (Some (New "tagging denied")))
                vpc26 "eu-west-1b" net32 [net0] start
                (snd (tagPrivateSubnet exampleConfig
                        (stubProvider [] [] [] alwaysCreate (Some (New "tagging denied")))
                        (created (mkCreateSubnetInput "eu-west-1b" (IPNetString net32) "vpc-1"))
                        (mkWorld tt [CreateSubnetReq
                           (mkCreateSubnetInput "eu-west-1b" (IPNetString net32) "vpc-1")])))
                (created (mkCreateSubnetInput "eu-west-1b" (IPNetString net32) "vpc-1"))
                tt (Wrapped (New "tagging denied") "failed to tag subnet")
                eq_refl eq_refl) as H.
  exact (conj (proj1 H) (proj1 (proj2 H))).
Defined.

Lemma GetVPCSubnets_nil_vpc_witness :
  GetVPCSubnets exampleConfig
    (stubProvider [privateSubnetA] [zoneA] [vpc26] alwaysCreate None) None start
  = (Done ([], None), mkWorld tt [DescribeSubnetsReq]).
Proof.
  apply (GetVPCSubnets_nil_vpc_returns_nil_nil exampleConfig
           (stubProvider [privateSubnetA] [zoneA] [vpc26] alwaysCreate None)
           start (mkWorld tt [DescribeSubnetsReq]) [privateSubnetA]).
  reflexivity.
Defined.

End ReconcilerFacts.

(** ** More on the address planner *)

Module PlannerExtras.
Import Net Errors Aws Vocabulary Examples PlannerFacts.

(** [To4] answers nil or four bytes. *)
Lemma To4_nil_or_four ip :
  To4 ip = [] \/ exists b0 b1 b2 b3, To4 ip = [b0; b1; b2; b3].
Proof.
  unfold To4.
  destruct (Nat.eqb (List.length ip) IPv4len) eqn:L4.
  - apply Nat.eqb_eq in L4. destruct ip as [|b0 [|b1 [|b2 [|b3 [|b4 ip]]]]]; try discriminate.
    right. now exists b0, b1, b2, b3.
  - destruct (Nat.eqb (List.length ip) IPv6len && isZeros (firstn 10 ip)
              && (nth 10 ip 0 =? 255) && (nth 11 ip 0 =? 255)) eqn:C; [|now left].
    repeat (apply andb_true_iff in C; destruct C as [C ?]).
    apply Nat.eqb_eq in C.
    do 16 (destruct ip as [|? ip]; [discriminate|]). destruct ip; [|discriminate].
    right. cbn. eauto.
Qed.

(** X1: incrementIP panics (indexes a nil slice) exactly on the addresses
    whose To4 is nil, whatever the increment: the nil address, and every
    address that is neither four bytes long nor an IPv4-mapped 16-byte one. *)
Theorem incrementIP_panics_iff_not_IPv4 :
  (forall (ip : IP) (inc : Z), incrementIP ip inc = None <-> To4 ip = [])
  /\ (forall inc, incrementIP [] inc = None)
  /\ (forall (ip : IP) (inc : Z),
        List.length ip <> 4%nat -> List.length ip <> 16%nat -> incrementIP ip inc = None).
Proof.
  assert (A : forall ip inc, incrementIP ip inc = None <-> To4 ip = []).
  { intros ip inc. unfold incrementIP.
    destruct (To4_nil_or_four ip) as [E|(b0 & b1 & b2 & b3 & E)]; rewrite E.
    - tauto.
    - split; discriminate. }
  split; [exact A|]. split; [reflexivity|].
  intros ip inc H4 H16. apply A. unfold To4.
  destruct (Nat.eqb (List.length ip) IPv4len) eqn:L4; [apply Nat.eqb_eq in L4; contradiction|].
  destruct (Nat.eqb (List.length ip) IPv6len) eqn:L6; [apply Nat.eqb_eq in L6; contradiction|].
  reflexivity.
Qed.

(** X2: incrementing twice is incrementing by the sum: the address
    incrementIP returned is again an IPv4 address, and incrementing it by b
    gives what incrementing the first address by a + b gives. *)
Theorem incrementIP_twice_is_sum (ip r : IP) (a b : Z) :
  isIPv4Bytes (To4 ip) ->
  incrementIP ip a = Some r ->
  isIPv4Bytes (To4 r) /\ incrementIP r b = incrementIP ip (a + b).
Proof.
  intros (b0 & b1 & b2 & b3 & E & H0 & H1 & H2 & H3) Hr.
  rewrite (incrementIP_value ip a b0 b1 b2 b3 E H0 H1 H2 H3) in Hr. injection Hr as <-.
  set (v := (ipValue [b0; b1; b2; b3] + a) mod 2 ^ 32).
  assert (Hv : 0 <= v < 2 ^ 32) by (apply Z.mod_pos_bound; lia).
  change (To4 (v4InV6Prefix ++ ipOfValue v)) with (ipOfValue v).
  split; [apply ipOfValue_bytes|].
  destruct (ipOfValue_bytes v) as (v0 & v1 & v2 & v3 & Ev & V0 & V1 & V2 & V3).
  rewrite (incrementIP_value _ b v0 v1 v2 v3) by (try assumption; rewrite <- Ev; reflexivity).
  rewrite (incrementIP_value ip (a + b) b0 b1 b2 b3 E H0 H1 H2 H3).
  rewrite <- Ev, ipValue_ipOfValue by assumption. unfold v.
  rewrite Zplus_mod_idemp_l, Z.add_assoc. reflexivity.
Qed.

Lemma incrementIP_twice_is_sum_witness :
  isIPv4Bytes (To4 (IPv4 10 0 0 45)) /\
  incrementIP (IPv4 10 0 0 45) 300 = incrementIP [10; 0; 0; 0] (45 + 300).
Proof.
  apply (incrementIP_twice_is_sum [10; 0; 0; 0] (IPv4 10 0 0 45) 45 300).
  - exists 10, 0, 0, 0. unfold isByte. repeat split; (reflexivity || lia).
  - vm_compute. reflexivity.
Defined.

(** What the planner returns, read off the parsed VPC block. *)
Lemma buildSubnetAddress_planned fuel vpc ip aws nets :
  ParseCIDR (CidrBlock vpc) = Some (ip, aws) ->
  buildSubnetAddress fuel vpc = Done (nets, None) ->
  exists p V0,
    aws = mkIPNet (ipOfValue V0) (CIDRMask p 32) /\ fst (Size (net_Mask aws)) = p /\
    1 <= p <= 26 /\ 0 <= V0 < 2 ^ 32 /\ V0 mod 2 ^ (32 - p) = 0 /\
    ipValue (net_IP aws) = V0 /\
    nets = rev (blocksFrom V0 (Z.to_nat (2 ^ (27 - p)))).
Proof.
  intros HP H.
  destruct (buildSubnetAddress_inv fuel vpc nets H) as (ip' & b & p & Hb & Hp & HP' & ->).
  rewrite HP in HP'. injection HP' as _ ->.
  destruct (network_facts b p Hb ltac:(lia)) as [RV AL].
  exists p, (2 ^ (32 - p) * (ipValue b / 2 ^ (32 - p))).
  cbn [net_Mask net_IP]. rewrite Size_CIDRMask by lia.
  rewrite ipValue_ipOfValue by assumption.
  repeat split; try reflexivity; try lia; try exact AL.
Qed.

Lemma aligned32 p V0 : 1 <= p <= 26 -> V0 mod 2 ^ (32 - p) = 0 -> V0 mod 32 = 0.
Proof.
  intros Hp AL. assert (HD : 0 < 2 ^ (32 - p)) by (apply Z.pow_pos_nonneg; lia).
  apply Z.mod_divide in AL; [|lia]. destruct AL as [q Hq].
  rewrite Hq, (pow2_split p) by lia.
  replace (q * (32 * 2 ^ (27 - p))) with (q * 2 ^ (27 - p) * 32) by ring.
  apply Z.mod_mul. lia.
Qed.

(** X3: the planner returns exactly 2^(27 - p) candidates for a VPC block of
    prefix length p. *)
Theorem buildSubnetAddress_candidate_count
    (fuel : nat) (vpc : Vpc) (ip : IP) (awsCIDR : IPNet) (nets : list IPNet) :
  ParseCIDR (CidrBlock vpc) = Some (ip, awsCIDR) ->
  buildSubnetAddress fuel vpc = Done (nets, None) ->
  Z.of_nat (List.length nets) = 2 ^ (27 - fst (Size (net_Mask awsCIDR))).
Proof.
  intros HP H.
  destruct (buildSubnetAddress_planned fuel vpc ip awsCIDR nets HP H)
    as (p & V0 & _ & -> & Hp & _ & _ & _ & ->).
  unfold blocksFrom. rewrite length_rev, length_map, length_seq.
  assert (0 < 2 ^ (27 - p)) by (apply Z.pow_pos_nonneg; lia). lia.
Qed.

Lemma buildSubnetAddress_candidate_count_witness :
  Z.of_nat (List.length (rev (blocksFrom 167772160 8%nat)))
  = 2 ^ (27 - fst (Size (net_Mask (mkIPNet [10; 0; 0; 0] [255; 255; 255; 0])))).
Proof.
  apply (buildSubnetAddress_candidate_count 300%nat vpc24 (IPv4 10 0 0 0)).
  - reflexivity.
  - vm_compute. reflexivity.
Defined.

(** X4: the candidates cover the VPC block: every IPv4 address inside the
    VPC block lies in one of the returned blocks, and in one only. *)
Theorem buildSubnetAddress_candidates_cover_vpc
    (fuel : nat) (vpc : Vpc) (ip : IP) (awsCIDR : IPNet) (nets : list IPNet) (x : IP) :
  ParseCIDR (CidrBlock vpc) = Some (ip, awsCIDR) ->
  buildSubnetAddress fuel vpc = Done (nets, None) ->
  isIPv4Bytes (To4 x) ->
  Contains awsCIDR x = true ->
  exists n, In n nets /\ Contains n x = true /\
            forall n', In n' nets -> Contains n' x = true -> n' = n.
Proof.
  intros HP H Hx C.
  destruct (buildSubnetAddress_planned fuel vpc ip awsCIDR nets HP H)
    as (p & V0 & -> & _ & Hp & RV & AL & _ & ->).
  destruct (D_facts p V0 Hp RV AL) as (DE & HE & H2D & HVD).
  pose proof (aligned32 p V0 Hp AL) as A32.
  rewrite Contains_To4 in C by assumption.
  apply Contains_4bytes_value in C; try assumption; try apply ipOfValue_bytes; [|lia].
  rewrite ipValue_ipOfValue in C by assumption.
  assert (Rx : 0 <= ipValue (To4 x) < 2 ^ 32).
  { destruct Hx as (x0 & x1 & x2 & x3 & -> & ? & ? & ? & ?). now apply ipValue_range. }
  set (xv := ipValue (To4 x)) in *. set (D := 2 ^ (32 - p)) in *.
  set (E := 2 ^ (27 - p)) in *.
  assert (HD : 0 < D) by lia.
  assert (Hoff : V0 <= xv < V0 + D).
  { apply Z.mod_divide in AL; [|lia]. destruct AL as [q Hq].
    rewrite Hq, Z.div_mul in C by lia.
    pose proof (Z.div_mod xv D ltac:(lia)). pose proof (Z.mod_pos_bound xv D HD). nia. }
  set (k := Z.to_nat ((xv - V0) / 32)).
  assert (Hk : Z.of_nat k = (xv - V0) / 32).
  { unfold k. rewrite Z2Nat.id; [reflexivity | apply Z.div_pos; lia]. }
  assert (Hk2 : 32 * Z.of_nat k <= xv - V0 < 32 * Z.of_nat k + 32).
  { rewrite Hk. pose proof (Z.div_mod (xv - V0) 32 ltac:(lia)).
    pose proof (Z.mod_pos_bound (xv - V0) 32 ltac:(lia)). lia. }
  assert (HkE : Z.of_nat k < E) by lia.
  exists (block27 V0 k). split; [|split].
  - rewrite <- in_rev. apply In_blocksFrom. exists k. split; [lia | reflexivity].
  - apply Contains_block27; try assumption; lia.
  - intros n' Hn' C'. apply in_rev, In_blocksFrom in Hn'. destruct Hn' as [k' [Hk' ->]].
    apply Contains_block27 in C'; try assumption; try lia.
    fold xv in C'. f_equal. lia.
Qed.

Lemma buildSubnetAddress_candidates_cover_vpc_witness :
  exists n, In n (rev (blocksFrom 167772160 8%nat)) /\
            Contains n [10; 0; 0; 77] = true /\
            forall n', In n' (rev (blocksFrom 167772160 8%nat)) ->
                       Contains n' [10; 0; 0; 77] = true -> n' = n.
Proof.
  apply (buildSubnetAddress_candidates_cover_vpc 300%nat vpc24 (IPv4 10 0 0 0)
           (mkIPNet [10; 0; 0; 0] [255; 255; 255; 0])).
  - reflexivity.
  - vm_compute. reflexivity.
  - exists 10, 0, 0, 77. unfold isByte. repeat split; (reflexivity || lia).
  - vm_compute. reflexivity.
Defined.

(** X5: for every VPC block the first candidate is the last /27 block of the
    VPC block, the one that ends at its highest address, and the last
    candidate is the /27 block at the VPC's own network address. *)
Theorem buildSubnetAddress_top_first_bottom_last
    (fuel : nat) (vpc : Vpc) (ip : IP) (awsCIDR : IPNet) (nets : list IPNet) :
  ParseCIDR (CidrBlock vpc) = Some (ip, awsCIDR) ->
  buildSubnetAddress fuel vpc = Done (nets, None) ->
  exists mid,
    nets = mkIPNet (ipOfValue (ipValue (net_IP awsCIDR)
                               + 2 ^ (32 - fst (Size (net_Mask awsCIDR))) - 32))
                   (CIDRMask 27 32)
           :: mid ++ [mkIPNet (net_IP awsCIDR) (CIDRMask 27 32)].
Proof.
  intros HP H.
  destruct (buildSubnetAddress_planned fuel vpc ip awsCIDR nets HP H)
    as (p & V0 & -> & -> & Hp & RV & AL & -> & ->).
  destruct (D_facts p V0 Hp RV AL) as (DE & HE & H2D & HVD).
  cbn [net_IP].
  destruct (Z.to_nat (2 ^ (27 - p))) as [|[|M]] eqn:EN; try lia.
  exists (rev (map (block27 V0) (seq 1 M))).
  unfold blocksFrom. rewrite seq_S, map_app, rev_app_distr.
  cbn [seq map rev app Nat.add]. unfold block27 at 1 3.
  change (Z.of_nat 0) with 0. rewrite Z.mul_0_r, Z.add_0_r.
  do 3 f_equal. rewrite DE. lia.
Qed.

Lemma buildSubnetAddress_top_first_bottom_last_witness :
  exists mid,
    rev (blocksFrom 167772160 8%nat)
    = mkIPNet (ipOfValue (ipValue [10; 0; 0; 0]
                          + 2 ^ (32 - fst (Size [255; 255; 255; 0])) - 32)) (CIDRMask 27 32)
      :: mid ++ [mkIPNet [10; 0; 0; 0] (CIDRMask 27 32)].
Proof.
  apply (buildSubnetAddress_top_first_bottom_last 300%nat vpc24 (IPv4 10 0 0 0)
           (mkIPNet [10; 0; 0; 0] [255; 255; 255; 0])).
  - reflexivity.
  - vm_compute. reflexivity.
Defined.

(** X6: the CIDR text createPrivateSubnet sends for a candidate
    (ip.String()) parses back to that very candidate block. *)
Theorem candidate_text_parses_back
    (fuel : nat) (vpc : Vpc) (nets : list IPNet) (n : IPNet) :
  buildSubnetAddress fuel vpc = Done (nets, None) ->
  In n nets ->
  exists ip', ParseCIDR (IPNetString n) = Some (ip', n).
Proof.
  intros H Hn.
  destruct (buildSubnetAddress_inv fuel vpc nets H) as (ip & b & p & Hb & Hp & HP & ->).
  destruct (network_facts b p Hb ltac:(lia)) as [RV AL].
  set (V0 := 2 ^ (32 - p) * (ipValue b / 2 ^ (32 - p))) in *.
  destruct (D_facts p V0 ltac:(lia) RV AL) as (DE & HE & H2D & HVD).
  pose proof (aligned32 p V0 ltac:(lia) AL) as A32.
  apply in_rev, In_blocksFrom in Hn. destruct Hn as [k [Hk ->]].
  unfold block27. set (v := V0 + 32 * Z.of_nat k).
  assert (Rv : 0 <= v < 2 ^ 32) by (unfold v; lia).
  destruct (ipOfValue_bytes v) as (v0 & v1 & v2 & v3 & E & B0 & B1 & B2 & B3).
  rewrite E.
  change (IPNetString (mkIPNet [v0; v1; v2; v3] (CIDRMask 27 32)))
    with (IPString [v0; v1; v2; v3] ++ "/" ++ uitoa defaultSubnetMask)%string.
  rewrite ParseCIDR_croCIDR by assumption. eexists. do 3 f_equal.
  change (IPv4 v0 v1 v2 v3) with (v4InV6Prefix ++ [v0; v1; v2; v3]).
  rewrite <- E, Mask27_value by assumption. f_equal.
  unfold v. apply Z.mod_divide in A32; [|lia]. destruct A32 as [q ->].
  replace (q * 32 + 32 * Z.of_nat k) with ((q + Z.of_nat k) * 32) by ring.
  rewrite Z.div_mul by lia. ring.
Qed.

Lemma candidate_text_parses_back_witness :
  exists ip', ParseCIDR (IPNetString net32) = Some (ip', net32).
Proof.
  apply (candidate_text_parses_back 100%nat vpc26 [net32; net0] net32).
  - vm_compute. reflexivity.
  - now left.
Defined.

End PlannerExtras.

(** ** More on the reconciliation *)

Module ReconcilerExtras.
Import Net Errors Aws Vocabulary Examples PlannerFacts ReconcilerFacts.

Section Runs.

Context {S : Type}.
Variable cfg : Config.
Variable svc : Provider S.

(** *** Polling the subnets *)

Lemma pollSubnets_trace retries : forall w,
  exists k subs err w',
    pollSubnets svc retries w = (Done (subs, err), w') /\
    (1 <= k <= retries + 1)%nat /\
    trace w' = trace w ++ repeat DescribeSubnetsReq k /\
    (err = None \/ (err = Some ErrWaitTimeout /\ subs = [] /\ k = (retries + 1)%nat)).
Proof.
  induction retries as [|n IH]; intros w; cbn [pollSubnets];
    destruct (DescribeSubnets svc (ext w)) as [r s'] eqn:E;
    rewrite (bind_run _ _ _ _ _ (request_run _ _ _ _ _ E));
    destruct r as [subs|e].
  - exists 1%nat, subs, None, (mkWorld s' (trace w ++ [DescribeSubnetsReq])).
    repeat split; auto; lia.
  - exists 1%nat, [], (Some ErrWaitTimeout), (mkWorld s' (trace w ++ [DescribeSubnetsReq])).
    repeat split; auto.
  - exists 1%nat, subs, None, (mkWorld s' (trace w ++ [DescribeSubnetsReq])).
    repeat split; auto; lia.
  - destruct (IH (mkWorld s' (trace w ++ [DescribeSubnetsReq])))
      as (k & subs & err & w' & R & Hk & T & C).
    exists (Datatypes.S k), subs, err, w'. split; [exact R|]. split; [lia|]. split.
    + rewrite T. cbn [trace repeat]. rewrite <- app_assoc. reflexivity.
    + destruct C as [C|(C1 & C2 & C3)]; [now left|]. right. repeat split; auto; lia.
Qed.

(** X7: getSubnets always returns; it issues between one and
    pollRetries + 1 DescribeSubnets requests and nothing else; the error of a
    failed listing never reaches the caller: the error is nil, or it is the
    poll's timeout after all pollRetries + 1 requests, with a nil list. *)
Theorem getSubnets_polls_and_hides_listing_errors (w : World S) :
  exists k subs err w',
    getSubnets cfg svc w = (Done (subs, err), w') /\
    (1 <= k <= pollRetries cfg + 1)%nat /\
    trace w' = trace w ++ repeat DescribeSubnetsReq k /\
    (err = None \/
     (err = Some ErrWaitTimeout /\ subs = [] /\ k = (pollRetries cfg + 1)%nat)).
Proof. apply pollSubnets_trace. Qed.

(** *** The subnets of the VPC *)

(** X8: with a VPC given, GetVPCSubnets never returns an empty list without
    an error: on success the list is not empty, it is the listing filtered by
    the VPC identifier in the listing's order, and every subnet in it belongs
    to the VPC; with an error the list is nil. *)
Theorem GetVPCSubnets_result_shape
    (vpc : Vpc) (w w' : World S) (subs : list Subnet) (err : option error) :
  GetVPCSubnets cfg svc (Some vpc) w = (Done (subs, err), w') ->
  (err = None ->
   subs <> [] /\
   Forall (fun sub => Subnet_VpcId sub = VpcId vpc) subs /\
   exists listed,
     getSubnets cfg svc w = (Done (listed, None), w') /\
     subs = filter (fun sub => String.eqb (Subnet_VpcId sub) (VpcId vpc)) listed)
  /\ (err <> None -> subs = []).
Proof.
  unfold GetVPCSubnets. intros H.
  destruct (pollSubnets_trace (pollRetries cfg) w) as (k & listed & e & w1 & R & _).
  change (pollSubnets svc (pollRetries cfg) w) with (getSubnets cfg svc w) in R.
  rewrite (bind_run _ _ _ _ _ R) in H.
  destruct e as [e|].
  - injection H as <- <- <-. split; [discriminate | reflexivity].
  - destruct (filter (fun sub => String.eqb (Subnet_VpcId sub) (VpcId vpc)) listed)
      as [|sub l] eqn:F.
    + injection H as <- <- <-. split; [discriminate | reflexivity].
    + injection H as <- <- <-. split; [|congruence]. intros _.
      split; [discriminate|]. split.
      * rewrite <- F. apply Forall_forall. intros x Hx. apply filter_In in Hx.
        destruct Hx as [_ Hx]. now apply String.eqb_eq.
      * exists listed. split; [exact R | now rewrite F].
Qed.

(** *** The cluster VPC *)

Lemma In_firstClusterVpc clusterID subs :
  match firstClusterVpc cfg clusterID subs with
  | Some id =>
      exists before sub after,
        subs = before ++ sub :: after /\ Subnet_VpcId sub = id /\
        hasClusterTag cfg clusterID sub /\
        Forall (fun s => ~ hasClusterTag cfg clusterID s) before
  | None => Forall (fun s => ~ hasClusterTag cfg clusterID s) subs
  end.
Proof.
  assert (T : forall sub,
            existsb (fun tag => (String.eqb (Value tag) "owned" || String.eqb (Value tag) "shared")
                                && String.eqb (Key tag) (getOSDClusterTagKey cfg clusterID))
                    (Tags sub) = true <-> hasClusterTag cfg clusterID sub).
  { intros sub. unfold hasClusterTag, getOSDClusterTagKey. rewrite existsb_exists.
    split; intros [tag [Hi Ht]]; exists tag; (split; [exact Hi|]).
    - apply andb_true_iff in Ht. destruct Ht as [Hv Hk].
      apply orb_true_iff in Hv. rewrite !String.eqb_eq in Hv. apply String.eqb_eq in Hk. auto.
    - destruct Ht as [Hk Hv]. apply andb_true_iff. split.
      + apply orb_true_iff. rewrite !String.eqb_eq. exact Hv.
      + now apply String.eqb_eq. }
  induction subs as [|sub rest IH]; cbn [firstClusterVpc]; [constructor|].
  destruct (existsb _ (Tags sub)) eqn:Q.
  - exists [], sub, rest. repeat split; [now apply T | constructor].
  - assert (N : ~ hasClusterTag cfg clusterID sub) by (rewrite <- T, Q; discriminate).
    destruct (firstClusterVpc cfg clusterID rest) as [id|].
    + destruct IH as (before & x & after & -> & Hid & Hx & Hb).
      exists (sub :: before), x, after. repeat split; auto.
    + constructor; assumption.
Qed.

(** X9: when the listing succeeds, getVPCIDByClusterSubnets returns the VPC
    of the first listed subnet that carries the cluster tag with value owned
    or shared, and it fails, with an empty identifier, exactly when no listed
    subnet carries such a tag. *)
Theorem getVPCIDByClusterSubnets_first_tagged_subnet
    (clusterID : string) (w : World S) (subs : list Subnet) (s' : S) :
  DescribeSubnets svc (ext w) = (inl subs, s') ->
  exists vpcId err,
    getVPCIDByClusterSubnets cfg svc clusterID w
    = (Done (vpcId, err), mkWorld s' (trace w ++ [DescribeSubnetsReq])) /\
    ((err = None /\
      exists before sub after,
        subs = before ++ sub :: after /\ Subnet_VpcId sub = vpcId /\
        hasClusterTag cfg clusterID sub /\
        Forall (fun s => ~ hasClusterTag cfg clusterID s) before)
     \/ (err <> None /\ vpcId = EmptyString /\
         Forall (fun s => ~ hasClusterTag cfg clusterID s) subs)).
Proof.
  intros E. unfold getVPCIDByClusterSubnets.
  rewrite (bind_run _ _ _ _ _ (request_run _ _ _ _ _ E)).
  pose proof (In_firstClusterVpc clusterID subs) as F.
  destruct (firstClusterVpc cfg clusterID subs) as [id|].
  - exists id, None. split; [reflexivity|]. left. split; [reflexivity | exact F].
  - eexists EmptyString, _. split; [reflexivity|]. right.
    split; [discriminate|]. split; [reflexivity | exact F].
Qed.

Lemma getClusterVpc_run (w : World S) :
  exists vpc err w',
    getClusterVpc cfg svc w = (Done (vpc, err), w') /\
    ((exists v id, vpc = Some v /\ err = None /\
                   trace w' = trace w ++ [DescribeSubnetsReq; DescribeVpcsReq [id]])
     \/ (vpc = None /\ exists e, err = Some e)).
Proof.
  unfold getClusterVpc.
  destruct (GetClusterID svc (ext w)) as [r s1] eqn:E1.
  rewrite (bind_run _ _ _ _ _ (lookup_run _ _ _ _ E1)).
  destruct r as [clusterID|e]; [|do 3 eexists; split; [reflexivity|]; right; cbn; eauto].
  assert (V : exists id err s2,
             getVPCIDByClusterSubnets cfg svc clusterID (mkWorld s1 (trace w))
             = (Done (id, err), mkWorld s2 (trace w ++ [DescribeSubnetsReq]))).
  { unfold getVPCIDByClusterSubnets.
    destruct (DescribeSubnets svc s1) as [r s2] eqn:E2.
    rewrite (bind_run _ _ _ _ _ (request_run _ _ (mkWorld s1 (trace w)) _ _ E2)).
    destruct r as [subs|e]; [|do 3 eexists; reflexivity].
    destruct (firstClusterVpc cfg clusterID subs); do 3 eexists; reflexivity. }
  destruct V as (id & err & s2 & V).
  rewrite (bind_run _ _ _ _ _ V).
  destruct err as [e|]; [do 3 eexists; split; [reflexivity|]; right; cbn; eauto|].
  destruct (DescribeVpcs svc [id] s2) as [r s3] eqn:E3.
  rewrite (bind_run _ _ _ _ _
             (request_run _ _ (mkWorld s2 (trace w ++ [DescribeSubnetsReq])) _ _ E3)).
  destruct r as [[|v [|v' l]]|e];
    try (do 3 eexists; split; [reflexivity|]; right; cbn; eauto; fail).
  do 3 eexists. split; [reflexivity|]. left. exists v, id. cbn.
  repeat split. rewrite <- app_assoc. reflexivity.
Qed.

(** X10: getClusterVpc always returns, with exactly one of the VPC and the
    error nil; on success it issued exactly a DescribeSubnets request and a
    DescribeVpcs request for one identifier. *)
Theorem getClusterVpc_vpc_xor_error (w : World S) :
  exists vpc err w',
    getClusterVpc cfg svc w = (Done (vpc, err), w') /\
    ((exists v id, vpc = Some v /\ err = None /\
                   trace w' = trace w ++ [DescribeSubnetsReq; DescribeVpcsReq [id]])
     \/ (vpc = None /\ exists e, err = Some e)).
Proof. apply getClusterVpc_run. Qed.

Lemma GetCidr_run (w : World S) :
  exists vpcID cidr err w',
    GetCidr cfg svc w = (Done (vpcID, cidr, err), w') /\
    ((err = None /\
      exists vpc, getClusterVpc cfg svc w = (Done (Some vpc, None), w') /\
                  vpcID = VpcId vpc /\ cidr = CidrBlock vpc)
     \/ (exists e, getClusterVpc cfg svc w = (Done (None, Some e), w') /\
                   err = Some (Wrapped e "error getting vpcs") /\
                   vpcID = EmptyString /\ cidr = EmptyString))
    /\ err <> Some (New "error, unable to find a vpc").
Proof.
  unfold GetCidr.
  destruct (getClusterVpc_run w) as (vpc & err & w' & R & C).
  rewrite (bind_run _ _ _ _ _ R).
  destruct C as [(v & id & -> & -> & _)|(-> & e & ->)].
  - do 4 eexists. split; [reflexivity|]. split; [|discriminate].
    left. split; [reflexivity|]. exists v. auto.
  - do 4 eexists. split; [reflexivity|]. split; [|discriminate].
    right. exists e. auto.
Qed.

(** X11: GetCidr always returns; on success it gives the identifier and the
    CIDR block of the VPC getClusterVpc found; otherwise getClusterVpc
    returned an error, both texts are empty and the error is that very error
    wrapped: the error "unable to find a vpc" of its nil guard is never
    returned. *)
Theorem GetCidr_of_cluster_vpc (w : World S) :
  exists vpcID cidr err w',
    GetCidr cfg svc w = (Done (vpcID, cidr, err), w') /\
    ((err = None /\
      exists vpc, getClusterVpc cfg svc w = (Done (Some vpc, None), w') /\
                  vpcID = VpcId vpc /\ cidr = CidrBlock vpc)
     \/ (exists e, getClusterVpc cfg svc w = (Done (None, Some e), w') /\
                   err = Some (Wrapped e "error getting vpcs") /\
                   vpcID = EmptyString /\ cidr = EmptyString))
    /\ err <> Some (New "error, unable to find a vpc").
Proof. apply GetCidr_run. Qed.

(** *** Tagging *)

Lemma getDefaultSubnetTags_run (w : World S) :
  exists tags err s',
    getDefaultSubnetTags cfg svc w = (Done (tags, err), mkWorld s' (trace w)) /\
    (err <> None \/
     err = None /\
     exists clusterID s1,
       GetClusterID svc (ext w) = (inl clusterID, s1) /\
       ((tags = defaultSubnetTags cfg clusterID /\ GetUserInfraTags svc s1 = (inl [], s')) \/
        exists infra, infra <> [] /\ GetUserInfraTags svc s1 = (inl infra, s') /\
                      tags = MergeTags cfg (defaultSubnetTags cfg clusterID) infra)).
Proof.
  unfold getDefaultSubnetTags.
  destruct (GetClusterID svc (ext w)) as [r s1] eqn:E1.
  rewrite (bind_run _ _ _ _ _ (lookup_run _ _ _ _ E1)).
  destruct r as [clusterID|e];
    [|do 3 eexists; split; [reflexivity|]; left; discriminate].
  destruct (GetUserInfraTags svc s1) as [r s2] eqn:E2.
  rewrite (bind_run _ _ _ _ _ (lookup_run _ (mkWorld s1 (trace w)) _ _ E2)).
  fold (defaultSubnetTags cfg clusterID).
  destruct r as [[|t infra]|e].
  - do 3 eexists. split; [reflexivity|]. right. split; [reflexivity|].
    exists clusterID, s1. split; [reflexivity|]. left. split; [reflexivity | exact E2].
  - do 3 eexists. split; [reflexivity|]. right. split; [reflexivity|].
    exists clusterID, s1. split; [reflexivity|]. right. exists (t :: infra).
    split; [discriminate|]. split; [exact E2 | reflexivity].
  - do 3 eexists. split; [reflexivity|]. left. discriminate.
Qed.

Lemma tagPrivateSubnet_run sub (w : World S) :
  exists err w',
    tagPrivateSubnet cfg svc sub w = (Done err, w') /\
    ((err <> None /\ trace w' = trace w)
     \/ exists clusterID s1 tags,
          GetClusterID svc (ext w) = (inl clusterID, s1) /\
          trace w' = trace w ++ [CreateTagsReq [SubnetId sub] tags] /\
          ((tags = defaultSubnetTags cfg clusterID /\
            exists s2, GetUserInfraTags svc s1 = (inl [], s2)) \/
           exists infra s2, infra <> [] /\ GetUserInfraTags svc s1 = (inl infra, s2) /\
                            tags = MergeTags cfg (defaultSubnetTags cfg clusterID) infra)).
Proof.
  unfold tagPrivateSubnet.
  destruct (getDefaultSubnetTags_run w) as (tags & err & s2 & R & C).
  rewrite (bind_run _ _ _ _ _ R).
  destruct C as [C|(-> & clusterID & s1 & E1 & C)].
  { destruct err as [e|]; [|now destruct C].
    do 2 eexists. split; [reflexivity|]. left. split; [discriminate | reflexivity]. }
  destruct (CreateTags svc [SubnetId sub] tags s2) as [r s3] eqn:E3.
  rewrite (bind_run _ _ _ _ _ (request_run _ _ (mkWorld s2 (trace w)) _ _ E3)).
  exists (Wrap r "failed to tag subnet"),
    (mkWorld s3 (trace w ++ [CreateTagsReq [SubnetId sub] tags])).
  split; [destruct r; reflexivity|]. right. exists clusterID, s1, tags.
  split; [exact E1|]. split; [reflexivity|].
  destruct C as [[-> C]|(infra & Hi & C & ->)]; [left | right]; eauto.
Qed.

(** X12: tagPrivateSubnet always returns and issues at most one request, a
    CreateTags request for the given subnet alone; its tags are the four
    default tags, the private-subnet marker first, or what MergeTags makes of
    them and the user's infrastructure tags when there are any; when a
    look-up fails it issues no request and returns an error. *)
Theorem tagPrivateSubnet_single_request (sub : Subnet) (w : World S) :
  exists err w',
    tagPrivateSubnet cfg svc sub w = (Done err, w') /\
    ((err <> None /\ trace w' = trace w)
     \/ exists clusterID s1 tags,
          GetClusterID svc (ext w) = (inl clusterID, s1) /\
          trace w' = trace w ++ [CreateTagsReq [SubnetId sub] tags] /\
          ((tags = defaultSubnetTags cfg clusterID /\
            exists s2, GetUserInfraTags svc s1 = (inl [], s2)) \/
           exists infra s2, infra <> [] /\ GetUserInfraTags svc s1 = (inl infra, s2) /\
                            tags = MergeTags cfg (defaultSubnetTags cfg clusterID) infra)).
Proof. apply tagPrivateSubnet_run. Qed.

(** *** Creating a private subnet *)

Lemma creationRequests_app t1 t2 :
  creationRequests (t1 ++ t2) = creationRequests t1 ++ creationRequests t2.
Proof. apply flat_map_app. Qed.

Lemma creationRequests_map vpc zone l :
  creationRequests (map (fun n => CreateSubnetReq (inputFor vpc zone n)) l)
  = map (inputFor vpc zone) l.
Proof. induction l as [|n l IH]; cbn; [reflexivity | now rewrite <- IH]. Qed.

(** What a run of the loop leaves behind: the candidates up to the one that
    ended it were requested, in order, and nothing follows but the tagging
    request of a created subnet. *)
Lemma createLoop_run vpc zone : forall subs (w : World S),
  exists res w' pre post tagging,
    createLoop cfg svc vpc zone subs w = (Done res, w') /\
    subs = pre ++ post /\
    trace w' = trace w ++ map (fun n => CreateSubnetReq (inputFor vpc zone n)) pre ++ tagging /\
    match res with
    | (Some sub, err) =>
        err = None /\ pre <> [] /\ exists tags, tagging = [CreateTagsReq [SubnetId sub] tags]
    | (None, Some _) =>
        pre <> [] /\ (tagging = [] \/ exists ids tags, tagging = [CreateTagsReq ids tags])
    | (None, None) => post = [] /\ tagging = []
    end.
Proof.
  induction subs as [|ip rest IH]; intros w.
  { exists (None, None), w, [], [], []. cbn. rewrite app_nil_r. auto. }
  destruct (CreateSubnet svc (mkCreateSubnetInput zone (IPNetString ip) (VpcId vpc)) (ext w))
    as [r s'] eqn:E.
  rewrite (createLoop_cons cfg svc vpc zone ip rest w r s' E). cbv zeta.
  set (w1 := mkWorld s' _).
  destruct r as [created|e].
  - cbn [awsCode].
    destruct (tagPrivateSubnet_run created w1) as (err & w2 & R & C).
    rewrite (bind_run _ _ _ _ _ R).
    assert (T : exists tagging, trace w2 = trace w1 ++ tagging /\
                  (err = None -> exists tags, tagging = [CreateTagsReq [SubnetId created] tags]) /\
                  (tagging = [] \/ exists ids tags, tagging = [CreateTagsReq ids tags])).
    { destruct C as [[C0 C]|(c & s1 & tags & _ & C & _)].
      - exists []. rewrite app_nil_r. split; [exact C|]. split; [|now left].
        intros ->. now destruct C0.
      - exists [CreateTagsReq [SubnetId created] tags]. split; [exact C|]. split; eauto. }
    destruct T as (tagging & T & T1 & T2).
    destruct err as [e|].
    + exists (None, Some e), w2, [ip], rest, tagging. split; [reflexivity|].
      split; [reflexivity|]. split; [rewrite T; cbn; now rewrite <- app_assoc|].
      split; [discriminate | exact T2].
    + exists (Some created, None), w2, [ip], rest, tagging. split; [reflexivity|].
      split; [reflexivity|]. split; [rewrite T; cbn; now rewrite <- app_assoc|].
      split; [reflexivity|]. split; [discriminate | now apply T1].
  - destruct e as [code msg| | | |]; cbn [awsCode Wrap];
      try (eexists (None, Some (Wrapped _ "error creating new subnet")), w1, [ip], rest, [];
           split; [reflexivity|]; split; [reflexivity|]; split; [reflexivity|];
           split; [discriminate | now left]).
    destruct (String.eqb code "InvalidSubnet.Conflict").
    + destruct (IH w1) as (res & w' & pre & post & tagging & R & -> & T & C).
      exists res, w', (ip :: pre), post, tagging. split; [exact R|]. split; [reflexivity|].
      split; [rewrite T; cbn; now rewrite <- app_assoc|].
      destruct res as [[sub|] [e|]]; intuition discriminate.
    + exists (None, Some (Wrapped (AwsError code msg) "error creating new subnet")), w1, [ip], rest, [].
      split; [reflexivity|]. split; [reflexivity|]. split; [reflexivity|].
      split; [discriminate | now left].
Qed.

Lemma creationRequests_tagging tagging :
  tagging = [] \/ (exists ids tags, tagging = [CreateTagsReq ids tags]) ->
  creationRequests tagging = [].
Proof. intros [->|(ids & tags & ->)]; reflexivity. Qed.

Lemma createLoop_result_tagging (res : option Subnet * option error)
    (pre post : list IPNet) (tagging : list Request) :
  match res with
  | (Some sub, err) =>
      err = None /\ pre <> [] /\ exists tags, tagging = [CreateTagsReq [SubnetId sub] tags]
  | (None, Some _) =>
      pre <> [] /\ (tagging = [] \/ exists ids tags, tagging = [CreateTagsReq ids tags])
  | (None, None) => post = ([] : list IPNet) /\ tagging = []
  end ->
  tagging = [] \/ (exists ids tags, tagging = [CreateTagsReq ids tags]).
Proof.
  destruct res as [[sub|] [e|]]; intros H.
  - destruct H as (_ & _ & tags & ->). eauto.
  - destruct H as (_ & _ & tags & ->). eauto.
  - tauto.
  - tauto.
Qed.

(** X13: the creation requests of a run of createPrivateSubnet are requests
    for the given zone and VPC and for candidates of the planner, taken from
    the front of the planner's sequence in its order, each at most once; the
    run issues none when the planner fails. *)
Theorem createPrivateSubnet_requests_candidates_in_order
    (fuel : nat) (vpc : Vpc) (zone : string) (w : World S) :
  exists added k,
    trace (snd (createPrivateSubnet cfg svc fuel (Some vpc) zone w)) = trace w ++ added /\
    creationRequests added = map (inputFor vpc zone) (firstn k (plannedBlocks fuel vpc)).
Proof.
  unfold createPrivateSubnet, plannedBlocks, bind, lift.
  destruct (buildSubnetAddress fuel vpc) as [[nets [e|]]| |];
    try (exists [], O; cbn; now rewrite app_nil_r).
  destruct (createLoop_run vpc zone nets w) as (res & w' & pre & post & tagging & R & -> & T & C).
  rewrite R. cbn [snd].
  exists (map (fun n => CreateSubnetReq (inputFor vpc zone n)) pre ++ tagging), (List.length pre).
  split; [exact T|].
  rewrite creationRequests_app, creationRequests_map,
    (creationRequests_tagging tagging (createLoop_result_tagging _ _ _ _ C)), app_nil_r.
  rewrite firstn_app, Nat.sub_diag, firstn_all. cbn [firstn]. now rewrite app_nil_r.
Qed.

(** X14: createPrivateSubnet returns a subnet only with a nil error, and only
    after that subnet was tagged: the run requested the planner's candidates
    in order up to one candidate, then the tags of the returned subnet, and
    no candidate after it. *)
Theorem createPrivateSubnet_subnet_was_created_and_tagged
    (fuel : nat) (vpc : Vpc) (zone : string) (w w' : World S)
    (sub : Subnet) (err : option error) :
  createPrivateSubnet cfg svc fuel (Some vpc) zone w = (Done (Some sub, err), w') ->
  err = None /\
  exists nets pre n post tags,
    buildSubnetAddress fuel vpc = Done (nets, None) /\
    nets = pre ++ n :: post /\
    trace w' = trace w ++ map (fun c => CreateSubnetReq (inputFor vpc zone c)) (pre ++ [n])
                       ++ [CreateTagsReq [SubnetId sub] tags].
Proof.
  intros H. unfold createPrivateSubnet, bind, lift in H.
  destruct (buildSubnetAddress fuel vpc) as [[nets [e|]]| |] eqn:B; try discriminate.
  destruct (createLoop_run vpc zone nets w) as (res & w2 & pre & post & tagging & R & -> & T & C).
  rewrite R in H. injection H as -> <-.
  destruct C as (-> & Hpre & tags & ->). split; [reflexivity|].
  destruct (exists_last Hpre) as (pre' & n & ->).
  exists ((pre' ++ [n]) ++ post), pre', n, post, tags.
  split; [reflexivity|]. split; [now rewrite <- app_assoc | exact T].
Qed.

(** X15: createPrivateSubnet returns a nil subnet with a nil error only when
    the planner gave candidates and every one of them was requested, in
    order, with nothing tagged. *)
Theorem createPrivateSubnet_nil_nil_after_every_candidate
    (fuel : nat) (vpc : Vpc) (zone : string) (w w' : World S) :
  createPrivateSubnet cfg svc fuel (Some vpc) zone w = (Done (None, None), w') ->
  exists nets,
    buildSubnetAddress fuel vpc = Done (nets, None) /\ nets <> [] /\
    trace w' = trace w ++ map (fun c => CreateSubnetReq (inputFor vpc zone c)) nets.
Proof.
  intros H. unfold createPrivateSubnet, bind, lift in H.
  destruct (buildSubnetAddress fuel vpc) as [[nets [e|]]| |] eqn:B; try discriminate.
  destruct (createLoop_run vpc zone nets w) as (res & w2 & pre & post & tagging & R & -> & T & C).
  rewrite R in H. injection H as -> <-. destruct C as (-> & ->).
  exists (pre ++ []). split; [reflexivity|]. split.
  - destruct (buildSubnetAddress_inv fuel vpc _ B) as (ip & b & p & _ & Hp & _ & E).
    rewrite E. assert (HE : 1 <= 2 ^ (27 - p)).
    { change 1 with (2 ^ 0). apply Z.pow_le_mono_r; lia. }
    destruct (Z.to_nat (2 ^ (27 - p))) as [|N] eqn:EN; [lia|].
    rewrite rev_blocksFrom_S. discriminate.
  - rewrite !app_nil_r in *. exact T.
Qed.

(** X16: for a VPC whose block, written without a colon, is empty, does not
    parse, or has a prefix length of 27 or more, the planner returns an
    error, and createPrivateSubnet issues no request and returns that error
    wrapped. *)
Theorem createPrivateSubnet_unplannable_vpc_no_request
    (fuel : nat) (vpc : Vpc) (zone : string) (w : World S) :
  noColon (CidrBlock vpc) = true ->
  (CidrBlock vpc = ""%string \/
   ParseCIDR (CidrBlock vpc) = None \/
   exists ip awsCIDR, ParseCIDR (CidrBlock vpc) = Some (ip, awsCIDR) /\
                      27 <= fst (Size (net_Mask awsCIDR))) ->
  exists e,
    buildSubnetAddress fuel vpc = Done ([], Some e) /\
    createPrivateSubnet cfg svc fuel (Some vpc) zone w
    = (Done (None, Some (Wrapped e "failed to build subnets")), w).
Proof.
  intros _ H.
  assert (B : exists e, buildSubnetAddress fuel vpc = Done ([], Some e)).
  { unfold buildSubnetAddress. destruct H as [E|[E|(ip & aws & HP & Hge)]].
    - rewrite E. cbn. eauto.
    - rewrite E. destruct (String.eqb (CidrBlock vpc) ""); cbn; eauto.
    - rewrite HP. destruct (String.eqb (CidrBlock vpc) ""); [eauto|].
      apply Z.leb_le in Hge. unfold defaultSubnetMask. rewrite Hge. eauto. }
  destruct B as [e B]. exists e. split; [exact B|].
  unfold createPrivateSubnet, bind, lift. now rewrite B.
Qed.

(** *** The private subnets of the cluster *)


(** X17: whenever GetPrivateSubnetIDS returns, it returns either a non-empty
    list of identifiers with a nil error, or a nil list with an error. *)
Theorem GetPrivateSubnetIDS_ids_or_error
    (fuel : nat) (w w' : World S) (ids : list string) (err : option error) :
  GetPrivateSubnetIDS cfg svc fuel w = (Done (ids, err), w') ->
  (err = None /\ ids <> []) \/ (ids = [] /\ err <> None).
Proof.
  unfold GetPrivateSubnetIDS. intros H.
  unfold bind at 1 in H.
  destruct (getClusterVpc cfg svc w) as [[[v [e|]]| |] w1]; try discriminate.
  { injection H as <- <- _. right. split; [reflexivity | discriminate]. }
  unfold bind at 1 in H.
  destruct (GetVPCSubnets cfg svc v w1) as [[[subs [e|]]| |] w2]; try discriminate.
  { injection H as <- <- _. right. split; [reflexivity | discriminate]. }
  unfold bind at 1 in H.
  destruct (getAZs svc w2) as [[[azs [e|]]| |] w3]; try discriminate.
  { injection H as <- <- _. right. split; [reflexivity | discriminate]. }
  unfold bind at 1 in H.
  destruct (reconcileZones cfg svc fuel v azs (privateSubnets subs) w3)
    as [[[privSubs [e|]]| |] w4]; try discriminate.
  { injection H as <- <- _. right. split; [reflexivity | discriminate]. }
  unfold bind, lift in H.
  destruct (subnetIDs privSubs) as [[|id l]| |]; try discriminate.
  - injection H as <- <- _. right. split; [reflexivity | discriminate].
  - injection H as <- <- _. left. split; [reflexivity | discriminate].
Qed.











End Runs.

Lemma GetVPCSubnets_result_shape_witness :
  [privateSubnetA] <> []
  /\ Forall (fun sub => Subnet_VpcId sub = VpcId vpc26) [privateSubnetA].
Proof.
  destruct (GetVPCSubnets_result_shape exampleConfig
              (stubProvider [mkSubnet "subnet-x" "vpc-2" "eu-west-1a" []; privateSubnetA]
                            [zoneA] [vpc26] alwaysCreate None)
              vpc26 start (mkWorld tt [DescribeSubnetsReq]) [privateSubnetA] None eq_refl)
    as [H _].
  destruct (H eq_refl) as (A & B & _). split; assumption.
Defined.

Lemma getVPCIDByClusterSubnets_first_tagged_subnet_witness :
  exists vpcId err,
    getVPCIDByClusterSubnets exampleConfig
      (stubProvider [mkSubnet "subnet-x" "vpc-2" "eu-west-1a" []; clusterSubnet]
                    [zoneA] [vpc26] alwaysCreate None) "cluster-1" start
    = (Done (vpcId, err), mkWorld tt [DescribeSubnetsReq]).
Proof.
  destruct (getVPCIDByClusterSubnets_first_tagged_subnet exampleConfig
              (stubProvider [mkSubnet "subnet-x" "vpc-2" "eu-west-1a" []; clusterSubnet]
                            [zoneA] [vpc26] alwaysCreate None)
              "cluster-1" start
              [mkSubnet "subnet-x" "vpc-2" "eu-west-1a" []; clusterSubnet] tt eq_refl)
    as (vpcId & err & R & _).
  exists vpcId, err. exact R.
Defined.

Lemma createPrivateSubnet_subnet_was_created_and_tagged_witness :
  exists nets pre n post tags,
    buildSubnetAddress 100 vpc26 = Done (nets, None) /\
    nets = pre ++ n :: post /\
    trace (snd (createPrivateSubnet exampleConfig (stubProvider [] [] [] alwaysCreate None)
                                    100 (Some vpc26) "eu-west-1b" start))
    = trace start ++ map (fun c => CreateSubnetReq (inputFor vpc26 "eu-west-1b" c)) (pre ++ [n])
                  ++ [CreateTagsReq ["subnet-10.0.0.32/27"%string] tags].
Proof.
  destruct (createPrivateSubnet_subnet_was_created_and_tagged exampleConfig
              (stubProvider [] [] [] alwaysCreate None) 100 vpc26 "eu-west-1b" start
              (snd (createPrivateSubnet exampleConfig (stubProvider [] [] [] alwaysCreate None)
                                        100 (Some vpc26) "eu-west-1b" start))
              (created (mkCreateSubnetInput "eu-west-1b" "10.0.0.32/27" "vpc-1")) None
              ltac:(vm_compute; reflexivity)) as [_ H].
  exact H.
Defined.

Lemma createPrivateSubnet_nil_nil_after_every_candidate_witness :
  exists nets,
    buildSubnetAddress 100 vpc26 = Done (nets, None) /\ nets <> [] /\
    trace (snd (createPrivateSubnet exampleConfig (stubProvider [] [] [] alwaysConflict None)
                                    100 (Some vpc26) "eu-west-1b" start))
    = trace start ++ map (fun c => CreateSubnetReq (inputFor vpc26 "eu-west-1b" c)) nets.
Proof.
  apply (createPrivateSubnet_nil_nil_after_every_candidate exampleConfig
           (stubProvider [] [] [] alwaysConflict None) 100 vpc26 "eu-west-1b" start).
  vm_compute. reflexivity.
Defined.

Lemma createPrivateSubnet_unplannable_vpc_no_request_witness :
  exists e,
    buildSubnetAddress 100 (mkVpc "vpc-1" "10.0.0.0/28") = Done ([], Some e) /\
    createPrivateSubnet exampleConfig (stubProvider [] [] [] alwaysCreate None)
                        100 (Some (mkVpc "vpc-1" "10.0.0.0/28")) "eu-west-1b" start
    = (Done (None, Some (Wrapped e "failed to build subnets")), start).
Proof.
  apply (createPrivateSubnet_unplannable_vpc_no_request exampleConfig
           (stubProvider [] [] [] alwaysCreate None) 100
           (mkVpc "vpc-1" "10.0.0.0/28") "eu-west-1b" start eq_refl).
  right. right. exists (IPv4 10 0 0 0), (mkIPNet [10; 0; 0; 0] [255; 255; 255; 240]).
  split; [vm_compute; reflexivity | vm_compute; intro Q; discriminate Q].
Defined.

Lemma GetPrivateSubnetIDS_ids_or_error_witness :
  ((None : option error) = None /\ ["subnet-priv-a"%string] <> [])
  \/ (["subnet-priv-a"%string] = [] /\ (None : option error) <> None).
Proof.
  apply (GetPrivateSubnetIDS_ids_or_error exampleConfig
           (stubProvider [privateSubnetA] [zoneA] [vpc26] alwaysCreate None) 100 start
           (mkWorld tt [DescribeSubnetsReq; DescribeVpcsReq ["vpc-1"%string];
                        DescribeSubnetsReq; DescribeAvailabilityZonesReq])).
  vm_compute. reflexivity.
Defined.


End ReconcilerExtras.

(** ** The security group of the cluster *)

Module SecurityGroupFacts.
Import Net Errors Aws Vocabulary Examples ReconcilerFacts ReconcilerExtras.

Section WithGroups.

Context {S P : Type}.
Variable cfg : Config.
Variable svc : Provider S.
Variable groups : GroupProvider S P.
Variable DeepEqual : P -> P -> bool.
Variable ipPermissionFor : string -> P.
Variable defaultAwsIdentifierLength : Z.

Lemma groupRequest_run {A : Type} (r : GroupRequest P) (f : S -> A * S)
    (w : GroupWorld S P) a s' :
  f (group_ext w) = (a, s') ->
  groupRequest r f w = (Done a, mkGroupWorld s' (group_trace w ++ [r])).
Proof. intros H. unfold groupRequest. rewrite H. reflexivity. Qed.

Lemma groupLookup_run {A : Type} (f : S -> A * S) (w : GroupWorld S P) a s' :
  f (group_ext w) = (a, s') ->
  groupLookup f w = (Done a, mkGroupWorld s' (group_trace w)).
Proof. intros H. unfold groupLookup. rewrite H. reflexivity. Qed.

Lemma gbind_run {A B : Type} (m : G S P A) (k : A -> G S P B) w a w' :
  m w = (Done a, w') -> gbind m k w = k a w'.
Proof. intros H. unfold gbind. rewrite H. reflexivity. Qed.

Lemma withVpc_run {A : Type} (m : M S A) (w : GroupWorld S P) o w' :
  m (mkWorld (group_ext w) []) = (o, w') ->
  withVpc m w = (o, mkGroupWorld (ext w') (group_trace w ++ map VpcReq (trace w'))).
Proof. intros H. unfold withVpc. rewrite H. reflexivity. Qed.

(** *** The group with the name *)

Lemma findGroup_first secName (secGroups : list (SecurityGroup P)) :
  match findGroup secName secGroups with
  | Some sec =>
      exists before after,
        secGroups = before ++ sec :: after /\ GroupName sec = secName /\
        Forall (fun g => GroupName g <> secName) before
  | None => Forall (fun g => GroupName g <> secName) secGroups
  end.
Proof.
  induction secGroups as [|g rest IH]; cbn [findGroup]; [constructor|].
  destruct (String.eqb (GroupName g) secName) eqn:Q.
  - apply String.eqb_eq in Q. exists [], rest. repeat split; [exact Q | constructor].
  - apply String.eqb_neq in Q. destruct (findGroup secName rest) as [sec|].
    + destruct IH as (before & after & -> & Hn & Hb).
      exists (g :: before), after. repeat split; auto.
    + constructor; assumption.
Qed.

Lemma findGroup_app_first secName before (found : SecurityGroup P) after :
  Forall (fun g => GroupName g <> secName) before ->
  GroupName found = secName ->
  findGroup secName (before ++ found :: after) = Some found.
Proof.
  intros Hb Hf. induction Hb as [|g l Hg _ IH]; cbn [app findGroup].
  - apply String.eqb_eq in Hf. now rewrite Hf.
  - apply String.eqb_neq in Hg. now rewrite Hg.
Qed.

Lemma findGroup_none secName (secGroups : list (SecurityGroup P)) :
  Forall (fun g => GroupName g <> secName) secGroups ->
  findGroup secName secGroups = None.
Proof.
  intros H. induction H as [|g l Hg _ IH]; cbn [findGroup]; [reflexivity|].
  apply String.eqb_neq in Hg. now rewrite Hg.
Qed.

(** X20: when the listing succeeds, getSecurityGroup returns no error and
    the first listed group that has the name, whatever follows it; it
    returns a nil group, still with no error, exactly when no listed group
    has the name. *)
Theorem getSecurityGroup_first_with_name
    (secName : string) (w : GroupWorld S P) (secGroups : list (SecurityGroup P)) (s' : S) :
  DescribeSecurityGroups groups (group_ext w) = (inl secGroups, s') ->
  exists found,
    getSecurityGroup groups secName w
    = (Done (found, None), mkGroupWorld s' (group_trace w ++ [DescribeSecurityGroupsReq])) /\
    match found with
    | Some sec =>
        exists before after,
          secGroups = before ++ sec :: after /\ GroupName sec = secName /\
          Forall (fun g => GroupName g <> secName) before
    | None => Forall (fun g => GroupName g <> secName) secGroups
    end.
Proof.
  intros E. unfold getSecurityGroup.
  rewrite (gbind_run _ _ _ _ _ (groupRequest_run _ _ _ _ _ E)).
  exists (findGroup secName secGroups). split; [reflexivity | apply findGroup_first].
Qed.

(** *** Configuring the group *)

Lemma GetCidr_describes (w : World S) :
  extends w (snd (GetCidr cfg svc w)) isDescribe.
Proof.
  unfold GetCidr. apply bind_extends; [apply getClusterVpc_extends|].
  intros [[v|] [e|]] w1 _; apply extends_refl.
Qed.

Lemma Forall_isGroupRead_VpcReq (t : list Request) :
  Forall isDescribe t -> Forall (@isGroupRead P) (map VpcReq t).
Proof. intros H. induction H; cbn; constructor; assumption. Qed.

(** The run up to the listing of the groups. *)
Lemma configureSecurityGroup_lookups (w : GroupWorld S P) :
  (exists err w' reads,
     configureSecurityGroup cfg svc groups DeepEqual ipPermissionFor
                            defaultAwsIdentifierLength w = (Done (Some err), w') /\
     group_trace w' = group_trace w ++ reads /\ Forall isGroupRead reads)
  \/ exists clusterID s1 secName s2 vpcID cidr w3 secGroups s4,
       GetClusterID svc (group_ext w) = (inl clusterID, s1) /\
       BuildInfraName groups defaultSecurityGroupPostfix defaultAwsIdentifierLength s1
       = (inl secName, s2) /\
       GetCidr cfg svc (mkWorld s2 []) = (Done (vpcID, cidr, None), w3) /\
       Forall isDescribe (trace w3) /\
       DescribeSecurityGroups groups (ext w3) = (inl secGroups, s4).
Proof.
  unfold configureSecurityGroup.
  destruct (GetClusterID svc (group_ext w)) as [r s1] eqn:E1.
  rewrite (gbind_run _ _ _ _ _ (groupLookup_run _ _ _ _ E1)).
  destruct r as [clusterID|e].
  2:{ left. exists (Wrapped e "error getting cluster id"), (mkGroupWorld s1 (group_trace w)), [].
      cbn. rewrite app_nil_r. auto. }
  destruct (BuildInfraName groups defaultSecurityGroupPostfix defaultAwsIdentifierLength s1)
    as [r s2] eqn:E2.
  rewrite (gbind_run _ _ _ _ _ (groupLookup_run _ (mkGroupWorld s1 (group_trace w)) _ _ E2)).
  destruct r as [secName|e].
  2:{ left. exists (Wrapped e "error building subnet group name"),
        (mkGroupWorld s2 (group_trace w)), [].
      cbn. rewrite app_nil_r. auto. }
  destruct (GetCidr_run cfg svc (mkWorld s2 [])) as (vpcID & cidr & err & w3 & R & C & _).
  pose proof (GetCidr_describes (mkWorld s2 [])) as X. rewrite R in X.
  destruct X as (added & T & F). cbn [snd trace app] in T. rewrite <- T in F.
  rewrite (gbind_run _ _ _ _ _ (withVpc_run _ (mkGroupWorld s2 (group_trace w)) _ _ R)).
  cbv beta iota. cbn [group_ext group_trace].
  destruct err as [e|].
  { left. do 3 eexists. split; [reflexivity|]. cbn [group_trace]. split; [reflexivity|].
    now apply Forall_isGroupRead_VpcReq. }
  destruct (DescribeSecurityGroups groups (ext w3)) as [r s4] eqn:E4.
  destruct r as [secGroups|e].
  - right. exists clusterID, s1, secName, s2, vpcID, cidr, w3, secGroups, s4. auto.
  - left. unfold getSecurityGroup.
    rewrite (gbind_run _ _ _ _ _
               (gbind_run _ _ _ _ _
                  (groupRequest_run _ _ (mkGroupWorld (ext w3) _) _ _ E4))).
    do 3 eexists. split; [reflexivity|]. cbn [group_trace]. rewrite <- app_assoc.
    split; [reflexivity|]. apply Forall_app. split.
    + now apply Forall_isGroupRead_VpcReq.
    + constructor; [exact I | constructor].
Qed.

(** The run once the look-ups and the listing have succeeded. *)
Lemma configureSecurityGroup_after_lookups (w : GroupWorld S P)
    clusterID s1 secName s2 vpcID cidr w3 secGroups s4 :
  GetClusterID svc (group_ext w) = (inl clusterID, s1) ->
  BuildInfraName groups defaultSecurityGroupPostfix defaultAwsIdentifierLength s1
  = (inl secName, s2) ->
  GetCidr cfg svc (mkWorld s2 []) = (Done (vpcID, cidr, None), w3) ->
  DescribeSecurityGroups groups (ext w3) = (inl secGroups, s4) ->
  configureSecurityGroup cfg svc groups DeepEqual ipPermissionFor defaultAwsIdentifierLength w
  = let reads := group_trace w ++ map VpcReq (trace w3) ++ [DescribeSecurityGroupsReq] in
    match findGroup secName secGroups with
    | None =>
        let description := ("security group for cluster " ++ clusterID)%string in
        (Done (Wrap (fst (CreateSecurityGroup groups description secName vpcID s4))
                    "error creating security group"),
         mkGroupWorld (snd (CreateSecurityGroup groups description secName vpcID s4))
                      (reads ++ [CreateSecurityGroupReq description secName vpcID]))
    | Some found =>
        if existsb (fun perm => DeepEqual perm (ipPermissionFor cidr)) (IpPermissions found)
        then (Done None, mkGroupWorld s4 reads)
        else
          (Done (Wrap (fst (AuthorizeSecurityGroupIngress groups (GroupId found)
                              [ipPermissionFor cidr] s4))
                      "error authorizing security group ingress"),
           mkGroupWorld (snd (AuthorizeSecurityGroupIngress groups (GroupId found)
                                [ipPermissionFor cidr] s4))
                        (reads ++ [AuthorizeSecurityGroupIngressReq (GroupId found)
                                     [ipPermissionFor cidr]]))
    end.
Proof.
  intros E1 E2 R E4. unfold configureSecurityGroup.
  rewrite (gbind_run _ _ _ _ _ (groupLookup_run _ _ _ _ E1)).
  rewrite (gbind_run _ _ _ _ _ (groupLookup_run _ (mkGroupWorld s1 (group_trace w)) _ _ E2)).
  rewrite (gbind_run _ _ _ _ _ (withVpc_run _ (mkGroupWorld s2 (group_trace w)) _ _ R)).
  cbv beta iota. cbn [group_ext group_trace].
  assert (L : getSecurityGroup groups secName
                (mkGroupWorld (ext w3) (group_trace w ++ map VpcReq (trace w3)))
              = (Done (findGroup secName secGroups, None),
                 mkGroupWorld s4 ((group_trace w ++ map VpcReq (trace w3))
                                  ++ [DescribeSecurityGroupsReq]))).
  { unfold getSecurityGroup.
    now rewrite (gbind_run _ _ _ _ _
                   (groupRequest_run _ _ (mkGroupWorld (ext w3) _) _ _ E4)). }
  rewrite (gbind_run _ _ _ _ _ L). cbv beta iota zeta. rewrite <- app_assoc.
  destruct (findGroup secName secGroups) as [found|].
  - destruct (existsb _ (IpPermissions found)); [reflexivity|].
    unfold gbind, groupRequest. cbn [group_ext group_trace].
    destruct (AuthorizeSecurityGroupIngress groups (GroupId found) [ipPermissionFor cidr] s4)
      as [[e|] s5]; reflexivity.
  - unfold gbind, groupRequest. cbn [group_ext group_trace].
    destruct (CreateSecurityGroup groups ("security group for cluster " ++ clusterID) secName
                                  vpcID s4) as [[e|] s5]; reflexivity.
Qed.

(** X21: configureSecurityGroup always returns; the requests it adds are
    look-ups (those for the VPC and the listing of the groups) followed by at
    most one change, which is either the creation of a group or the
    authorisation of one ingress permission, never both. *)
Theorem configureSecurityGroup_reads_then_one_change (w : GroupWorld S P) :
  exists err w' reads change,
    configureSecurityGroup cfg svc groups DeepEqual ipPermissionFor
                           defaultAwsIdentifierLength w = (Done err, w') /\
    group_trace w' = group_trace w ++ reads ++ change /\
    Forall isGroupRead reads /\
    (change = [] \/
     (exists description groupName vpcId,
        change = [CreateSecurityGroupReq description groupName vpcId]) \/
     (exists groupId perm, change = [AuthorizeSecurityGroupIngressReq groupId [perm]])).
Proof.
  destruct (configureSecurityGroup_lookups w)
    as [(err & w' & reads & R & T & F)
       |(clusterID & s1 & secName & s2 & vpcID & cidr & w3 & secGroups & s4
         & E1 & E2 & R & F & E4)].
  { exists (Some err), w', reads, []. rewrite app_nil_r. auto. }
  rewrite (configureSecurityGroup_after_lookups w _ _ _ _ _ _ _ _ _ E1 E2 R E4). cbv zeta.
  assert (FR : Forall (@isGroupRead P) (map VpcReq (trace w3) ++ [DescribeSecurityGroupsReq])).
  { apply Forall_app. split; [now apply Forall_isGroupRead_VpcReq|].
    constructor; [exact I | constructor]. }
  destruct (findGroup secName secGroups) as [found|].
  - destruct (existsb _ (IpPermissions found)).
    + do 2 eexists. exists (map VpcReq (trace w3) ++ [DescribeSecurityGroupsReq]), [].
      split; [reflexivity|]. cbn [group_trace]. rewrite app_nil_r. auto.
    + do 2 eexists. exists (map VpcReq (trace w3) ++ [DescribeSecurityGroupsReq]),
        [AuthorizeSecurityGroupIngressReq (GroupId found) [ipPermissionFor cidr]].
      split; [reflexivity|]. cbn [group_trace]. rewrite <- !app_assoc.
      split; [reflexivity|]. split; [exact FR|]. right. right. eauto.
  - do 2 eexists. exists (map VpcReq (trace w3) ++ [DescribeSecurityGroupsReq]),
      [CreateSecurityGroupReq ("security group for cluster " ++ clusterID) secName vpcID].
    split; [reflexivity|]. cbn [group_trace]. rewrite <- !app_assoc.
    split; [reflexivity|]. split; [exact FR|]. right. left. eauto.
Qed.

(** X22: when the first listed group with the built name already holds a
    permission equal to the one for the cluster's CIDR block,
    configureSecurityGroup changes nothing and returns nil: its requests are
    the look-ups alone. *)
Theorem configureSecurityGroup_converged_changes_nothing
    (w : GroupWorld S P) clusterID s1 secName s2 vpcID cidr w3 s4
    (before after : list (SecurityGroup P)) (found : SecurityGroup P) (perm : P) :
  GetClusterID svc (group_ext w) = (inl clusterID, s1) ->
  BuildInfraName groups defaultSecurityGroupPostfix defaultAwsIdentifierLength s1
  = (inl secName, s2) ->
  GetCidr cfg svc (mkWorld s2 []) = (Done (vpcID, cidr, None), w3) ->
  DescribeSecurityGroups groups (ext w3) = (inl (before ++ found :: after), s4) ->
  Forall (fun g => GroupName g <> secName) before ->
  GroupName found = secName ->
  In perm (IpPermissions found) ->
  DeepEqual perm (ipPermissionFor cidr) = true ->
  configureSecurityGroup cfg svc groups DeepEqual ipPermissionFor defaultAwsIdentifierLength w
  = (Done None,
     mkGroupWorld s4 (group_trace w ++ map VpcReq (trace w3) ++ [DescribeSecurityGroupsReq])).
Proof.
  intros E1 E2 R E4 Hb Hf Hin Heq.
  rewrite (configureSecurityGroup_after_lookups w _ _ _ _ _ _ _ _ _ E1 E2 R E4). cbv zeta.
  rewrite (findGroup_app_first _ _ _ _ Hb Hf).
  assert (X : existsb (fun p => DeepEqual p (ipPermissionFor cidr)) (IpPermissions found) = true).
  { apply existsb_exists. eauto. }
  now rewrite X.
Qed.

(** X23: when no listed group has the built name, configureSecurityGroup
    requests the creation of one group with that name in the cluster's VPC,
    described by the cluster identifier, returns the error of that request
    wrapped (nil when it is nil), and authorises no ingress in the same
    call. *)
Theorem configureSecurityGroup_missing_group_created_without_ingress
    (w : GroupWorld S P) clusterID s1 secName s2 vpcID cidr w3 s4
    (secGroups : list (SecurityGroup P)) (err : option error) (s5 : S) :
  GetClusterID svc (group_ext w) = (inl clusterID, s1) ->
  BuildInfraName groups defaultSecurityGroupPostfix defaultAwsIdentifierLength s1
  = (inl secName, s2) ->
  GetCidr cfg svc (mkWorld s2 []) = (Done (vpcID, cidr, None), w3) ->
  DescribeSecurityGroups groups (ext w3) = (inl secGroups, s4) ->
  Forall (fun g => GroupName g <> secName) secGroups ->
  CreateSecurityGroup groups ("security group for cluster " ++ clusterID) secName vpcID s4
  = (err, s5) ->
  configureSecurityGroup cfg svc groups DeepEqual ipPermissionFor defaultAwsIdentifierLength w
  = (Done (Wrap err "error creating security group"),
     mkGroupWorld s5
       (group_trace w ++ map VpcReq (trace w3)
        ++ [DescribeSecurityGroupsReq;
            CreateSecurityGroupReq ("security group for cluster " ++ clusterID) secName vpcID])).
Proof.
  intros E1 E2 R E4 Hn E5.
  rewrite (configureSecurityGroup_after_lookups w _ _ _ _ _ _ _ _ _ E1 E2 R E4). cbv zeta.
  rewrite (findGroup_none _ _ Hn), E5. cbn [fst snd].
  now rewrite <- !app_assoc.
Qed.

(** X24: when the first listed group with the built name holds no
    permission equal to the one for the cluster's CIDR block,
    configureSecurityGroup authorises exactly that one permission on that
    group, creates nothing, and returns the error of the request wrapped
    (nil when it is nil). *)
Theorem configureSecurityGroup_missing_permission_authorized
    (w : GroupWorld S P) clusterID s1 secName s2 vpcID cidr w3 s4
    (before after : list (SecurityGroup P)) (found : SecurityGroup P)
    (err : option error) (s5 : S) :
  GetClusterID svc (group_ext w) = (inl clusterID, s1) ->
  BuildInfraName groups defaultSecurityGroupPostfix defaultAwsIdentifierLength s1
  = (inl secName, s2) ->
  GetCidr cfg svc (mkWorld s2 []) = (Done (vpcID, cidr, None), w3) ->
  DescribeSecurityGroups groups (ext w3) = (inl (before ++ found :: after), s4) ->
  Forall (fun g => GroupName g <> secName) before ->
  GroupName found = secName ->
  Forall (fun perm => DeepEqual perm (ipPermissionFor cidr) = false) (IpPermissions found) ->
  AuthorizeSecurityGroupIngress groups (GroupId found) [ipPermissionFor cidr] s4 = (err, s5) ->
  configureSecurityGroup cfg svc groups DeepEqual ipPermissionFor defaultAwsIdentifierLength w
  = (Done (Wrap err "error authorizing security group ingress"),
     mkGroupWorld s5
       (group_trace w ++ map VpcReq (trace w3)
        ++ [DescribeSecurityGroupsReq;
            AuthorizeSecurityGroupIngressReq (GroupId found) [ipPermissionFor cidr]])).
Proof.
  intros E1 E2 R E4 Hb Hf Hp E5.
  rewrite (configureSecurityGroup_after_lookups w _ _ _ _ _ _ _ _ _ E1 E2 R E4). cbv zeta.
  rewrite (findGroup_app_first _ _ _ _ Hb Hf).
  assert (X : existsb (fun p => DeepEqual p (ipPermissionFor cidr)) (IpPermissions found) = false).
  { clear -Hp. induction Hp as [|p l Hp _ IH]; cbn; [reflexivity | now rewrite Hp, IH]. }
  rewrite X, E5. cbn [fst snd]. now rewrite <- !app_assoc.
Qed.

End WithGroups.

Lemma getSecurityGroup_first_with_name_witness :
  exists found,
    getSecurityGroup (stubGroups [mkSecurityGroup "sg-0" "other" [];
                                  mkSecurityGroup "sg-1" "cluster-1-security-group" [];
                                  mkSecurityGroup "sg-2" "cluster-1-security-group" []]
                                 "cluster-1-security-group")
                     "cluster-1-security-group" groupStart
    = (Done (found, None), mkGroupWorld tt [DescribeSecurityGroupsReq]).
Proof.
  destruct (getSecurityGroup_first_with_name
              (stubGroups [mkSecurityGroup "sg-0" "other" [];
                           mkSecurityGroup "sg-1" "cluster-1-security-group" [];
                           mkSecurityGroup "sg-2" "cluster-1-security-group" []]
                          "cluster-1-security-group")
              "cluster-1-security-group" groupStart _ tt eq_refl) as (found & R & _).
  exists found. exact R.
Defined.

Lemma configureSecurityGroup_converged_changes_nothing_witness :
  configureSecurityGroup exampleConfig groupCluster
    (stubGroups [mkSecurityGroup "sg-0" "other" [];
                 mkSecurityGroup "sg-1" "cluster-1-security-group" ["10.0.0.0/26"%string]]
                "cluster-1-security-group")
    String.eqb (fun cidr => cidr) 40 groupStart
  = (Done None,
     mkGroupWorld tt [VpcReq DescribeSubnetsReq; VpcReq (DescribeVpcsReq ["vpc-1"%string]);
                      DescribeSecurityGroupsReq]).
Proof.
  apply (configureSecurityGroup_converged_changes_nothing exampleConfig groupCluster
           (stubGroups [mkSecurityGroup "sg-0" "other" [];
                        mkSecurityGroup "sg-1" "cluster-1-security-group" ["10.0.0.0/26"%string]]
                       "cluster-1-security-group")
           String.eqb (fun cidr => cidr) 40 groupStart
           "cluster-1" tt "cluster-1-security-group" tt "vpc-1" "10.0.0.0/26"
           (mkWorld tt [DescribeSubnetsReq; DescribeVpcsReq ["vpc-1"%string]]) tt
           [mkSecurityGroup "sg-0" "other" []] []
           (mkSecurityGroup "sg-1" "cluster-1-security-group" ["10.0.0.0/26"%string])
           "10.0.0.0/26"%string); try reflexivity.
  - constructor; [discriminate | constructor].
  - left. reflexivity.
Defined.

Lemma configureSecurityGroup_missing_group_created_without_ingress_witness :
  configureSecurityGroup exampleConfig groupCluster
    (stubGroups [mkSecurityGroup "sg-0" "other" []] "cluster-1-security-group")
    String.eqb (fun cidr => cidr) 40 groupStart
  = (Done None,
     mkGroupWorld tt [VpcReq DescribeSubnetsReq; VpcReq (DescribeVpcsReq ["vpc-1"%string]);
                      DescribeSecurityGroupsReq;
                      CreateSecurityGroupReq "security group for cluster cluster-1"
                                             "cluster-1-security-group" "vpc-1"]).
Proof.
  apply (configureSecurityGroup_missing_group_created_without_ingress exampleConfig groupCluster
           (stubGroups [mkSecurityGroup "sg-0" "other" []] "cluster-1-security-group")
           String.eqb (fun cidr => cidr) 40 groupStart
           "cluster-1" tt "cluster-1-security-group" tt "vpc-1" "10.0.0.0/26"
           (mkWorld tt [DescribeSubnetsReq; DescribeVpcsReq ["vpc-1"%string]]) tt
           [mkSecurityGroup "sg-0" "other" []] None tt); try reflexivity.
  constructor; [discriminate | constructor].
Defined.

Lemma configureSecurityGroup_missing_permission_authorized_witness :
  configureSecurityGroup exampleConfig groupCluster
    (stubGroups [mkSecurityGroup "sg-1" "cluster-1-security-group" ["10.1.0.0/16"%string]]
                "cluster-1-security-group")
    String.eqb (fun cidr => cidr) 40 groupStart
  = (Done None,
     mkGroupWorld tt [VpcReq DescribeSubnetsReq; VpcReq (DescribeVpcsReq ["vpc-1"%string]);
                      DescribeSecurityGroupsReq;
                      AuthorizeSecurityGroupIngressReq "sg-1" ["10.0.0.0/26"%string]]).
Proof.
  apply (configureSecurityGroup_missing_permission_authorized exampleConfig groupCluster
           (stubGroups [mkSecurityGroup "sg-1" "cluster-1-security-group" ["10.1.0.0/16"%string]]
                       "cluster-1-security-group")
           String.eqb (fun cidr => cidr) 40 groupStart
           "cluster-1" tt "cluster-1-security-group" tt "vpc-1" "10.0.0.0/26"
           (mkWorld tt [DescribeSubnetsReq; DescribeVpcsReq ["vpc-1"%string]]) tt
           [] [] (mkSecurityGroup "sg-1" "cluster-1-security-group" ["10.1.0.0/16"%string])
           None tt); try reflexivity.
  - constructor.
  - constructor; [reflexivity | constructor].
Defined.

End SecurityGroupFacts.

(** ** The status check of the installation stages *)

Module CommonFacts.
Import Common StatusVocabulary StatusExamples.

Lemma checkStatus_empty phase :
  String.eqb (checkStatus phase) "" = isCompleted (Some phase).
Proof.
  unfold checkStatus, isCompleted.
  destruct (String.eqb phase "completed"); reflexivity.
Qed.

Lemma checkStatus_retry phase :
  isCompleted (Some phase) = false ->
  retryStatus (checkStatus phase) = isInProgress (Some phase).
Proof.
  unfold checkStatus, isCompleted, retryStatus, isInProgress. intros H.
  apply orb_false_iff in H. destruct H as [H _]. now rewrite H.
Qed.

Lemma verdicts_cases o :
  (isCompleted o = true /\ verdicts o = [])
  \/ (isCompleted o = false /\ isInProgress o = true /\ verdicts o = [false])
  \/ (isCompleted o = false /\ isInProgress o = false /\ verdicts o = [true]).
Proof.
  unfold verdicts. destruct (isCompleted o); [now left|].
  destruct (isInProgress o); right; [left | right]; auto.
Qed.

(** The products of a stage: [done] is the last verdict, the events are the
    verdicts. *)
Lemma checkProducts_verdicts stage stageName : forall productNames done,
  fst (checkProducts stage stageName productNames done)
  = fold_left (fun _ v => v) (flat_map verdicts (examinedProducts stage productNames)) done
  /\ map isErrorf (snd (checkProducts stage stageName productNames done))
     = flat_map verdicts (examinedProducts stage productNames).
Proof.
  induction productNames as [|p rest IH]; intros done; cbn [checkProducts]; [now split|].
  unfold examinedProducts. cbn [map flat_map]. fold (examinedProducts stage rest).
  rewrite fold_left_app.
  destruct (lookup p (Products stage)) as [product|]; cbn [option_map].
  - unfold checkProductStatus. rewrite checkStatus_empty.
    destruct (verdicts_cases (Some (Product_Phase product)))
      as [(C & V)|[(C & Q & V)|(C & Q & V)]]; rewrite V, C; cbn [fold_left app].
    + apply IH.
    + rewrite (checkStatus_retry _ C), Q. destruct (IH false) as [I1 I2].
      destruct (checkProducts stage stageName rest false) as [d evs]. cbn in *.
      split; [exact I1 | now rewrite I2].
    + rewrite (checkStatus_retry _ C), Q. destruct (IH true) as [I1 I2].
      destruct (checkProducts stage stageName rest true) as [d evs]. cbn in *.
      split; [exact I1 | now rewrite I2].
  - change (verdicts None) with [true]. cbn [fold_left app].
    destruct (IH true) as [I1 I2].
    destruct (checkProducts stage stageName rest true) as [d evs]. cbn in *.
    split; [exact I1 | now rewrite I2].
Qed.

Lemma checkStages_verdicts stages : forall expected done,
  fst (checkStages stages expected done)
  = fold_left (fun _ v => v) (flat_map verdicts (examined stages expected)) done
  /\ map isErrorf (snd (checkStages stages expected done))
     = flat_map verdicts (examined stages expected).
Proof.
  induction expected as [|[stageName productNames] rest IH]; intros done;
    cbn [checkStages examined]; [now split|].
  destruct (lookup stageName stages) as [stage|].
  - cbn [flat_map]. rewrite flat_map_app, !fold_left_app.
    unfold checkStageStatus. rewrite checkStatus_empty.
    destruct (verdicts_cases (Some (Stage_Phase stage)))
      as [(C & V)|[(C & Q & V)|(C & Q & V)]]; rewrite V, C; cbn [fold_left app].
    + destruct (checkProducts_verdicts stage stageName productNames done) as [P1 P2].
      destruct (checkProducts stage stageName productNames done) as [d2 evs2].
      destruct (IH d2) as [I1 I2].
      destruct (checkStages stages rest d2) as [d evs]. cbn in *.
      rewrite map_app, P2, I2, I1, P1. now split.
    + rewrite (checkStatus_retry _ C), Q.
      destruct (checkProducts_verdicts stage stageName productNames false) as [P1 P2].
      destruct (checkProducts stage stageName productNames false) as [d2 evs2].
      destruct (IH d2) as [I1 I2].
      destruct (checkStages stages rest d2) as [d evs]. cbn in *.
      rewrite map_app, P2, I2, I1, P1. now split.
    + rewrite (checkStatus_retry _ C), Q.
      destruct (checkProducts_verdicts stage stageName productNames true) as [P1 P2].
      destruct (checkProducts stage stageName productNames true) as [d2 evs2].
      destruct (IH d2) as [I1 I2].
      destruct (checkStages stages rest d2) as [d evs]. cbn in *.
      rewrite map_app, P2, I2, I1, P1. now split.
  - cbn [flat_map]. change (verdicts None) with [true]. cbn [fold_left app].
    destruct (IH true) as [I1 I2].
    destruct (checkStages stages rest true) as [d evs]. cbn in *.
    split; [exact I1 | now rewrite I2].
Qed.

Lemma verdicts_nil l :
  flat_map verdicts l = [] <-> forallb isCompleted l = true.
Proof.
  induction l as [|o l IH]; cbn [flat_map forallb]; [split; reflexivity|].
  unfold verdicts at 1. destruct (isCompleted o); cbn.
  - exact IH.
  - split; [|discriminate]. destruct (isInProgress o); discriminate.
Qed.

Lemma verdicts_true l :
  In true (flat_map verdicts l) <-> existsb isFailed l = true.
Proof.
  induction l as [|o l IH]; cbn [flat_map existsb]; [split; [intros [] | discriminate]|].
  rewrite in_app_iff, orb_true_iff, IH. unfold verdicts, isFailed.
  destruct (isCompleted o), (isInProgress o); cbn; intuition discriminate.
Qed.

Lemma verdicts_false l :
  In false (flat_map verdicts l) <-> existsb isInProgress l = true.
Proof.
  induction l as [|o l IH]; cbn [flat_map existsb]; [split; [intros [] | discriminate]|].
  rewrite in_app_iff, orb_true_iff, IH. unfold verdicts.
  destruct (isCompleted o) eqn:C, (isInProgress o) eqn:Q; cbn; try intuition discriminate.
  exfalso. destruct o as [phase|]; [|discriminate]. cbn in C, Q.
  apply String.eqb_eq in Q. subst phase. discriminate.
Qed.

Lemma last_verdict vs : forall done,
  fold_left (fun (_ : bool) v => v) vs done
  = match rev vs with [] => done | v :: _ => v end.
Proof.
  induction vs as [|v vs IH]; intros done; [reflexivity|].
  cbn [fold_left rev]. rewrite IH. destruct (rev vs); reflexivity.
Qed.

(** X25: a round of the check reports nothing exactly when every expected
    stage and product it examines is there with a completed or an empty
    phase; the flag it started with is then left as it was. *)
Theorem checkStages_quiet_iff_all_completed
    (stages : list (string * RHMIStageStatus)) (expected : list (string * list string))
    (done : bool) :
  (snd (checkStages stages expected done) = []
   <-> forallb isCompleted (examined stages expected) = true)
  /\ (snd (checkStages stages expected done) = []
      -> fst (checkStages stages expected done) = done).
Proof.
  destruct (checkStages_verdicts stages expected done) as [V1 V2].
  assert (E : snd (checkStages stages expected done) = []
              <-> flat_map verdicts (examined stages expected) = []).
  { rewrite <- V2. split; [now intros -> | apply map_eq_nil]. }
  split; [now rewrite E, verdicts_nil|].
  intros H. apply E in H. now rewrite V1, H.
Qed.

(** X26: a round records a failure of the test exactly when some expected
    stage or product it examines is missing or has a phase other than
    completed, empty and in progress. *)
Theorem checkStages_error_iff_missing_or_failed
    (stages : list (string * RHMIStageStatus)) (expected : list (string * list string))
    (done : bool) :
  (exists message, In (Errorf message) (snd (checkStages stages expected done)))
  <-> existsb isFailed (examined stages expected) = true.
Proof.
  destruct (checkStages_verdicts stages expected done) as [_ V2].
  rewrite <- verdicts_true, <- V2, in_map_iff. split.
  - intros [m H]. exists (Errorf m). now split.
  - intros [[m|m] [H1 H2]]; [eauto | discriminate].
Qed.

(** X27: the flag a round returns is decided by the last thing it reported:
    false after a retry line, true after an error, and the flag it started
    with when it reported nothing.  An item in progress after a failed one
    keeps the poll going, and a failed one after an item in progress ends
    it. *)
Theorem checkStages_done_follows_last_event
    (stages : list (string * RHMIStageStatus)) (expected : list (string * list string))
    (done : bool) :
  fst (checkStages stages expected done)
  = match rev (snd (checkStages stages expected done)) with
    | [] => done
    | Logf _ :: _ => false
    | Errorf _ :: _ => true
    end.
Proof.
  destruct (checkStages_verdicts stages expected done) as [V1 V2].
  rewrite V1, last_verdict, <- V2, <- map_rev.
  destruct (rev (snd (checkStages stages expected done))) as [|[m|m] l]; reflexivity.
Qed.

Section PollingFacts.

Context {S : Type}.
Variable GetRHMI : S -> (RHMI + string) * S.
Variable IsRHOAMMultitenant : string -> bool.
Variable rangeOrder : S -> list (string * list string) -> list (string * list string).

Lemma examined_completed stages : forall expected,
  (forall stageName productNames, In (stageName, productNames) expected ->
     exists stage, lookup stageName stages = Some stage /\
       isCompleted (Some (Stage_Phase stage)) = true /\
       forall productName, In productName productNames ->
         exists product, lookup productName (Products stage) = Some product /\
                         isCompleted (Some (Product_Phase product)) = true) ->
  forallb isCompleted (examined stages expected) = true.
Proof.
  induction expected as [|[stageName productNames] rest IH]; intros H; [reflexivity|].
  cbn [examined].
  destruct (H stageName productNames (or_introl eq_refl)) as (stage & -> & Hs & Hp).
  cbn [forallb]. rewrite forallb_app, Hs, IH by (intros; apply H; now right).
  rewrite andb_true_r. cbn [andb]. apply forallb_forall. intros o Ho.
  unfold examinedProducts in Ho. apply in_map_iff in Ho. destruct Ho as (p & <- & Hin).
  destruct (Hp p Hin) as (product & -> & Hc). exact Hc.
Qed.

(** X28: when the RHMI has every stage and product expected for its
    installation type, each with a completed or an empty phase, the test
    ends in its first round without a failure and without a log line,
    in whatever order the stages are visited. *)
Theorem TestIntegreatlyStagesStatus_completed_ends_first_round
    (fuel : nat) (s s' : S) (rhmi : RHMI) :
  (forall st m entry, In entry (rangeOrder st m) -> In entry m) ->
  GetRHMI s = (inl rhmi, s') ->
  (forall stageName productNames,
     In (stageName, productNames)
        (getExpectedStageProducts IsRHOAMMultitenant (Spec_Type rhmi)) ->
     exists stage, lookup stageName (Status_Stages rhmi) = Some stage /\
       isCompleted (Some (Stage_Phase stage)) = true /\
       forall productName, In productName productNames ->
         exists product, lookup productName (Products stage) = Some product /\
                         isCompleted (Some (Product_Phase product)) = true) ->
  TestIntegreatlyStagesStatus GetRHMI IsRHOAMMultitenant rangeOrder (Datatypes.S fuel) s
  = Done [].
Proof.
  intros Hr E H. cbn [TestIntegreatlyStagesStatus]. unfold pollRound. rewrite E.
  set (expected := rangeOrder s' _).
  assert (C : forallb isCompleted (examined (Status_Stages rhmi) expected) = true).
  { apply examined_completed. intros stageName productNames Hin. apply H.
    exact (Hr _ _ _ Hin). }
  destruct (checkStages_verdicts (Status_Stages rhmi) expected true) as [V1 V2].
  apply verdicts_nil in C. rewrite C in V1, V2. apply map_eq_nil in V2.
  destruct (checkStages (Status_Stages rhmi) expected true) as [d evs]. cbn in V1, V2.
  now subst.
Qed.

(** X29: when in every round the RHMI is read, nothing examined is missing
    or failed, and something examined is in progress, the test never
    returns: no number of rounds is enough. *)
Theorem TestIntegreatlyStagesStatus_in_progress_never_returns :
  (forall s, exists rhmi s',
      GetRHMI s = (inl rhmi, s') /\
      existsb isFailed
        (examined (Status_Stages rhmi)
           (rangeOrder s' (getExpectedStageProducts IsRHOAMMultitenant (Spec_Type rhmi))))
      = false /\
      existsb isInProgress
        (examined (Status_Stages rhmi)
           (rangeOrder s' (getExpectedStageProducts IsRHOAMMultitenant (Spec_Type rhmi))))
      = true) ->
  forall fuel s,
    TestIntegreatlyStagesStatus GetRHMI IsRHOAMMultitenant rangeOrder fuel s = OutOfFuel.
Proof.
  intros H. induction fuel as [|fuel IH]; intros s; [reflexivity|].
  cbn [TestIntegreatlyStagesStatus]. unfold pollRound.
  destruct (H s) as (rhmi & s' & E & NF & IP). rewrite E.
  set (expected := rangeOrder s' _) in *.
  destruct (checkStages_verdicts (Status_Stages rhmi) expected true) as [V1 V2].
  rewrite last_verdict in V1.
  assert (D : fst (checkStages (Status_Stages rhmi) expected true) = false).
  { rewrite V1. apply verdicts_false in IP.
    destruct (rev (flat_map verdicts (examined (Status_Stages rhmi) expected)))
      as [|v l] eqn:R.
    - apply in_rev in IP. rewrite R in IP. destruct IP.
    - destruct v; [|reflexivity]. exfalso.
      assert (T : In true (flat_map verdicts (examined (Status_Stages rhmi) expected))).
      { apply in_rev. rewrite R. now left. }
      apply verdicts_true in T. congruence. }
  destruct (checkStages (Status_Stages rhmi) expected true) as [d evs]. cbn in D. subst d.
  now rewrite IH.
Qed.

End PollingFacts.

Lemma TestIntegreatlyStagesStatus_completed_ends_first_round_witness :
  TestIntegreatlyStagesStatus (readRHMI (rhmiWith "completed"%string)) isMultitenant tableOrder 1 tt
  = Done [].
Proof.
  apply (TestIntegreatlyStagesStatus_completed_ends_first_round
           (readRHMI (rhmiWith "completed"%string)) isMultitenant tableOrder 0 tt tt
           (rhmiWith "completed"%string)).
  - intros st m entry H. exact H.
  - reflexivity.
  - intros stageName productNames [H|[]]. injection H as <- <-.
    exists (installationStage "completed"%string). split; [reflexivity|]. split; [reflexivity|].
    intros productName Hp. exists completedProduct.
    repeat (destruct Hp as [<-|Hp]; [split; reflexivity|]). destruct Hp.
Defined.

Lemma TestIntegreatlyStagesStatus_in_progress_never_returns_witness :
  TestIntegreatlyStagesStatus (readRHMI (rhmiWith "in progress"%string)) isMultitenant tableOrder 50 tt
  = OutOfFuel.
Proof.
  apply (TestIntegreatlyStagesStatus_in_progress_never_returns
           (readRHMI (rhmiWith "in progress"%string)) isMultitenant tableOrder).
  intros s. exists (rhmiWith "in progress"%string), s. repeat split; reflexivity.
Defined.

End CommonFacts.
